(** * ForenVision front end: the client-side session coordinator

    A shallow embedding of [frontend/src/services/api.js] (the request
    gateway, the credential store helpers, login, logout) and of the
    [syncAuthState] derivation of [App.jsx], together with the part of the
    browser platform they rely on: [localStorage], [JSON.parse] and
    [JSON.stringify], [setTimeout], [alert], [window.dispatchEvent],
    [window.location.href] and [fetch].

    Layout: platform model (JSON values, storage, effects, timers), then the
    functions of the source under their own names, then the facts proved
    about them. *)

From Stdlib Require Import ZArith String Ascii List Decimal DecimalZ DecimalPos DecimalFacts Lia.
From stdpp Require Import base option gmap strings list.

Local Open Scope string_scope.
Local Open Scope Z_scope.
Local Open Scope list_scope.

(* ===================================================================== *)
(** ** Characters and strings *)
(* ===================================================================== *)

(** The double quote and the backslash, by code point. *)
Definition dquote : ascii := "034"%char.
Definition backslash : ascii := "092"%char.

Definition str1 (a : ascii) : string := String a EmptyString.

(** JS truthiness of a string: every string but the empty one. *)
Definition nonempty (s : string) : bool :=
  match s with EmptyString => false | String _ _ => true end.

(* ===================================================================== *)
(** ** JSON values, [JSON.stringify] and [JSON.parse] *)
(* ===================================================================== *)

(** Values that [JSON.parse] produces and [JSON.stringify] consumes.
    An object is its list of own properties in insertion order.  Numbers are
    the integers (the model has no fractions or exponents), strings are byte
    strings (an escape above code 255 is not representable and is refused),
    and the reordering of array-index keys that JS engines apply is not
    modelled. *)
#[local] Unset Elimination Schemes.
Inductive json : Type :=
  | JNull
  | JBool (b : bool)
  | JNum (n : Z)
  | JStr (s : string)
  | JArr (l : list json)
  | JObj (m : list (string * json)).
#[local] Set Elimination Schemes.

(** *** Objects as ordered property lists *)

(** [o[k]] for an own property. *)
Fixpoint obj_get (k : string) (m : list (string * json)) : option json :=
  match m with
  | [] => None
  | (k', v) :: m' => if String.eqb k k' then Some v else obj_get k m'
  end.

(** [o[k] = v]: an existing property keeps its position, a new one is
    appended. *)
Fixpoint obj_set (k : string) (v : json) (m : list (string * json))
  : list (string * json) :=
  match m with
  | [] => [(k, v)]
  | (k', v') :: m' =>
      if String.eqb k k' then (k, v) :: m' else (k', v') :: obj_set k v m'
  end.

(** Copying a list of properties into an object, one assignment each. *)
Definition obj_assign (target props : list (string * json))
  : list (string * json) :=
  fold_left (fun o kv => obj_set (fst kv) (snd kv) o) props target.

Fixpoint keys_unique (ks : list string) : bool :=
  match ks with
  | [] => true
  | k :: ks' => negb (existsb (String.eqb k) ks') && keys_unique ks'
  end.

(** A value is well formed when no object in it has two properties of the
    same name, which is every value a JS program can build. *)
Fixpoint wf_json (v : json) : bool :=
  match v with
  | JArr l => forallb wf_json l
  | JObj m => keys_unique (map fst m) && forallb (fun kv => wf_json (snd kv)) m
  | _ => true
  end.

(** *** Integers in decimal *)

Fixpoint uint_digits (u : Decimal.uint) : string :=
  match u with
  | Nil => EmptyString
  | D0 u' => String "0" (uint_digits u')
  | D1 u' => String "1" (uint_digits u')
  | D2 u' => String "2" (uint_digits u')
  | D3 u' => String "3" (uint_digits u')
  | D4 u' => String "4" (uint_digits u')
  | D5 u' => String "5" (uint_digits u')
  | D6 u' => String "6" (uint_digits u')
  | D7 u' => String "7" (uint_digits u')
  | D8 u' => String "8" (uint_digits u')
  | D9 u' => String "9" (uint_digits u')
  end.

Definition print_int (n : Z) : string :=
  match Z.to_int n with
  | Decimal.Pos u => uint_digits u
  | Decimal.Neg u => String "-" (uint_digits u)
  end.

Definition digit_of (a : ascii) : option (Decimal.uint -> Decimal.uint) :=
  match N_of_ascii a with
  | 48%N => Some D0 | 49%N => Some D1 | 50%N => Some D2 | 51%N => Some D3
  | 52%N => Some D4 | 53%N => Some D5 | 54%N => Some D6 | 55%N => Some D7
  | 56%N => Some D8 | 57%N => Some D9
  | _ => None
  end.

(** The longest prefix of digits, and what follows it. *)
Fixpoint read_digits (s : string) : Decimal.uint * string :=
  match s with
  | EmptyString => (Nil, EmptyString)
  | String a r =>
      match digit_of a with
      | Some d => let '(u, r') := read_digits r in (d u, r')
      | None => (Nil, s)
      end
  end.

(** JSON's integer part: a single zero, or digits that do not start with
    one. *)
Definition int_part_ok (u : Decimal.uint) : bool :=
  match u with
  | Nil => false
  | D0 Nil => true
  | D0 _ => false
  | _ => true
  end.

(** A number may not run into a fraction or an exponent: the model has
    none. *)
Definition number_ends (r : string) : bool :=
  match r with
  | String a _ =>
      match N_of_ascii a with
      | 46%N | 69%N | 101%N => false
      | _ => true
      end
  | EmptyString => true
  end.

Definition parse_number (s : string) : option (json * string) :=
  match s with
  | String "-" r =>
      let '(u, r') := read_digits r in
      if int_part_ok u && number_ends r'
      then Some (JNum (- Z.of_uint u), r') else None
  | _ =>
      let '(u, r') := read_digits s in
      if int_part_ok u && number_ends r'
      then Some (JNum (Z.of_uint u), r') else None
  end.

(** *** String literals *)

Definition hex_digit (n : N) : ascii :=
  match n with
  | 0%N => "0" | 1%N => "1" | 2%N => "2" | 3%N => "3" | 4%N => "4"
  | 5%N => "5" | 6%N => "6" | 7%N => "7" | 8%N => "8" | 9%N => "9"
  | 10%N => "a" | 11%N => "b" | 12%N => "c" | 13%N => "d" | 14%N => "e"
  | _ => "f"
  end%char.

Definition hex_val (a : ascii) : option N :=
  let n := N_of_ascii a in
  if (48 <=? n)%N && (n <=? 57)%N then Some (n - 48)%N
  else if (97 <=? n)%N && (n <=? 102)%N then Some (n - 87)%N
  else if (65 <=? n)%N && (n <=? 70)%N then Some (n - 55)%N
  else None.

(** QuoteJSONString, one character at a time. *)
Definition escape_char (a : ascii) : string :=
  let n := N_of_ascii a in
  if (n =? 34)%N then String backslash (str1 dquote)
  else if (n =? 92)%N then String backslash (str1 backslash)
  else if (n =? 8)%N then String backslash "b"
  else if (n =? 12)%N then String backslash "f"
  else if (n =? 10)%N then String backslash "n"
  else if (n =? 13)%N then String backslash "r"
  else if (n =? 9)%N then String backslash "t"
  else if (n <? 32)%N then
    String backslash
      (String "u" (String "0" (String "0"
        (String (hex_digit (n / 16)) (str1 (hex_digit (n mod 16)))))))
  else str1 a.

Fixpoint escape_string (s : string) : string :=
  match s with
  | EmptyString => EmptyString
  | String a r => escape_char a +:+ escape_string r
  end.

Definition quote_string (s : string) : string :=
  String dquote (escape_string s +:+ str1 dquote).

Definition push_char (a : ascii) (p : option (string * string))
  : option (string * string) :=
  match p with
  | Some (s, r) => Some (String a s, r)
  | None => None
  end.

Definition unescape_simple (e : ascii) : option ascii :=
  match N_of_ascii e with
  | 34%N => Some dquote
  | 92%N => Some backslash
  | 47%N => Some "/"%char
  | 98%N => Some "008"%char
  | 102%N => Some "012"%char
  | 110%N => Some "010"%char
  | 114%N => Some "013"%char
  | 116%N => Some "009"%char
  | _ => None
  end.

Definition hex4 (h1 h2 h3 h4 : ascii) : option N :=
  match hex_val h1, hex_val h2, hex_val h3, hex_val h4 with
  | Some a, Some b, Some c, Some d => Some (((a * 16 + b) * 16 + c) * 16 + d)%N
  | _, _, _, _ => None
  end.

(** The characters of a string literal after its opening quote, up to and
    including the closing one. *)
Fixpoint parse_string_body (s : string) : option (string * string) :=
  match s with
  | EmptyString => None
  | String a r =>
      if Ascii.eqb a dquote then Some (EmptyString, r)
      else if Ascii.eqb a backslash then
        match r with
        | EmptyString => None
        | String e r1 =>
            if Ascii.eqb e "u" then
              match r1 with
              | String h1 (String h2 (String h3 (String h4 r2))) =>
                  match hex4 h1 h2 h3 h4 with
                  | Some n =>
                      if (n <? 256)%N
                      then push_char (ascii_of_N n) (parse_string_body r2)
                      else None
                  | None => None
                  end
              | _ => None
              end
            else
              match unescape_simple e with
              | Some c => push_char c (parse_string_body r1)
              | None => None
              end
        end
      else if (N_of_ascii a <? 32)%N then None
      else push_char a (parse_string_body r)
  end.

(** *** [JSON.stringify] *)

(** Items printed with commas between them. *)
Fixpoint join_commas {A} (f : A -> string) (l : list A) : string :=
  match l with
  | [] => EmptyString
  | [x] => f x
  | x :: l' => f x +:+ String "," (join_commas f l')
  end.

Fixpoint JSON_stringify (v : json) : string :=
  match v with
  | JNull => "null"
  | JBool true => "true"
  | JBool false => "false"
  | JNum n => print_int n
  | JStr s => quote_string s
  | JArr l => String "[" (join_commas JSON_stringify l +:+ "]")
  | JObj m =>
      String "{"
        (join_commas
           (fun kv => quote_string (fst kv) +:+ String ":" (JSON_stringify (snd kv)))
           m +:+ "}")
  end.

(** One property as [JSON_stringify] prints it. *)
Definition print_member (kv : string * json) : string :=
  quote_string (fst kv) +:+ String ":" (JSON_stringify (snd kv)).

(** *** [JSON.parse] *)

Definition is_ws (a : ascii) : bool :=
  match N_of_ascii a with
  | 32%N | 9%N | 10%N | 13%N => true
  | _ => false
  end.

Fixpoint skip_ws (s : string) : string :=
  match s with
  | EmptyString => EmptyString
  | String a r => if is_ws a then skip_ws r else s
  end.

(** [strip_prefix p s] is what follows [p] in [s]. *)
Fixpoint strip_prefix (p s : string) : option string :=
  match p, s with
  | EmptyString, _ => Some s
  | String a p', String b s' =>
      if Ascii.eqb a b then strip_prefix p' s' else None
  | String _ _, EmptyString => None
  end.

Definition literal (word : string) (v : json) (s : string)
  : option (json * string) :=
  match strip_prefix word s with
  | Some r => Some (v, r)
  | None => None
  end.

Fixpoint parse_value (fuel : nat) (s : string) : option (json * string) :=
  match fuel with
  | O => None
  | S fuel' =>
      match skip_ws s with
      | EmptyString => None
      | String a r =>
          if Ascii.eqb a "n" then literal "null" JNull (String a r)
          else if Ascii.eqb a "t" then literal "true" (JBool true) (String a r)
          else if Ascii.eqb a "f" then literal "false" (JBool false) (String a r)
          else if Ascii.eqb a dquote then
            match parse_string_body r with
            | Some (str, r') => Some (JStr str, r')
            | None => None
            end
          else if Ascii.eqb a "[" then
            match skip_ws r with
            | String b r' =>
                if Ascii.eqb b "]" then Some (JArr [], r')
                else
                  match parse_elements fuel' r with
                  | Some (l, r'') => Some (JArr l, r'')
                  | None => None
                  end
            | EmptyString => None
            end
          else if Ascii.eqb a "{" then
            match skip_ws r with
            | String b r' =>
                if Ascii.eqb b "}" then Some (JObj [], r')
                else
                  match parse_members fuel' r with
                  | Some (m, r'') => Some (JObj (obj_assign [] m), r'')
                  | None => None
                  end
            | EmptyString => None
            end
          else parse_number (String a r)
      end
  end
with parse_elements (fuel : nat) (s : string)
  : option (list json * string) :=
  match fuel with
  | O => None
  | S fuel' =>
      match parse_value fuel' s with
      | Some (v, r) =>
          match skip_ws r with
          | String b r' =>
              if Ascii.eqb b "," then
                match parse_elements fuel' r' with
                | Some (l, r'') => Some (v :: l, r'')
                | None => None
                end
              else if Ascii.eqb b "]" then Some ([v], r')
              else None
          | EmptyString => None
          end
      | None => None
      end
  end
with parse_members (fuel : nat) (s : string)
  : option (list (string * json) * string) :=
  match fuel with
  | O => None
  | S fuel' =>
      match skip_ws s with
      | String q r =>
          if Ascii.eqb q dquote then
            match parse_string_body r with
            | Some (k, r1) =>
                match skip_ws r1 with
                | String c r2 =>
                    if Ascii.eqb c ":" then
                      match parse_value fuel' r2 with
                      | Some (v, r3) =>
                          match skip_ws r3 with
                          | String b r4 =>
                              if Ascii.eqb b "," then
                                match parse_members fuel' r4 with
                                | Some (m, r5) => Some ((k, v) :: m, r5)
                                | None => None
                                end
                              else if Ascii.eqb b "}" then Some ([(k, v)], r4)
                              else None
                          | EmptyString => None
                          end
                      | None => None
                      end
                    else None
                | EmptyString => None
                end
            | None => None
            end
          else None
      | EmptyString => None
      end
  end.

(** [JSON.parse text]: one value, surrounded by optional white space, and
    nothing else.  [None] stands for the SyntaxError the platform throws;
    the fuel handed to the parser is more than any text needs. *)
Definition JSON_parse (text : string) : option json :=
  match parse_value (2 * String.length text + 2) text with
  | Some (v, r) =>
      match skip_ws r with
      | EmptyString => Some v
      | String _ _ => None
      end
  | None => None
  end.

(** *** The texts [JSON.parse] accepts *)

(** [JSON_parse] above analyses a part of JSON only: a number with a
    fraction or an exponent, or an escape above code 255, is JSON that it
    does not analyse.  The recogniser below follows the whole grammar of
    [JSON.parse] (ECMA-404), so that a text it refuses is a text on which
    the platform throws its SyntaxError.  Texts are the strings the
    platform hands to the parser: an entry of the store, or the decoded text
    of a response body. *)

Definition is_digit (a : ascii) : bool :=
  match digit_of a with
  | Some _ => true
  | None => false
  end.

Fixpoint skip_digits (s : string) : string :=
  match s with
  | EmptyString => EmptyString
  | String a r => if is_digit a then skip_digits r else s
  end.

(** One digit or more. *)
Definition scan_digits1 (s : string) : option string :=
  match s with
  | String a r => if is_digit a then Some (skip_digits r) else None
  | EmptyString => None
  end.

(** The integer part: a single zero, or digits that do not start with
    one. *)
Definition scan_int (s : string) : option string :=
  let '(u, r) := read_digits s in
  if int_part_ok u then Some r else None.

(** An optional fraction: a point and one digit or more. *)
Definition scan_fraction (s : string) : option string :=
  match s with
  | String a r => if Ascii.eqb a "." then scan_digits1 r else Some s
  | EmptyString => Some s
  end.

(** An optional exponent: [e] or [E], an optional sign, one digit or
    more. *)
Definition scan_exponent (s : string) : option string :=
  match s with
  | String a r =>
      if Ascii.eqb a "e" || Ascii.eqb a "E" then
        match r with
        | String b r' =>
            if Ascii.eqb b "+" || Ascii.eqb b "-" then scan_digits1 r'
            else scan_digits1 r
        | EmptyString => None
        end
      else Some s
  | EmptyString => Some s
  end.

Definition scan_number (s : string) : option string :=
  let digits :=
    match s with
    | String a r => if Ascii.eqb a "-" then r else s
    | EmptyString => s
    end in
  match scan_int digits with
  | Some r =>
      match scan_fraction r with
      | Some r' => scan_exponent r'
      | None => None
      end
  | None => None
  end.

(** A string literal after its opening quote: any character from code 32
    on but the quote and the backslash, the simple escapes, and [u] with
    four hexadecimal digits of any value. *)
Fixpoint scan_string_body (s : string) : option string :=
  match s with
  | EmptyString => None
  | String a r =>
      if Ascii.eqb a dquote then Some r
      else if Ascii.eqb a backslash then
        match r with
        | EmptyString => None
        | String e r1 =>
            if Ascii.eqb e "u" then
              match r1 with
              | String h1 (String h2 (String h3 (String h4 r2))) =>
                  match hex4 h1 h2 h3 h4 with
                  | Some _ => scan_string_body r2
                  | None => None
                  end
              | _ => None
              end
            else
              match unescape_simple e with
              | Some _ => scan_string_body r1
              | None => None
              end
        end
      else if (N_of_ascii a <? 32)%N then None
      else scan_string_body r
  end.

Fixpoint scan_value (fuel : nat) (s : string) : option string :=
  match fuel with
  | O => None
  | S fuel' =>
      match skip_ws s with
      | EmptyString => None
      | String a r =>
          if Ascii.eqb a "n" then strip_prefix "null" (String a r)
          else if Ascii.eqb a "t" then strip_prefix "true" (String a r)
          else if Ascii.eqb a "f" then strip_prefix "false" (String a r)
          else if Ascii.eqb a dquote then scan_string_body r
          else if Ascii.eqb a "[" then
            match skip_ws r with
            | String b r' =>
                if Ascii.eqb b "]" then Some r' else scan_elements fuel' r
            | EmptyString => None
            end
          else if Ascii.eqb a "{" then
            match skip_ws r with
            | String b r' =>
                if Ascii.eqb b "}" then Some r' else scan_members fuel' r
            | EmptyString => None
            end
          else scan_number (String a r)
      end
  end
with scan_elements (fuel : nat) (s : string) : option string :=
  match fuel with
  | O => None
  | S fuel' =>
      match scan_value fuel' s with
      | Some r =>
          match skip_ws r with
          | String b r' =>
              if Ascii.eqb b "," then scan_elements fuel' r'
              else if Ascii.eqb b "]" then Some r'
              else None
          | EmptyString => None
          end
      | None => None
      end
  end
with scan_members (fuel : nat) (s : string) : option string :=
  match fuel with
  | O => None
  | S fuel' =>
      match skip_ws s with
      | String q r =>
          if Ascii.eqb q dquote then
            match scan_string_body r with
            | Some r1 =>
                match skip_ws r1 with
                | String c r2 =>
                    if Ascii.eqb c ":" then
                      match scan_value fuel' r2 with
                      | Some r3 =>
                          match skip_ws r3 with
                          | String b r4 =>
                              if Ascii.eqb b "," then scan_members fuel' r4
                              else if Ascii.eqb b "}" then Some r4
                              else None
                          | EmptyString => None
                          end
                      | None => None
                      end
                    else None
                | EmptyString => None
                end
            | None => None
            end
          else None
      | EmptyString => None
      end
  end.

(** [valid_json text]: the text is one JSON value, surrounded by optional
    white space, and nothing else.  When it is [false], [JSON.parse text]
    throws; the fuel is more than any text needs. *)
Definition valid_json (text : string) : bool :=
  match scan_value (2 * String.length text + 2) text with
  | Some r =>
      match skip_ws r with
      | EmptyString => true
      | String _ _ => false
      end
  | None => false
  end.

(** A text the model settles: it is not JSON, or [JSON_parse] analyses
    it. *)
Definition modelled_text (text : string) : bool :=
  negb (valid_json text) ||
  match JSON_parse text with
  | Some _ => true
  | None => false
  end.

(** The number of nested parser calls a value costs. *)
Fixpoint json_size (v : json) : nat :=
  match v with
  | JArr l => S (list_sum (map (fun x => S (json_size x)) l))
  | JObj m => S (list_sum (map (fun kv => S (json_size (snd kv))) m))
  | _ => 1%nat
  end.

(** What may come after a printed value: the end of the text, or the comma
    or bracket that closes it. *)
Definition value_follow (r : string) : bool :=
  match r with
  | EmptyString => true
  | String a _ =>
      match N_of_ascii a with
      | 44%N | 93%N | 125%N => true
      | _ => false
      end
  end.

(** The first character of a printed value: no white space, no closing
    bracket. *)
Definition value_start (s : string) : bool :=
  match s with
  | EmptyString => false
  | String a _ =>
      negb (is_ws a) && negb (Ascii.eqb a "]") && negb (Ascii.eqb a "}")
  end.

(** A value is read back from its own text, whatever follows it, given
    fuel for its size. *)
Definition roundtrips (v : json) : Prop :=
  wf_json v = true ->
  forall fuel r, (json_size v <= fuel)%nat -> value_follow r = true ->
  parse_value fuel (JSON_stringify v +:+ r) = Some (v, r).

(** *** Coercions of the language *)

(** ToBoolean. *)
Definition truthy (v : json) : bool :=
  match v with
  | JNull => false
  | JBool b => b
  | JNum n => negb (n =? 0)
  | JStr s => nonempty s
  | JArr _ | JObj _ => true
  end.

(** ToString. *)
Fixpoint js_to_string (v : json) : string :=
  match v with
  | JNull => "null"
  | JBool true => "true"
  | JBool false => "false"
  | JNum n => print_int n
  | JStr s => s
  | JArr l =>
      join_commas
        (fun x => match x with JNull => EmptyString | _ => js_to_string x end) l
  | JObj _ => "[object Object]"
  end.

(** ToString of a value that may be [undefined] ([None]). *)
Definition to_string_or_undefined (x : option json) : string :=
  match x with
  | Some v => js_to_string v
  | None => "undefined"
  end.

(** The interpolation of a [localStorage.getItem] result in a template
    literal: [null] prints as the word null. *)
Definition interpolate_item (x : option string) : string :=
  match x with
  | Some s => s
  | None => "null"
  end.

(** The own enumerable properties an object spread copies, by kind of
    source value. *)
Fixpoint indexed (i : nat) (l : list json) : list (string * json) :=
  match l with
  | [] => []
  | x :: l' => (print_int (Z.of_nat i), x) :: indexed (S i) l'
  end.

Fixpoint string_chars (s : string) : list json :=
  match s with
  | EmptyString => []
  | String a r => JStr (str1 a) :: string_chars r
  end.

Definition own_props (v : json) : list (string * json) :=
  match v with
  | JObj m => m
  | JArr l => indexed 0 l
  | JStr s => indexed 0 (string_chars s)
  | JNull | JBool _ | JNum _ => []
  end.

(** The object literal [{ ...a, ...b }]. *)
Definition spread2 (a b : json) : list (string * json) :=
  obj_assign (obj_assign [] (own_props a)) (own_props b).

(* ===================================================================== *)
(** ** The browser: storage, effects, timers *)
(* ===================================================================== *)

Record JsError : Type := mkError { err_name : string; err_message : string }.

(** [new Error(msg)]. *)
Definition Error (msg : string) : JsError := mkError "Error" msg.
(** What [JSON.parse] throws; the message text is the engine's. *)
Definition SyntaxError : JsError := mkError "SyntaxError" "JSON.parse".
(** What a property read on [null] throws. *)
Definition TypeError : JsError := mkError "TypeError" "null has no properties".

(** How a call ends: with a value, or with a thrown error (for an async
    function: a fulfilled or a rejected promise). *)
Inductive Completion (A : Type) : Type :=
  | Normal (a : A)
  | Throw (e : JsError).
Arguments Normal {A} a.
Arguments Throw {A} e.

Inductive Body : Type :=
  | TextBody (text : string)
  | FormDataBody (fields : list (string * string)).

(** The second argument of [fetch] as the source builds it, with the URL.
    The headers are the object the source builds, its names as written. *)
Record Request : Type := mkRequest {
  req_url : string;
  req_method : option string;
  req_headers : gmap string string;
  req_body : option Body
}.

(** The [options] a caller hands to the gateway. *)
Record Options : Type := mkOptions {
  opt_method : option string;
  opt_headers : option (gmap string string);
  opt_body : option Body
}.

Definition no_options : Options := mkOptions None None None.

Record Response : Type := mkResponse { status : Z; body : string }.

(** [response.ok]. *)
Definition ok (r : Response) : bool := (200 <=? status r) && (status r <=? 299).

(** What awaiting [fetch] yields: a response of any status, or a rejection
    when no response arrives at all. *)
Inductive FetchOutcome : Type :=
  | Responded (r : Response)
  | NetworkFailure (e : JsError).

(** What the program does to the outside, in the order it does it. *)
Inductive Effect : Type :=
  | ConsoleError (msg : string) (detail : option JsError)
  | Dispatched (event : string)
  | Alert (msg : string)
  | LocationHref (href : string)
  | Fetch (req : Request).

(** The callbacks the source hands to [setTimeout]: only the one of
    [logout]. *)
Inductive TimerCallback : Type :=
  | ResetLoggingOut.

(** The state of the [App] component. *)
Record AuthState : Type := mkAuthState {
  isLoggedIn : bool;
  user : json;
  isLoading : bool
}.

(** The tri-state session status the state above encodes. *)
Inductive SessionStatus : Type :=
  | Loading
  | Authenticated (identity : json)
  | Anonymous.

Definition status_of (a : AuthState) : SessionStatus :=
  if isLoading a then Loading
  else if isLoggedIn a then Authenticated (user a)
  else Anonymous.

(** One tab: the persisted store, the module variable [isLoggingOut] of
    api.js, the state of [App] when it is mounted (and so listens to
    authChange), the clock in milliseconds with the pending timers, and the
    effects so far. *)
Record World : Type := mkWorld {
  localStorage : gmap string string;
  isLoggingOut : bool;
  appState : option AuthState;
  clock : nat;
  timers : list (nat * TimerCallback);
  effects : list Effect
}.

Definition with_storage (f : gmap string string -> gmap string string)
  (w : World) : World :=
  mkWorld (f (localStorage w)) (isLoggingOut w) (appState w) (clock w) (timers w)
    (effects w).

Definition with_flag (b : bool) (w : World) : World :=
  mkWorld (localStorage w) b (appState w) (clock w) (timers w) (effects w).

Definition with_app (a : option AuthState) (w : World) : World :=
  mkWorld (localStorage w) (isLoggingOut w) a (clock w) (timers w) (effects w).

Definition with_timers (t : nat) (ts : list (nat * TimerCallback))
  (w : World) : World :=
  mkWorld (localStorage w) (isLoggingOut w) (appState w) t ts (effects w).

Definition emit (e : Effect) (w : World) : World :=
  mkWorld (localStorage w) (isLoggingOut w) (appState w) (clock w) (timers w)
    (effects w ++ [e]).

(** *** Programs over the world *)

Definition JS (A : Type) : Type := World -> World * Completion A.

Definition ret {A} (a : A) : JS A := fun w => (w, Normal a).
Definition throw {A} (e : JsError) : JS A := fun w => (w, Throw e).
Definition bind {A B} (m : JS A) (k : A -> JS B) : JS B :=
  fun w =>
    match m w with
    | (w', Normal a) => k a w'
    | (w', Throw e) => (w', Throw e)
    end.
(** [try { m } catch (error) { h error }]. *)
Definition try_catch {A} (m : JS A) (h : JsError -> JS A) : JS A :=
  fun w =>
    match m w with
    | (w', Normal a) => (w', Normal a)
    | (w', Throw e) => h e w'
    end.
Definition effect (f : World -> World) : JS unit := fun w => (f w, Normal tt).
Definition read {A} (f : World -> A) : JS A := fun w => (w, Normal (f w)).
Definition when (c : bool) (m : JS unit) : JS unit := if c then m else ret tt.

Notation "'let*' x ':=' m 'in' k" := (bind m (fun x => k))
  (at level 10, x name, m at level 100, k at level 200).
Notation "'run' m 'then' k" := (bind m (fun _ => k))
  (at level 10, m at level 100, k at level 200).

Definition exec {A} (m : JS A) (w : World) : World := fst (m w).
Definition result {A} (m : JS A) (w : World) : Completion A := snd (m w).

(** *** Platform calls *)

Definition getItem (k : string) : JS (option string) :=
  read (fun w => localStorage w !! k).
Definition setItem (k v : string) : JS unit :=
  effect (with_storage (insert k v)).
Definition removeItem (k : string) : JS unit :=
  effect (with_storage (delete k)).
Definition console_error (msg : string) (detail : option JsError) : JS unit :=
  effect (emit (ConsoleError msg detail)).
Definition alert (msg : string) : JS unit := effect (emit (Alert msg)).
(** [window.location.href = href]: the assignment is recorded; the page
    load it starts, which ends the script state of the document, is outside
    the model, which follows one document for as long as it lives. *)
Definition set_location_href (href : string) : JS unit :=
  effect (emit (LocationHref href)).
Definition setTimeout (cb : TimerCallback) (delay : nat) : JS unit :=
  effect (fun w => with_timers (clock w) (timers w ++ [(clock w + delay, cb)%nat]) w).
Definition setAuthState (a : AuthState) : JS unit := effect (with_app (Some a)).

(** [JSON.parse] as a call that may throw. *)
Definition JSON_parse_js (text : string) : JS json :=
  match JSON_parse text with
  | Some v => ret v
  | None => throw SyntaxError
  end.

(** [v.name] for a name that is no built-in property: [undefined] ([None])
    on a primitive or an array, a TypeError on [null]. *)
Definition get_member (v : json) (name : string) : JS (option json) :=
  match v with
  | JNull => throw TypeError
  | JObj m => ret (obj_get name m)
  | _ => ret None
  end.

(** A truthy [getItem] result: present and not empty. *)
Definition truthy_item (x : option string) : bool :=
  match x with
  | Some s => nonempty s
  | None => false
  end.

(** Running a timer callback. *)
Definition run_callback (cb : TimerCallback) (w : World) : World :=
  match cb with
  | ResetLoggingOut => with_flag false w
  end.

(** Time passes: the clock moves on by [dt] ms, and every timer that is due
    by then has run and is gone. *)
Definition advance (dt : nat) (w : World) : World :=
  let t := (clock w + dt)%nat in
  let due := List.filter (fun p => (fst p <=? t)%nat) (timers w) in
  let later := List.filter (fun p => negb (fst p <=? t)%nat) (timers w) in
  fold_left (fun w' p => run_callback (snd p) w') due (with_timers t later w).

(* ===================================================================== *)
(** ** App.jsx: the derivation of the session status *)
(* ===================================================================== *)

(** The state [useState] starts from. *)
Definition initialAuthState : AuthState := mkAuthState false JNull true.

(** [syncAuthState], the body of the effect of [App]. *)
Definition syncAuthState : JS unit :=
  let* token := getItem "token" in
  let* userStr := getItem "user" in
  if truthy_item token && truthy_item userStr then
    try_catch
      (let* user := JSON_parse_js (interpolate_item userStr) in
       setAuthState (mkAuthState true user false))
      (fun e =>
         run console_error "Failed to parse user data:" (Some e) then
         run removeItem "token" then
         run removeItem "user" then
         setAuthState (mkAuthState false JNull false))
  else
    setAuthState (mkAuthState false JNull false).

(** Mounting [App]: the initial state, then the first derivation; from then
    on [handleAuthChange] listens to authChange. *)
Definition App_mount : JS unit :=
  run setAuthState initialAuthState then syncAuthState.

(** The status a world shows: [Loading] also before [App] is mounted. *)
Definition session_status (w : World) : SessionStatus :=
  match appState w with
  | Some a => status_of a
  | None => Loading
  end.

(* ===================================================================== *)
(** ** services/api.js *)
(* ===================================================================== *)

Definition BASE : string := "http://127.0.0.1:8000".

(** [window.dispatchEvent(new Event('authChange'))]: the event goes out, and
    the listener of a mounted [App] runs before the call returns. *)
Definition dispatchAuthChange : JS unit :=
  run effect (emit (Dispatched "authChange")) then
  let* a := read appState in
  match a with
  | Some _ => syncAuthState
  | None => ret tt
  end.

Definition getToken : JS (option string) := getItem "token".

(** *** The gateway *)

Definition msg_expired : string := "Your session has expired. Please log in again.".
Definition msg_outdated : string := "Your session is outdated. Please log in again.".

Definition AuthenticationFailed : JsError := Error "Authentication failed".
Definition AuthorizationFailed : JsError := Error "Access forbidden".

(** [authFetch] up to its [await]: the request it hands to [fetch]. *)
Definition authFetch_request (url : string) (options : Options) : JS Request :=
  let* token := getToken in
  let headers : gmap string string :=
    default ∅ (opt_headers options) ∪ {[ "Content-Type" := "application/json" ]} in
  let headers :=
    if truthy_item token
    then <[ "Authorization" := "Bearer " +:+ interpolate_item token ]> headers
    else headers in
  let req :=
    mkRequest (BASE +:+ url) (opt_method options) headers (opt_body options) in
  run effect (emit (Fetch req)) then
  ret req.

(** What [authFetch] does inside its [try] once [fetch] has settled. *)
Definition authFetch_settled (o : FetchOutcome) : JS Response :=
  match o with
  | NetworkFailure e => throw e
  | Responded response =>
      if status response =? 401 then
        run console_error "Authentication failed - clearing session" None then
        run removeItem "token" then
        run removeItem "user" then
        run dispatchAuthChange then
        let* loggingOut := read isLoggingOut in
        run when (negb loggingOut) (alert msg_expired) then
        run set_location_href "/login" then
        throw AuthenticationFailed
      else if status response =? 403 then
        run console_error
          "Access forbidden - your session may be outdated. Please log in again."
          None then
        run removeItem "token" then
        run removeItem "user" then
        run dispatchAuthChange then
        let* loggingOut := read isLoggingOut in
        run when (negb loggingOut) (alert msg_outdated) then
        run set_location_href "/login" then
        throw AuthorizationFailed
      else ret response
  end.

(** The [catch] of both gateway functions: log and rethrow. *)
Definition log_and_rethrow {A} (error : JsError) : JS A :=
  run console_error "API request failed:" (Some error) then
  throw error.

(** [authFetch] from its [await] on. *)
Definition authFetch_resume (o : FetchOutcome) : JS Response :=
  try_catch (authFetch_settled o) log_and_rethrow.

(** [authFetch(url, options)], the network answering with [o]. *)
Definition authFetch (url : string) (options : Options) (o : FetchOutcome)
  : JS Response :=
  run authFetch_request url options then authFetch_resume o.

(** [authFetchFormData] up to its [await]. *)
Definition authFetchFormData_request (url : string)
  (formData : list (string * string)) : JS Request :=
  let* token := getToken in
  let headers : gmap string string := ∅ in
  let headers :=
    if truthy_item token
    then <[ "Authorization" := "Bearer " +:+ interpolate_item token ]> headers
    else headers in
  let req :=
    mkRequest (BASE +:+ url) (Some "POST") headers
      (Some (FormDataBody formData)) in
  run effect (emit (Fetch req)) then
  ret req.

Definition authFetchFormData_settled (o : FetchOutcome) : JS Response :=
  match o with
  | NetworkFailure e => throw e
  | Responded response =>
      if status response =? 401 then
        run removeItem "token" then
        run removeItem "user" then
        run dispatchAuthChange then
        let* loggingOut := read isLoggingOut in
        run when (negb loggingOut) (alert msg_expired) then
        run set_location_href "/login" then
        throw AuthenticationFailed
      else ret response
  end.

Definition authFetchFormData_resume (o : FetchOutcome) : JS Response :=
  try_catch (authFetchFormData_settled o) log_and_rethrow.

Definition authFetchFormData (url : string)
  (formData : list (string * string)) (o : FetchOutcome) : JS Response :=
  run authFetchFormData_request url formData then authFetchFormData_resume o.

(** *** Auth endpoints *)

Definition json_headers : gmap string string :=
  {[ "Content-Type" := "application/json" ]}.

Definition login_request (email password : string) : JS Request :=
  let req :=
    mkRequest (BASE +:+ "/api/v1/auth/login") (Some "POST") json_headers
      (Some (TextBody (JSON_stringify
         (JObj [("email", JStr email); ("password", JStr password)])))) in
  run effect (emit (Fetch req)) then
  ret req.

(** [login] from its [await] on; [res.json()] parses the body. *)
Definition login_resume (o : FetchOutcome) : JS Response :=
  match o with
  | NetworkFailure e => throw e
  | Responded res =>
      run
        (if ok res then
           let* data := JSON_parse_js (body res) in
           let* token := get_member data "token" in
           run setItem "token" (to_string_or_undefined token) then
           let* user := get_member data "user" in
           run setItem "user"
             (match user with
              | Some u => JSON_stringify u
              | None => "undefined"
              end) then
           dispatchAuthChange
         else ret tt) then
      ret res
  end.

Definition login (email password : string) (o : FetchOutcome) : JS Response :=
  run login_request email password then login_resume o.

(** *** Investigator management: plain [fetch] *)

Definition bearer_headers (token : option string) : gmap string string :=
  <[ "Authorization" := "Bearer " +:+ interpolate_item token ]> json_headers.

(** [return fetch(...)]: the caller gets what [fetch] gives. *)
Definition plain_fetch (req : Request) (o : FetchOutcome) : JS Response :=
  run effect (emit (Fetch req)) then
  match o with
  | Responded r => ret r
  | NetworkFailure e => throw e
  end.

Definition getInvestigators (o : FetchOutcome) : JS Response :=
  let* token := getItem "token" in
  plain_fetch
    (mkRequest (BASE +:+ "/api/v1/admin/investigators") None
       (bearer_headers token) None) o.

Definition getInvestigatorDetails (investigatorId : json) (o : FetchOutcome)
  : JS Response :=
  let* token := getItem "token" in
  plain_fetch
    (mkRequest
       (BASE +:+ "/api//v1/admin/investigators/" +:+ js_to_string investigatorId)
       None (bearer_headers token) None) o.

Definition updateInvestigator (investigatorId data : json) (o : FetchOutcome)
  : JS Response :=
  let* token := getItem "token" in
  plain_fetch
    (mkRequest
       (BASE +:+ "/api//v1/admin/investigators/" +:+ js_to_string investigatorId)
       (Some "PUT") (bearer_headers token)
       (Some (TextBody (JSON_stringify data)))) o.

Definition updateInvestigatorAvailability (isAvailable : json)
  (o : FetchOutcome) : JS Response :=
  let* token := getToken in
  plain_fetch
    (mkRequest (BASE +:+ "/api/v1/investigator/availability") (Some "PUT")
       (bearer_headers token)
       (Some (TextBody (JSON_stringify (JObj [("is_available", isAvailable)])))))
    o.

(** *** Utility functions *)

Definition isAuthenticated : JS bool :=
  let* token := getToken in
  ret (truthy_item token).

(** [getCurrentUser]; [JNull] is the [null] it returns when nothing usable
    is stored. *)
Definition getCurrentUser : JS json :=
  let* userStr := getItem "user" in
  if truthy_item userStr then JSON_parse_js (interpolate_item userStr)
  else ret JNull.

Definition logout : JS unit :=
  run effect (with_flag true) then
  run removeItem "token" then
  run removeItem "user" then
  run dispatchAuthChange then
  run set_location_href "/login" then
  setTimeout ResetLoggingOut 1000.

Definition updateStoredUser (userData : json) : JS unit :=
  let* currentUser := getCurrentUser in
  if truthy currentUser then
    let updatedUser := JObj (spread2 currentUser userData) in
    run setItem "user" (JSON_stringify updatedUser) then
    dispatchAuthChange
  else ret tt.

(* ===================================================================== *)
(** ** Vocabulary of the statements *)
(* ===================================================================== *)

(** The user-facing notices among some effects. *)
Definition alerts (es : list Effect) : list string :=
  omap (fun e => match e with Alert msg => Some msg | _ => None end) es.

(** What a step added to the effects. *)
Definition new_effects (w w' : World) : list Effect :=
  drop (length (effects w)) (effects w').

(** The store after [removeItem('token'); removeItem('user')]. *)
Definition clear_session (m : gmap string string) : gmap string string :=
  delete "user" (delete "token" m).

Definition anonymousState : AuthState := mkAuthState false JNull false.

(** What the listener of a mounted [App] leaves behind when it finds no
    token. *)
Definition seen_anonymous (w : World) : World :=
  match appState w with
  | Some _ => with_app (Some anonymousState) w
  | None => w
  end.

(** The failure path common to both gateway functions, from the clearing of
    the store to the redirect. *)
Definition after_auth_failure (notice : string) (w : World) : World :=
  let w1 := seen_anonymous (emit (Dispatched "authChange") (with_storage clear_session w)) in
  let w2 := if isLoggingOut w then w1 else emit (Alert notice) w1 in
  emit (LocationHref "/login") w2.

(** What a caller of plain [fetch] receives. *)
Definition passthrough (o : FetchOutcome) : Completion Response :=
  match o with
  | Responded r => Normal r
  | NetworkFailure e => Throw e
  end.

(** A call that goes around the gateway: one request, carrying the stored
    token interpolated as it is, and whatever [fetch] yields handed to the
    caller with the tab otherwise untouched. *)
Definition bypasses_gateway (call : JS Response) (o : FetchOutcome)
  (w : World) : Prop :=
  exists req,
    call w = (emit (Fetch req) w, passthrough o) /\
    req_headers req !! "Authorization"
      = Some ("Bearer " +:+ interpolate_item (localStorage w !! "token")) /\
    (localStorage w !! "token" = None ->
     req_headers req !! "Authorization" = Some "Bearer null") /\
    (forall res, o = Responded res -> result call w = Normal res) /\
    new_effects w (exec call w) = [Fetch req] /\
    localStorage (exec call w) = localStorage w /\
    isLoggingOut (exec call w) = isLoggingOut w /\
    appState (exec call w) = appState w.



(** *** The claims that fail, as the specification words them *)



(** Bearer rule: the stored token is attached, and without a stored token
    the request carries no Authorization header. *)
Definition bearer_rule_as_specified (url : string) (options : Options)
  (w : World) : Prop :=
  exists req,
    authFetch_request url options w = (emit (Fetch req) w, Normal req) /\
    match localStorage w !! "token" with
    | Some T => req_headers req !! "Authorization" = Some ("Bearer " +:+ T)
    | None => req_headers req !! "Authorization" = None
    end.

(** Content-type rule: JSON on every [authFetch] request, whatever the
    options. *)
Definition content_type_rule_as_specified (url : string) (options : Options)
  (w : World) : Prop :=
  exists req,
    authFetch_request url options w = (emit (Fetch req) w, Normal req) /\
    req_headers req !! "Content-Type" = Some "application/json".

(** *** Concrete worlds and inputs *)

(** A fresh tab: nothing stored, [App] not yet mounted. *)
Definition fresh_world : World := mkWorld ∅ false None 0 [] [].

Definition sample_identity : json :=
  JObj [("id", JNum 7); ("email", JStr "ada@lab.org");
        ("role", JStr "investigator"); ("is_approved", JBool true)].

(** A signed-in tab with [App] mounted. *)
Definition signed_in_world : World :=
  mkWorld
    (<[ "user" := JSON_stringify sample_identity ]> {[ "token" := "tok123" ]})
    false (Some (mkAuthState true sample_identity false)) 0 [] [].




(** An empty token is stored. *)
Definition empty_token_world : World :=
  mkWorld {[ "token" := EmptyString ]} false None 0 [] [].

(** The stored identity is not JSON. *)
Definition malformed_world : World :=
  mkWorld (<[ "user" := "{not json" ]> {[ "token" := "tok123" ]})
    false None 0 [] [].

(** A caller that brings its own headers. *)
Definition options_with_headers : Options :=
  mkOptions (Some "POST")
    (Some (<[ "Authorization" := "Basic Zm9v" ]> {[ "Content-Type" := "text/plain" ]}))
    (Some (TextBody "hello")).

Definition unauthorized : Response := mkResponse 401 "{}".
Definition forbidden : Response := mkResponse 403 "{}".

Definition login_body (T : string) (I : json) : string :=
  JSON_stringify (JObj [("token", JStr T); ("user", I)]).

(* ===================================================================== *)
(** ** services/api.js: the rest of the module *)
(* ===================================================================== *)

(** ToBoolean of a value that may be [undefined]. *)
Definition truthy_opt (x : option json) : bool :=
  match x with
  | Some v => truthy v
  | None => false
  end.

(** [x === 'text'] for a value that may be [undefined]. *)
Definition is_string (text : string) (x : option json) : bool :=
  match x with
  | Some (JStr s) => String.eqb s text
  | _ => false
  end.

(** [user && user.role === role]: the falsy [user] itself, or the
    comparison. *)
Definition has_role (role : string) : JS json :=
  let* user := getCurrentUser in
  if truthy user then
    let* r := get_member user "role" in
    ret (JBool (is_string role r))
  else ret user.

Definition isAdmin : JS json := has_role "admin".
Definition isInvestigator : JS json := has_role "investigator".

(** [handleApiResponse(response)].  The reason phrase of a response is no
    field of [Response]; it comes as the function [statusText]. *)
Definition handleApiResponse (statusText : Response -> string)
  (response : Response) : JS json :=
  if negb (ok response) then
    let* errorMessage :=
      try_catch
        (let* errorData := JSON_parse_js (body response) in
         let* detail := get_member errorData "detail" in
         if truthy_opt detail then ret (default JNull detail)
         else
           let* message := get_member errorData "message" in
           ret (if truthy_opt message
                then default JNull message
                else JStr "An error occurred"))
        (fun e =>
           ret (JStr ("HTTP " +:+ print_int (status response) +:+ ": "
                        +:+ statusText response))) in
    throw (Error (js_to_string errorMessage))
  else JSON_parse_js (body response).

(** [apiCall(url, options)], the network answering with [o]. *)
Definition apiCall (statusText : Response -> string) (url : string)
  (options : Options) (o : FetchOutcome) : JS json :=
  try_catch
    (let* response := authFetch url options o in
     handleApiResponse statusText response)
    (fun error =>
       run console_error "API call failed:" (Some error) then
       throw error).

(** *** Endpoints that go through the gateway *)

Definition json_body (method : string) (payload : json) : Options :=
  mkOptions (Some method) None (Some (TextBody (JSON_stringify payload))).
Definition bare (method : string) : Options := mkOptions (Some method) None None.

Definition createCase (payload : json) :=
  authFetch "/api/v1/cases" (json_body "POST" payload).
Definition updateCase (caseId updates : json) :=
  authFetch ("/api/v1/cases/" +:+ js_to_string caseId) (json_body "PUT" updates).
Definition getCase (caseId : json) :=
  authFetch ("/api/v1/cases/" +:+ js_to_string caseId) no_options.
Definition deleteCase (caseId : json) :=
  authFetch ("/api/v1/cases/" +:+ js_to_string caseId) (bare "DELETE").
Definition acceptCase (caseId acceptanceData : json) :=
  authFetch ("/api/v1/cases/" +:+ js_to_string caseId +:+ "/accept")
    (json_body "POST" acceptanceData).
(** The file of an upload is opaque: a string stands for it. *)
Definition uploadEvidence (caseId : json) (file : string) :=
  authFetchFormData ("/api/v1/cases/" +:+ js_to_string caseId +:+ "/evidence")
    [("file", file)].
Definition deleteEvidence (evidenceId : json) :=
  authFetch ("/api/v1/evidence/" +:+ js_to_string evidenceId) (bare "DELETE").

Definition getWitnessStatements (caseId : json) :=
  authFetch ("/api/v1/cases/" +:+ js_to_string caseId +:+ "/witness-statements")
    no_options.
Definition addWitnessStatement (caseId witnessData : json) :=
  authFetch ("/api/v1/cases/" +:+ js_to_string caseId +:+ "/witness-statements")
    (json_body "POST" witnessData).
Definition updateWitnessStatement (statementId witnessData : json) :=
  authFetch ("/api/v1/witness-statements/" +:+ js_to_string statementId)
    (json_body "PUT" witnessData).
Definition deleteWitnessStatement (statementId : json) :=
  authFetch ("/api/v1/witness-statements/" +:+ js_to_string statementId)
    (bare "DELETE").

Definition getDetectionResult (resultId : json) :=
  authFetch ("/api/v1/object_detection_results/" +:+ js_to_string resultId)
    no_options.
Definition deleteDetectionResult (resultId : json) :=
  authFetch ("/api/v1/object_detection_results/" +:+ js_to_string resultId)
    (bare "DELETE").
Definition getModelsInfo := authFetch "/api/v1/models/info" no_options.
Definition create3d (caseId : json) :=
  authFetch ("/api/v1/cases/" +:+ js_to_string caseId +:+ "/create_3d")
    (bare "POST").

Definition getProfile := authFetch "/api/v1/settings/profile" no_options.
Definition updateProfile (profileData : json) :=
  authFetch "/api/v1/settings/profile" (json_body "PUT" profileData).
Definition uploadProfilePicture (file : string) :=
  authFetchFormData "/api/v1/settings/profile/picture" [("file", file)].
Definition changePassword (passwordData : json) :=
  authFetch "/api/v1/settings/password" (json_body "POST" passwordData).
Definition setup2FA (twoFAData : json) :=
  authFetch "/api/v1/settings/2fa/setup" (json_body "POST" twoFAData).
Definition verify2FA (tokenData : json) :=
  authFetch "/api/v1/settings/2fa/verify" (json_body "POST" tokenData).
Definition getApplicationSettings :=
  authFetch "/api/v1/settings/application" no_options.
Definition updateApplicationSettings (settings : json) :=
  authFetch "/api/v1/settings/application" (json_body "PUT" settings).
Definition getCaseManagementSettings :=
  authFetch "/api/v1/settings/case-management" no_options.
Definition updateCaseManagementSettings (settings : json) :=
  authFetch "/api/v1/settings/case-management" (json_body "PUT" settings).
Definition getAllSettings := authFetch "/api/v1/settings/all" no_options.
Definition getNotificationPreferences :=
  authFetch "/api/v1/settings/notifications" no_options.
Definition updateNotificationPreferences (preferences : json) :=
  authFetch "/api/v1/settings/notifications" (json_body "PUT" preferences).

Definition getAdminDashboardStats :=
  authFetch "/api/v1/admin/dashboard/stats" no_options.
Definition getContactRequest (requestId : json) :=
  authFetch ("/api/v1/admin/contact-requests/" +:+ js_to_string requestId)
    no_options.
Definition updateContactRequest (requestId updateData : json) :=
  authFetch ("/api/v1/admin/contact-requests/" +:+ js_to_string requestId)
    (json_body "PUT" updateData).
Definition convertContactRequestToCase (requestId conversionData : json) :=
  authFetch
    ("/api/v1/admin/contact-requests/" +:+ js_to_string requestId
       +:+ "/convert-to-case")
    (json_body "POST" conversionData).
Definition deleteContactRequest (requestId : json) :=
  authFetch ("/api/v1/admin/contact-requests/" +:+ js_to_string requestId)
    (bare "DELETE").

(** *** Endpoints that call [fetch] without a token *)

Definition signup (userData : json) (o : FetchOutcome) : JS Response :=
  plain_fetch
    (mkRequest (BASE +:+ "/api/v1/auth/signup") (Some "POST") json_headers
       (Some (TextBody (JSON_stringify userData)))) o.

Definition submitContactRequest (formData : list (string * string))
  (o : FetchOutcome) : JS Response :=
  plain_fetch
    (mkRequest (BASE +:+ "/api/v1/contact/submit") (Some "POST") ∅
       (Some (FormDataBody formData))) o.

(* ===================================================================== *)
(** ** App.jsx: listeners and route guards *)
(* ===================================================================== *)

(** [handleStorageChange(e)], by [e.key]; [None] is the [null] key of
    [localStorage.clear()]. *)
Definition handleStorageChange (key : option string) : JS unit :=
  match key with
  | None => syncAuthState
  | Some k =>
      if String.eqb k "token" || String.eqb k "user" then syncAuthState
      else ret tt
  end.

(** [v?.name] for a name that is no built-in property. *)
Definition optional_member (v : json) (name : string) : option json :=
  match v with
  | JObj m => obj_get name m
  | _ => None
  end.

(** What a guard or a route element renders. *)
Inductive Rendered : Type :=
  | Children
  | NavigateTo (path : string).

(** [allowedRoles.includes(x)] on an array of strings. *)
Definition includes (roles : list string) (x : option json) : bool :=
  existsb (fun r => is_string r x) roles.

(** [const isAdmin = authState.user?.role === "admin"]. *)
Definition isAdmin_of (authState : AuthState) : bool :=
  is_string "admin" (optional_member (user authState) "role").

(** Where a signed-in user of the wrong role is sent. *)
Definition role_home (authState : AuthState) : Rendered :=
  if isAdmin_of authState then NavigateTo "/dashboard/admin"
  else NavigateTo "/dashboard/home".

(** [ProtectedRoute], with [allowedRoles = null] as [None]. *)
Definition ProtectedRoute (authState : AuthState)
  (allowedRoles : option (list string)) : Rendered :=
  if negb (isLoggedIn authState) then NavigateTo "/login"
  else
    match allowedRoles with
    | Some roles =>
        if negb (includes roles (optional_member (user authState) "role"))
        then role_home authState
        else Children
    | None => Children
    end.

(** [ProtectedRouteWithApproval] of the later [App]: it removes the
    entries of an investigator who is not approved, while rendering. *)
Definition ProtectedRouteWithApproval (authState : AuthState)
  (allowedRoles : option (list string)) : JS Rendered :=
  if negb (isLoggedIn authState) then ret (NavigateTo "/login")
  else
    let role := optional_member (user authState) "role" in
    let approved := optional_member (user authState) "is_approved" in
    let role_fails :=
      match allowedRoles with
      | Some roles => negb (includes roles role)
      | None => false
      end in
    if role_fails then ret (role_home authState)
    else if is_string "investigator" role
            && match approved with Some (JBool false) => true | _ => false end
    then
      run removeItem "token" then
      run removeItem "user" then
      ret (NavigateTo "/login")
    else if is_string "investigator" role
            && match approved with Some JNull => true | _ => false end
    then
      run removeItem "token" then
      run removeItem "user" then
      ret (NavigateTo "/login")
    else ret Children.

(** The element of the /login and /signup routes. *)
Definition public_entry (authState : AuthState) : Rendered :=
  if isLoggedIn authState then role_home authState else Children.

(** The guards of the two areas. *)
Definition investigator_area (authState : AuthState) : Rendered :=
  ProtectedRoute authState (Some ["investigator"]).
Definition admin_area (authState : AuthState) : Rendered :=
  ProtectedRoute authState (Some ["admin"]).

(** The guard of the route a path belongs to, for the two paths the guards
    redirect to. *)
Definition guard_at (path : string) (authState : AuthState) : Rendered :=
  if String.eqb path "/dashboard/admin" then admin_area authState
  else if String.eqb path "/dashboard/home" then investigator_area authState
  else if String.eqb path "/login" then public_entry authState
  else Children.

(* ===================================================================== *)
(** ** The layouts: two ways to log out *)
(* ===================================================================== *)

(** [handleLogout] of AdminLayout.jsx, which dispatches authChange with the
    very statement of [dispatchAuthChange]; the value is the route handed to
    [navigate]. *)
Definition AdminLayout_handleLogout : JS string :=
  run removeItem "token" then
  run removeItem "user" then
  run dispatchAuthChange then
  ret "/login".

(** [handleLogout] of DashboardLayout.jsx. *)
Definition DashboardLayout_handleLogout : JS string :=
  run logout then
  ret "/login".

(* ===================================================================== *)
(** ** Histories of a tab *)
(* ===================================================================== *)

(** A write to the store that the listeners of this tab's [App] are not
    told about at once: by another tab of the same origin, or by code of
    this tab that does not dispatch authChange. *)
Inductive StorageOp : Type :=
  | RemoteSet (k v : string)
  | RemoteRemove (k : string)
  | RemoteClear.

Definition apply_op (op : StorageOp) (m : gmap string string)
  : gmap string string :=
  match op with
  | RemoteSet k v => <[ k := v ]> m
  | RemoteRemove k => delete k m
  | RemoteClear => ∅
  end.

(** The [key] of the storage event an operation raises in the other
    tabs. *)
Definition event_key (op : StorageOp) : option string :=
  match op with
  | RemoteSet k _ | RemoteRemove k => Some k
  | RemoteClear => None
  end.

(** A tab with the storage events that are on their way to it: the store is
    shared, so a write of another tab shows at once, while its event is
    delivered later, after whatever this tab runs in between. *)
Definition Tab : Type := World * list (option string).

(** What can happen in a tab, one step at a time.  A call through the
    gateway and [login] are two steps, the part before the [await] and the
    part after it, since anything else may run in between; the other calls
    run to their end.  Then: a logout from either layout, a profile update,
    a read, time passing, a write to the store made in another tab, the
    delivery of the oldest storage event, and a write to the store by code
    of this tab that dispatches nothing and raises no storage event here:
    [setItem('user', ...)] of DashboardHome.jsx, [removeItem('token')] of
    CaseDetail.jsx, the two [removeItem] of [ProtectedRouteWithApproval]. *)
Inductive Action : Type :=
  | ActLoginRequest (email password : string)
  | ActLoginResponse (o : FetchOutcome)
  | ActRequest (url : string) (options : Options)
  | ActResponse (o : FetchOutcome)
  | ActUploadRequest (url : string) (formData : list (string * string))
  | ActUploadResponse (o : FetchOutcome)
  | ActGetInvestigators (o : FetchOutcome)
  | ActUpdateAvailability (isAvailable : json) (o : FetchOutcome)
  | ActUpdateStoredUser (userData : json)
  | ActRead
  | ActLogout
  | ActAdminLogout
  | ActWait (dt : nat)
  | ActRemote (op : StorageOp)
  | ActStorageEvent
  | ActWrite (op : StorageOp).

(** The listener of a mounted [App] receives a storage event. *)
Definition deliver (key : option string) : JS unit :=
  let* a := read appState in
  match a with
  | Some _ => handleStorageChange key
  | None => ret tt
  end.

Definition step (a : Action) (t : Tab) : Tab :=
  let (w, pending) := t in
  match a with
  | ActLoginRequest email password => (exec (login_request email password) w, pending)
  | ActLoginResponse o => (exec (login_resume o) w, pending)
  | ActRequest url options => (exec (authFetch_request url options) w, pending)
  | ActResponse o => (exec (authFetch_resume o) w, pending)
  | ActUploadRequest url formData =>
      (exec (authFetchFormData_request url formData) w, pending)
  | ActUploadResponse o => (exec (authFetchFormData_resume o) w, pending)
  | ActGetInvestigators o => (exec (getInvestigators o) w, pending)
  | ActUpdateAvailability isAvailable o =>
      (exec (updateInvestigatorAvailability isAvailable o) w, pending)
  | ActUpdateStoredUser userData => (exec (updateStoredUser userData) w, pending)
  | ActRead => (exec getCurrentUser w, pending)
  | ActLogout => (exec DashboardLayout_handleLogout w, pending)
  | ActAdminLogout => (exec AdminLayout_handleLogout w, pending)
  | ActWait dt => (advance dt w, pending)
  | ActRemote op => (with_storage (apply_op op) w, pending ++ [event_key op])
  | ActStorageEvent =>
      match pending with
      | [] => (w, [])
      | key :: rest => (exec (deliver key) w, rest)
      end
  | ActWrite op => (with_storage (apply_op op) w, pending)
  end.

Definition run_history (actions : list Action) (t : Tab) : Tab :=
  fold_left (fun t' a => step a t') actions t.

(** The keys the listener of [App] reacts to. *)
Definition relevant (key : option string) : bool :=
  match key with
  | None => true
  | Some k => String.eqb k "token" || String.eqb k "user"
  end.

(** A step dispatched authChange. *)
Definition dispatches (w w' : World) : bool :=
  existsb (fun e => match e with Dispatched _ => true | _ => false end)
    (new_effects w w').

(** Whether [App] may be behind the store: it is once a write to the token
    or the identity was made that it was not told about, and no longer is
    once a step dispatches authChange or delivers a storage event for the
    token, the identity or a cleared store. *)
Definition stale_step (a : Action) (t : Tab) (stale : bool) : bool :=
  match a with
  | ActRemote op | ActWrite op => stale || relevant (event_key op)
  | ActStorageEvent =>
      match t.2 with
      | key :: _ => stale && negb (relevant key)
      | [] => stale
      end
  | _ => stale && negb (dispatches t.1 (step a t).1)
  end.

Fixpoint stale_after (actions : list Action) (t : Tab) (stale : bool) : bool :=
  match actions with
  | [] => stale
  | a :: rest => stale_after rest (step a t) (stale_step a t stale)
  end.

(** The steps whose texts the model settles: the body of an ok login
    response and an identity written by other code are not JSON or are
    analysed by [JSON_parse], and a profile update is a value a program can
    build. *)
Definition modelled_action (a : Action) : bool :=
  match a with
  | ActLoginResponse (Responded res) => negb (ok res) || modelled_text (body res)
  | ActUpdateStoredUser userData => wf_json userData
  | ActRemote (RemoteSet k v) | ActWrite (RemoteSet k v) =>
      negb (String.eqb k "user") || modelled_text v
  | _ => true
  end.

Definition modelled_store (m : gmap string string) : bool :=
  match m !! "user" with
  | Some u => modelled_text u
  | None => true
  end.

(** A pending reset is due within the timeout. *)
Definition reset_pending (w : World) : Prop :=
  exists d cb, In (d, cb) (timers w) /\ (d <= clock w + 1000)%nat.

(** What no gateway call touches, and the only two things it can do to the
    store. *)
Definition gateway_frame (w w' : World) : Prop :=
  isLoggingOut w' = isLoggingOut w /\
  timers w' = timers w /\ clock w' = clock w /\
  (localStorage w' = localStorage w \/
   localStorage w' = clear_session (localStorage w)) /\
  (appState w = None -> appState w' = None).

(** The text [HTTP status: reason] of a response. *)
Definition http_line (statusText : Response -> string) (response : Response)
  : string :=
  "HTTP " +:+ print_int (status response) +:+ ": " +:+ statusText response.

(** Responses and worlds for the examples. *)
Definition no_reason (r : Response) : string := EmptyString.
Definition validation_error : Response :=
  mkResponse 422
    (JSON_stringify
       (JObj [("detail", JStr "Title is required"); ("message", JStr "Bad request")])).
Definition gateway_html_error : Response := mkResponse 502 "<html>Bad Gateway</html>".
Definition case_list : Response :=
  mkResponse 200 (JSON_stringify (JArr [JObj [("id", JNum 1)]; JObj [("id", JNum 2)]])).

(** What every endpoint that goes through [authFetch] without headers of
    its own does: one request, with the JSON content type and the bearer
    token exactly when a token that is not empty is stored; a 401 and a 403
    end the session and reject the call. *)
Definition json_endpoint_contract (call : FetchOutcome -> JS Response) : Prop :=
  forall o w,
    (exists req rest,
       new_effects w (exec (call o) w) = Fetch req :: rest /\
       req_headers req !! "Content-Type" = Some "application/json" /\
       req_headers req !! "Authorization" =
         (if truthy_item (localStorage w !! "token")
          then Some ("Bearer " +:+ interpolate_item (localStorage w !! "token"))
          else None)) /\
    (forall res, o = Responded res -> status res = 401 ->
       result (call o) w = Throw AuthenticationFailed /\
       localStorage (exec (call o) w) = clear_session (localStorage w)) /\
    (forall res, o = Responded res -> status res = 403 ->
       result (call o) w = Throw AuthorizationFailed /\
       localStorage (exec (call o) w) = clear_session (localStorage w)).

(** What an upload does: one POST with the file as its only field, no
    content type, the bearer token when stored; a 401 ends the session, a
    403 comes back to the caller. *)
Definition upload_contract (file : string) (call : FetchOutcome -> JS Response)
  : Prop :=
  forall o w,
    (exists req rest,
       new_effects w (exec (call o) w) = Fetch req :: rest /\
       req_method req = Some "POST" /\
       req_body req = Some (FormDataBody [("file", file)]) /\
       req_headers req !! "Content-Type" = None /\
       req_headers req !! "Authorization" =
         (if truthy_item (localStorage w !! "token")
          then Some ("Bearer " +:+ interpolate_item (localStorage w !! "token"))
          else None)) /\
    (forall res, o = Responded res -> status res = 401 ->
       result (call o) w = Throw AuthenticationFailed /\
       localStorage (exec (call o) w) = clear_session (localStorage w)) /\
    (forall res, o = Responded res -> status res = 403 ->
       result (call o) w = Normal res /\
       localStorage (exec (call o) w) = localStorage w).

(** What a call without a token does: one request without Authorization
    header, whatever is stored, and the outcome of [fetch] handed on with the
    tab untouched. *)
Definition anonymous_call (call : FetchOutcome -> JS Response) : Prop :=
  forall o w,
    exists req,
      call o w = (emit (Fetch req) w, passthrough o) /\
      req_method req = Some "POST" /\
      req_headers req !! "Authorization" = None.

Definition login_rejected : Response :=
  mkResponse 401 (JSON_stringify (JObj [("detail", JStr "Invalid email or password")])).
Definition login_without_user : Response :=
  mkResponse 200 (JSON_stringify (JObj [("token", JStr "tok123")])).
Definition mounted_world : World := exec App_mount fresh_world.

(** Two worlds that show the same session: the same two entries and the
    same state of [App]. *)
Definition same_session (w w' : World) : Prop :=
  localStorage w' !! "token" = localStorage w !! "token" /\
  localStorage w' !! "user" = localStorage w !! "user" /\
  appState w' = appState w.

(** Two worlds with the same flag, timers and clock. *)
Definition same_timing (w w' : World) : Prop :=
  isLoggingOut w' = isLoggingOut w /\ timers w' = timers w /\ clock w' = clock w.

(** What the store says the session is. *)
Definition status_of_store (m : gmap string string) : option SessionStatus :=
  match m !! "token", m !! "user" with
  | Some t, Some u =>
      if nonempty t && nonempty u then
        match JSON_parse u with
        | Some v => Some (Authenticated v)
        | None => None
        end
      else Some Anonymous
  | _, _ => Some Anonymous
  end.

(** What a step that is neither a logout through [logout] nor the passing
    of time does: the flag, the timers and the clock stay, and in a tab with
    [App] mounted either the session entries and the state of [App] stay as
    well and nothing is dispatched, or the step ends with [App] showing
    what the store holds. *)
Definition settles (w w' : World) : Prop :=
  same_timing w w' /\
  (appState w <> None ->
   same_session w w' /\ dispatches w w' = false \/ exec syncAuthState w' = w').

(** An investigator whose account is rejected ([false]) or pending
    ([null]). *)
Definition unapproved (authState : AuthState) : bool :=
  is_string "investigator" (optional_member (user authState) "role")
  && match optional_member (user authState) "is_approved" with
     | Some (JBool false) | Some JNull => true
     | _ => false
     end.

Definition pending_investigator : AuthState :=
  mkAuthState true
    (JObj [("id", JNum 9); ("role", JStr "investigator"); ("is_approved", JNull)])
    false.

Definition busy_history : list Action :=
  [ActLoginRequest "ada@lab.org" "pw";
   ActLoginResponse (Responded (mkResponse 200 (login_body "tok123" sample_identity)));
   ActUpdateStoredUser (JObj [("is_available", JBool false)]);
   ActRequest "/api/v1/cases" no_options;
   ActLogout; ActWait 400; ActLogout;
   ActResponse (Responded (mkResponse 401 "Unauthorized"));
   ActWait 600;
   ActRemote (RemoteSet "token" "tok456"); ActRemote (RemoteSet "theme" "dark");
   ActStorageEvent; ActStorageEvent].

(** The same, then the [removeItem('token')] of CaseDetail.jsx, and a
    logout from the admin layout. *)
Definition silent_history : list Action :=
  busy_history ++ [ActWrite (RemoteRemove "token"); ActAdminLogout].

(* ===================================================================== *)
(** ** Facts: JSON *)
(* ===================================================================== *)

(** Induction on a value, with the hypothesis for every element of an
    array and every property of an object. *)
Lemma json_induction (P : json -> Prop) :
  P JNull ->
  (forall b, P (JBool b)) ->
  (forall n, P (JNum n)) ->
  (forall s, P (JStr s)) ->
  (forall l, Forall P l -> P (JArr l)) ->
  (forall m, Forall (fun kv => P (snd kv)) m -> P (JObj m)) ->
  forall v, P v.
Proof.
  intros Hnull Hbool Hnum Hstr Harr Hobj.
  fix IH 1.
  intros [ | b | n | s | l | m].
  - exact Hnull.
  - apply Hbool.
  - apply Hnum.
  - apply Hstr.
  - apply Harr. induction l as [ | x l IHl]; constructor; [apply IH | exact IHl].
  - apply Hobj. induction m as [ | [k x] m IHm]; constructor; [apply IH | exact IHm].
Qed.

(** *** Strings *)

#[local] Arguments String.append !s1 s2 : simpl nomatch.

Lemma append_assoc (a b c : string) : (a +:+ b) +:+ c = a +:+ (b +:+ c).
Proof. induction a as [ | x a IH]; simpl; [reflexivity | f_equal; exact IH]. Qed.

Lemma append_nil_r (a : string) : a +:+ EmptyString = a.
Proof. induction a as [ | x a IH]; simpl; [reflexivity | f_equal; exact IH]. Qed.

Lemma length_append (a b : string) :
  String.length (a +:+ b) = (String.length a + String.length b)%nat.
Proof. induction a as [ | x a IH]; simpl; [reflexivity | f_equal; exact IH]. Qed.

Lemma skip_ws_start (s : string) : value_start s = true -> skip_ws s = s.
Proof.
  destruct s as [ | a s]; simpl; [discriminate | ].
  destruct (is_ws a); simpl; [discriminate | reflexivity].
Qed.

(** *** Digits *)

Lemma read_digits_print (u : Decimal.uint) (r : string) :
  (forall a r', r = String a r' -> digit_of a = None) ->
  read_digits (uint_digits u +:+ r) = (u, r).
Proof.
  intros Hr. induction u as [ | u IH | u IH | u IH | u IH | u IH | u IH | u IH | u IH | u IH | u IH];
    simpl; try (rewrite IH; reflexivity).
  destruct r as [ | a r']; [reflexivity | ].
  simpl. now rewrite (Hr a r' eq_refl).
Qed.

Lemma follow_not_digit (r : string) :
  value_follow r = true -> forall a r', r = String a r' -> digit_of a = None.
Proof.
  intros H a r' ->. unfold value_follow in H. unfold digit_of.
  destruct (N_of_ascii a) as [ | p]; [reflexivity | ].
  do 7 (destruct p as [p | p | ]; try reflexivity; try discriminate).
Qed.

Lemma follow_number_ends (r : string) : value_follow r = true -> number_ends r = true.
Proof.
  destruct r as [ | a r']; [reflexivity | ].
  unfold value_follow, number_ends.
  destruct (N_of_ascii a) as [ | p]; [reflexivity | ].
  do 7 (destruct p as [p | p | ]; try reflexivity; try discriminate).
Qed.

Lemma int_part_ok_unorm (u : Decimal.uint) : int_part_ok (unorm u) = true.
Proof.
  unfold unorm. pose proof (nzhead_nonzero u) as Hnz.
  destruct (nzhead u); try reflexivity.
  exfalso. eapply Hnz. reflexivity.
Qed.

Lemma to_uint_unorm (p : positive) : Pos.to_uint p = unorm (Pos.to_uint p).
Proof.
  change (Pos.to_uint p) with (N.to_uint (N.pos p)).
  rewrite <- (DecimalN.Unsigned.of_to (N.pos p)) at 1.
  apply DecimalN.Unsigned.to_of.
Qed.

Lemma parse_number_print (n : Z) (r : string) :
  value_follow r = true ->
  parse_number (print_int n +:+ r) = Some (JNum n, r).
Proof.
  intros Hr. unfold print_int.
  pose proof (DecimalZ.of_to n) as Hn.
  destruct n as [ | p | p]; simpl in *.
  - destruct r as [ | a r']; [reflexivity | ].
    simpl. rewrite (follow_not_digit _ Hr a r' eq_refl).
    now rewrite (follow_number_ends _ Hr).
  - assert (Hok : int_part_ok (Pos.to_uint p) = true)
      by (rewrite to_uint_unorm; apply int_part_ok_unorm).
    assert (Hrd := read_digits_print (Pos.to_uint p) r (follow_not_digit r Hr)).
    destruct (Pos.to_uint p) eqn:E; simpl in Hok; try discriminate;
      simpl; simpl in Hrd; rewrite Hrd; simpl; rewrite ?Hok, (follow_number_ends _ Hr);
      simpl; rewrite <- Hn; reflexivity.
  - assert (Hok : int_part_ok (Pos.to_uint p) = true)
      by (rewrite to_uint_unorm; apply int_part_ok_unorm).
    rewrite (read_digits_print (Pos.to_uint p) r (follow_not_digit r Hr)).
    rewrite Hok, (follow_number_ends _ Hr). simpl. now rewrite <- Hn.
Qed.

(** *** String literals *)

Lemma parse_escape_char (a : ascii) (r : string) :
  parse_string_body (escape_char a +:+ r) = push_char a (parse_string_body r).
Proof.
  destruct a as [[ | ] [ | ] [ | ] [ | ] [ | ] [ | ] [ | ] [ | ]]; reflexivity.
Qed.

Lemma parse_escape_string (s r : string) :
  parse_string_body (escape_string s +:+ String dquote r) = Some (s, r).
Proof.
  induction s as [ | a s IH]; [reflexivity | ].
  simpl escape_string. rewrite append_assoc, parse_escape_char, IH. reflexivity.
Qed.

(** *** Objects *)

Lemma keys_unique_NoDup (ks : list string) : keys_unique ks = true <-> NoDup ks.
Proof.
  induction ks as [ | k ks IH]; simpl.
  - split; [constructor | reflexivity].
  - rewrite andb_true_iff, negb_true_iff, IH, NoDup_cons.
    assert (Hex : existsb (String.eqb k) ks = false <-> k ∉ ks).
    { rewrite <- not_true_iff_false, existsb_exists. split.
      - intros Hn Hin. apply Hn. exists k. split; [now apply list_elem_of_In | apply String.eqb_refl].
      - intros Hn [x [Hin Heq]]. apply String.eqb_eq in Heq. subst x.
        apply Hn. now apply list_elem_of_In. }
    now rewrite Hex.
Qed.

Lemma obj_set_fresh (k : string) (v : json) (m : list (string * json)) :
  k ∉ map fst m -> obj_set k v m = m ++ [(k, v)].
Proof.
  induction m as [ | [k' v'] m IH]; simpl; intros Hk; [reflexivity | ].
  apply not_elem_of_cons in Hk as [Hne Hk].
  destruct (String.eqb k k') eqn:E.
  - apply String.eqb_eq in E. contradiction.
  - now rewrite IH.
Qed.

Lemma obj_assign_app (acc m : list (string * json)) :
  NoDup (map fst (acc ++ m)) -> obj_assign acc m = acc ++ m.
Proof.
  revert acc. induction m as [ | [k v] m IH]; intros acc Hnd.
  - now rewrite app_nil_r.
  - unfold obj_assign. simpl. fold (obj_assign (obj_set k v acc) m).
    assert (Hk : k ∉ map fst acc).
    { rewrite map_app in Hnd. apply NoDup_app in Hnd as (_ & Hd & _).
      intros Hin. apply (Hd k Hin). simpl. left. }
    rewrite (obj_set_fresh _ _ _ Hk), IH; rewrite <- app_assoc; [reflexivity | exact Hnd].
Qed.

Lemma obj_assign_unique (m : list (string * json)) :
  keys_unique (map fst m) = true -> obj_assign [] m = m.
Proof. intros H. apply obj_assign_app. simpl. now apply keys_unique_NoDup. Qed.

(** *** Printing then parsing *)

Lemma print_int_head (n : Z) :
  exists a s, print_int n = String a s /\
    (a = "-"%char \/ exists d, digit_of a = Some d).
Proof.
  unfold print_int. destruct n as [ | p | p]; simpl.
  - exists "0"%char, EmptyString. split; [reflexivity | right; eexists; reflexivity].
  - pose proof (Unsigned.to_uint_nonnil p) as Hp.
    destruct (Pos.to_uint p); [contradiction | ..]; simpl;
      eexists _, _; (split; [reflexivity | right; eexists; reflexivity]).
  - eexists _, _. split; [reflexivity | now left].
Qed.

Lemma number_dispatch (a : ascii) :
  a = "-"%char \/ (exists d, digit_of a = Some d) ->
  is_ws a = false /\ Ascii.eqb a "n" = false /\ Ascii.eqb a "t" = false /\
  Ascii.eqb a "f" = false /\ Ascii.eqb a dquote = false /\
  Ascii.eqb a "[" = false /\ Ascii.eqb a "{" = false /\
  Ascii.eqb a "]" = false /\ Ascii.eqb a "}" = false.
Proof.
  intros [-> | [d Hd]]; [repeat split | ].
  revert Hd.
  destruct a as [[ | ] [ | ] [ | ] [ | ] [ | ] [ | ] [ | ] [ | ]];
    vm_compute; intros Hd; try discriminate Hd; repeat split.
Qed.

Lemma stringify_start (v : json) (r : string) :
  value_start (JSON_stringify v +:+ r) = true.
Proof.
  destruct v as [ | [ | ] | n | s | l | m]; try reflexivity.
  simpl JSON_stringify.
  destruct (print_int_head n) as (a & s & -> & Ha).
  destruct (number_dispatch a Ha) as (Hws & _ & _ & _ & _ & _ & _ & Hb & Hc).
  simpl. now rewrite Hws, Hb, Hc.
Qed.

Lemma parse_value_number (fuel : nat) (n : Z) (r : string) :
  value_follow r = true ->
  parse_value (S fuel) (print_int n +:+ r) = Some (JNum n, r).
Proof.
  intros Hr. rewrite <- (parse_number_print n r Hr).
  destruct (print_int_head n) as (a & s & E & Ha). rewrite E.
  destruct (number_dispatch a Ha) as (Hws & Hn & Ht & Hf & Hq & Hl & Hm & _).
  simpl. now rewrite Hws, Hn, Ht, Hf, Hq, Hl, Hm.
Qed.

Lemma parse_elements_eq (fuel : nat) (s : string) :
  parse_elements (S fuel) s =
  match parse_value fuel s with
  | Some (v, r) =>
      match skip_ws r with
      | String b r' =>
          if Ascii.eqb b "," then
            match parse_elements fuel r' with
            | Some (l, r'') => Some (v :: l, r'')
            | None => None
            end
          else if Ascii.eqb b "]" then Some ([v], r')
          else None
      | EmptyString => None
      end
  | None => None
  end.
Proof. reflexivity. Qed.

Lemma parse_elements_print (l : list json) :
  l <> [] ->
  Forall roundtrips l ->
  forallb wf_json l = true ->
  forall fuel r,
    (list_sum (map (fun x => S (json_size x)) l) <= fuel)%nat ->
    parse_elements fuel (join_commas JSON_stringify l +:+ String "]" r) = Some (l, r).
Proof.
  induction l as [ | x l IH]; [congruence | ].
  intros _ Hall Hwf fuel r Hfuel.
  apply Forall_cons in Hall as [Hx Hall].
  simpl in Hwf. apply andb_true_iff in Hwf as [Hwx Hwl].
  simpl in Hfuel. destruct fuel as [ | fuel]; [lia | ].
  rewrite parse_elements_eq.
  destruct l as [ | y l'].
  - simpl join_commas. rewrite (Hx Hwx); [ | lia | reflexivity]. reflexivity.
  - change (join_commas JSON_stringify (x :: y :: l'))
      with (JSON_stringify x +:+ String "," (join_commas JSON_stringify (y :: l'))).
    rewrite append_assoc.
    change (String "," (join_commas JSON_stringify (y :: l')) +:+ String "]" r)
      with (String "," (join_commas JSON_stringify (y :: l') +:+ String "]" r)).
    rewrite (Hx Hwx); [ | lia | reflexivity].
    cbn [skip_ws]. change (is_ws ",") with false. cbv iota.
    change (Ascii.eqb "," ",") with true. cbv iota.
    rewrite IH; [reflexivity | congruence | exact Hall | exact Hwl | ].
    simpl. simpl in Hfuel. lia.
Qed.

Lemma parse_members_eq (fuel : nat) (k : string) (rest : string) :
  parse_members (S fuel) (quote_string k +:+ rest) =
  match skip_ws rest with
  | String c r2 =>
      if Ascii.eqb c ":" then
        match parse_value fuel r2 with
        | Some (v, r3) =>
            match skip_ws r3 with
            | String b r4 =>
                if Ascii.eqb b "," then
                  match parse_members fuel r4 with
                  | Some (m, r5) => Some ((k, v) :: m, r5)
                  | None => None
                  end
                else if Ascii.eqb b "}" then Some ([(k, v)], r4)
                else None
            | EmptyString => None
            end
        | None => None
        end
      else None
  | EmptyString => None
  end.
Proof.
  unfold quote_string.
  change (String dquote (escape_string k +:+ str1 dquote) +:+ rest)
    with (String dquote ((escape_string k +:+ str1 dquote) +:+ rest)).
  rewrite append_assoc.
  change (str1 dquote +:+ rest) with (String dquote rest).
  cbn [parse_members skip_ws]. change (is_ws dquote) with false. cbv iota.
  change (Ascii.eqb dquote dquote) with true. cbv iota.
  rewrite parse_escape_string. reflexivity.
Qed.

Lemma parse_members_print (m : list (string * json)) :
  m <> [] ->
  Forall (fun kv => roundtrips (snd kv)) m ->
  forallb (fun kv => wf_json (snd kv)) m = true ->
  forall fuel r,
    (list_sum (map (fun kv => S (json_size (snd kv))) m) <= fuel)%nat ->
    parse_members fuel (join_commas print_member m +:+ String "}" r) = Some (m, r).
Proof.
  induction m as [ | [k x] m IH]; [congruence | ].
  intros _ Hall Hwf fuel r Hfuel.
  apply Forall_cons in Hall as [Hx Hall]. simpl in Hx.
  simpl in Hwf. apply andb_true_iff in Hwf as [Hwx Hwm].
  simpl in Hfuel. destruct fuel as [ | fuel]; [lia | ].
  destruct m as [ | y m'].
  - change (join_commas print_member [(k, x)])
      with (quote_string k +:+ String ":" (JSON_stringify x)).
    rewrite append_assoc, parse_members_eq.
    change (String ":" (JSON_stringify x) +:+ String "}" r)
      with (String ":" (JSON_stringify x +:+ String "}" r)).
    cbn [skip_ws]. change (is_ws ":") with false. cbv iota.
    change (Ascii.eqb ":" ":") with true. cbv iota.
    rewrite (Hx Hwx); [ | lia | reflexivity]. reflexivity.
  - change (join_commas print_member ((k, x) :: y :: m'))
      with ((quote_string k +:+ String ":" (JSON_stringify x))
              +:+ String "," (join_commas print_member (y :: m'))).
    rewrite !append_assoc, parse_members_eq.
    change (String ":" (JSON_stringify x) +:+
              String "," (join_commas print_member (y :: m')) +:+ String "}" r)
      with (String ":" (JSON_stringify x +:+
              String "," (join_commas print_member (y :: m') +:+ String "}" r))).
    cbn [skip_ws]. change (is_ws ":") with false. cbv iota.
    change (Ascii.eqb ":" ":") with true. cbv iota.
    rewrite (Hx Hwx); [ | lia | reflexivity].
    cbn [skip_ws]. change (is_ws ",") with false. cbv iota.
    change (Ascii.eqb "," ",") with true. cbv iota.
    rewrite IH; [reflexivity | congruence | exact Hall | exact Hwm | ].
    simpl. simpl in Hfuel. lia.
Qed.

Lemma parse_value_array (fuel : nat) (rest : string) :
  parse_value (S fuel) (String "[" rest) =
  match skip_ws rest with
  | String b r' =>
      if Ascii.eqb b "]" then Some (JArr [], r')
      else
        match parse_elements fuel rest with
        | Some (l, r'') => Some (JArr l, r'')
        | None => None
        end
  | EmptyString => None
  end.
Proof. reflexivity. Qed.

Lemma parse_value_object (fuel : nat) (rest : string) :
  parse_value (S fuel) (String "{" rest) =
  match skip_ws rest with
  | String b r' =>
      if Ascii.eqb b "}" then Some (JObj [], r')
      else
        match parse_members fuel rest with
        | Some (m, r'') => Some (JObj (obj_assign [] m), r'')
        | None => None
        end
  | EmptyString => None
  end.
Proof. reflexivity. Qed.

Lemma join_start {A} (f : A -> string) (l : list A) (r : string) :
  l <> [] ->
  (forall x r', value_start (f x +:+ r') = true) ->
  value_start (join_commas f l +:+ r) = true.
Proof.
  intros Hl Hf. destruct l as [ | x [ | y l']]; [congruence | apply Hf | ].
  change (join_commas f (x :: y :: l'))
    with (f x +:+ String "," (join_commas f (y :: l'))).
  rewrite append_assoc. apply Hf.
Qed.

Lemma value_start_cases (s : string) :
  value_start s = true ->
  exists b r', s = String b r' /\ skip_ws s = s /\
    Ascii.eqb b "]" = false /\ Ascii.eqb b "}" = false.
Proof.
  intros H. pose proof (skip_ws_start s H) as Hs.
  destruct s as [ | b r']; [discriminate | ].
  exists b, r'. simpl in H.
  destruct (is_ws b), (Ascii.eqb b "]"), (Ascii.eqb b "}"); try discriminate.
  repeat split; assumption.
Qed.

(** Every well-formed value is read back from its own text, whatever
    follows it, given fuel for its size. *)
Lemma parse_value_print (v : json) : roundtrips v.
Proof.
  induction v as [ | b | n | s | l IHl | m IHm] using json_induction;
    intros Hwf fuel r Hfuel Hr; simpl in Hfuel;
    (destruct fuel as [ | fuel]; [lia | ]).
  - reflexivity.
  - destruct b; reflexivity.
  - now apply parse_value_number.
  - simpl JSON_stringify. unfold quote_string.
    change (String dquote (escape_string s +:+ str1 dquote) +:+ r)
      with (String dquote ((escape_string s +:+ str1 dquote) +:+ r)).
    rewrite append_assoc. change (str1 dquote +:+ r) with (String dquote r).
    cbn [parse_value skip_ws]. change (is_ws dquote) with false. cbv iota.
    change (Ascii.eqb dquote "n") with false.
    change (Ascii.eqb dquote "t") with false.
    change (Ascii.eqb dquote "f") with false.
    change (Ascii.eqb dquote dquote) with true. cbv iota.
    now rewrite parse_escape_string.
  - simpl JSON_stringify.
    change (String "[" (join_commas JSON_stringify l +:+ "]") +:+ r)
      with (String "[" ((join_commas JSON_stringify l +:+ "]") +:+ r)).
    rewrite append_assoc. change ("]" +:+ r) with (String "]" r).
    rewrite parse_value_array.
    destruct l as [ | x l']; [reflexivity | ].
    destruct (value_start_cases
                (join_commas JSON_stringify (x :: l') +:+ String "]" r))
      as (b & r' & E & Hs & Hb & _).
    { apply join_start; [congruence | apply stringify_start]. }
    rewrite Hs, E, Hb, <- E.
    rewrite parse_elements_print; [reflexivity | congruence | exact IHl | exact Hwf | lia].
  - simpl in Hwf. apply andb_true_iff in Hwf as [Hkeys Hvals].
    change (JSON_stringify (JObj m))
      with (String "{" (join_commas print_member m +:+ "}")).
    change (String "{" (join_commas print_member m +:+ "}") +:+ r)
      with (String "{" ((join_commas print_member m +:+ "}") +:+ r)).
    rewrite append_assoc. change ("}" +:+ r) with (String "}" r).
    rewrite parse_value_object.
    destruct m as [ | [k x] m']; [reflexivity | ].
    destruct (value_start_cases
                (join_commas print_member ((k, x) :: m') +:+ String "}" r))
      as (b & r' & E & Hs & _ & Hb).
    { apply join_start; [congruence | ]. intros [k' x'] r0. reflexivity. }
    rewrite Hs, E, Hb, <- E.
    rewrite parse_members_print;
      [ | congruence | exact IHm | exact Hvals | lia].
    now rewrite obj_assign_unique.
Qed.

Lemma join_size {A} (f : A -> string) (g : A -> nat) (l : list A) :
  Forall (fun x => (g x <= String.length (f x))%nat) l ->
  (list_sum (map (fun x => S (g x)) l) <= S (String.length (join_commas f l)))%nat.
Proof.
  induction l as [ | x l IH]; intros Hall; [simpl; lia | ].
  apply Forall_cons in Hall as [Hx Hall]. specialize (IH Hall).
  destruct l as [ | y l'].
  - simpl. simpl in Hx. lia.
  - change (join_commas f (x :: y :: l'))
      with (f x +:+ String "," (join_commas f (y :: l'))).
    rewrite length_append.
    change (list_sum (map (fun x => S (g x)) (x :: y :: l')))
      with (S (g x) + list_sum (map (fun x => S (g x)) (y :: l')))%nat.
    remember (join_commas f (y :: l')) as rest.
    remember (list_sum (map (fun x => S (g x)) (y :: l'))) as total.
    simpl String.length. lia.
Qed.

Lemma stringify_size (v : json) :
  (json_size v <= String.length (JSON_stringify v))%nat.
Proof.
  induction v as [ | b | n | s | l IHl | m IHm] using json_induction.
  - simpl. lia.
  - destruct b; simpl; lia.
  - simpl. destruct (print_int_head n) as (a & s & -> & _). simpl. lia.
  - simpl. lia.
  - simpl JSON_stringify. simpl json_size. simpl String.length.
    rewrite length_append. simpl String.length.
    pose proof (join_size JSON_stringify json_size l IHl). lia.
  - change (JSON_stringify (JObj m))
      with (String "{" (join_commas print_member m +:+ "}")).
    simpl json_size. simpl String.length.
    rewrite length_append. simpl String.length.
    assert (Hm : Forall (fun kv => (json_size (snd kv) <= String.length (print_member kv))%nat) m).
    { eapply Forall_impl; [exact IHm | ]. intros [k x] Hx. simpl in *.
      unfold print_member. rewrite length_append. simpl. lia. }
    pose proof (join_size print_member (fun kv => json_size (snd kv)) m Hm). lia.
Qed.

(** [JSON.parse(JSON.stringify(v))] is [v]. *)
Lemma JSON_parse_stringify (v : json) :
  wf_json v = true -> JSON_parse (JSON_stringify v) = Some v.
Proof.
  intros Hwf. unfold JSON_parse.
  pose proof (stringify_size v) as Hsize.
  rewrite <- (append_nil_r (JSON_stringify v)) at 2.
  rewrite (parse_value_print v Hwf); [reflexivity | lia | reflexivity].
Qed.

Lemma stringify_nonempty (v : json) : nonempty (JSON_stringify v) = true.
Proof.
  pose proof (stringify_start v EmptyString) as H.
  rewrite append_nil_r in H. now destruct (JSON_stringify v).
Qed.

(** *** What the parser returns is well formed *)

Lemma obj_set_keys (k : string) (v : json) (m : list (string * json)) :
  NoDup (map fst m) -> NoDup (map fst (obj_set k v m)).
Proof.
  intros Hnd. destruct (decide (k ∈ map fst m)) as [Hin | Hout].
  - assert (E : map fst (obj_set k v m) = map fst m); [ | now rewrite E].
    clear Hnd. induction m as [ | [k' v'] m IH]; simpl in *; [now apply elem_of_nil in Hin | ].
    destruct (String.eqb k k') eqn:Ek.
    + apply String.eqb_eq in Ek. now subst.
    + simpl. f_equal. apply IH. apply elem_of_cons in Hin as [-> | Hin]; [ | exact Hin].
      now rewrite String.eqb_refl in Ek.
  - rewrite (obj_set_fresh _ _ _ Hout), map_app. simpl.
    apply NoDup_app. split; [exact Hnd | ]. split; [ | apply NoDup_singleton].
    intros x Hx Hx'. apply list_elem_of_singleton in Hx'. now subst.
Qed.

Lemma obj_set_values (P : json -> bool) (k : string) (v : json)
  (m : list (string * json)) :
  P v = true -> forallb (fun kv => P (snd kv)) m = true ->
  forallb (fun kv => P (snd kv)) (obj_set k v m) = true.
Proof.
  intros Hv. induction m as [ | [k' v'] m IH]; simpl; intros Hm.
  - now rewrite Hv.
  - apply andb_true_iff in Hm as [H1 H2].
    destruct (String.eqb k k'); simpl; [now rewrite Hv | now rewrite H1, IH].
Qed.

Lemma obj_assign_wf (acc props : list (string * json)) :
  wf_json (JObj acc) = true ->
  forallb (fun kv => wf_json (snd kv)) props = true ->
  wf_json (JObj (obj_assign acc props)) = true.
Proof.
  revert acc. induction props as [ | [k v] props IH]; intros acc Hacc Hprops.
  - exact Hacc.
  - simpl in Hprops. apply andb_true_iff in Hprops as [Hv Hprops].
    unfold obj_assign. simpl fold_left. apply IH; [ | exact Hprops].
    simpl in *. apply andb_true_iff in Hacc as [Hk Hvals].
    apply andb_true_iff. split.
    + apply keys_unique_NoDup, obj_set_keys, keys_unique_NoDup, Hk.
    + now apply (obj_set_values wf_json).
Qed.

Lemma parse_number_wf (s : string) (v : json) (r : string) :
  parse_number s = Some (v, r) -> wf_json v = true.
Proof.
  unfold parse_number. intros H.
  repeat match type of H with
         | context [match ?x with _ => _ end] => destruct x
         end; try discriminate; injection H as <- _; reflexivity.
Qed.

Lemma literal_wf (word : string) (c v : json) (s r : string) :
  wf_json c = true -> literal word c s = Some (v, r) -> wf_json v = true.
Proof.
  unfold literal. intros Hc H. destruct (strip_prefix word s); [ | discriminate].
  now injection H as <- _.
Qed.

Lemma parse_wf (fuel : nat) :
  (forall s v r, parse_value fuel s = Some (v, r) -> wf_json v = true) /\
  (forall s l r, parse_elements fuel s = Some (l, r) -> forallb wf_json l = true) /\
  (forall s m r, parse_members fuel s = Some (m, r) ->
     forallb (fun kv => wf_json (snd kv)) m = true).
Proof.
  induction fuel as [ | fuel (IHv & IHe & IHm)]; [repeat split; discriminate | ].
  repeat split.
  - intros s v r H. cbn [parse_value] in H.
    destruct (skip_ws s) as [ | a s']; [discriminate | ].
    destruct (Ascii.eqb a "n"); [now apply literal_wf in H | ].
    destruct (Ascii.eqb a "t"); [now apply literal_wf in H | ].
    destruct (Ascii.eqb a "f"); [now apply literal_wf in H | ].
    destruct (Ascii.eqb a dquote).
    { destruct (parse_string_body s') as [[str r'] | ]; [ | discriminate].
      now injection H as <- _. }
    destruct (Ascii.eqb a "[").
    { destruct (skip_ws s') as [ | b r']; [discriminate | ].
      destruct (Ascii.eqb b "]"); [now injection H as <- _ | ].
      destruct (parse_elements fuel s') as [[l r''] | ] eqn:E; [ | discriminate].
      injection H as <- _. simpl. exact (IHe _ _ _ E). }
    destruct (Ascii.eqb a "{").
    { destruct (skip_ws s') as [ | b r']; [discriminate | ].
      destruct (Ascii.eqb b "}"); [now injection H as <- _ | ].
      destruct (parse_members fuel s') as [[m r''] | ] eqn:E; [ | discriminate].
      injection H as <- _. apply obj_assign_wf; [reflexivity | exact (IHm _ _ _ E)]. }
    exact (parse_number_wf _ _ _ H).
  - intros s l r H. rewrite parse_elements_eq in H.
    destruct (parse_value fuel s) as [[v r0] | ] eqn:Ev; [ | discriminate].
    destruct (skip_ws r0) as [ | b r']; [discriminate | ].
    destruct (Ascii.eqb b ",").
    + destruct (parse_elements fuel r') as [[l' r''] | ] eqn:E; [ | discriminate].
      injection H as <- _. simpl. now rewrite (IHv _ _ _ Ev), (IHe _ _ _ E).
    + destruct (Ascii.eqb b "]"); [ | discriminate].
      injection H as <- _. simpl. now rewrite (IHv _ _ _ Ev).
  - intros s m r H. cbn [parse_members] in H.
    destruct (skip_ws s) as [ | q s']; [discriminate | ].
    destruct (Ascii.eqb q dquote); [ | discriminate].
    destruct (parse_string_body s') as [[k r1] | ]; [ | discriminate].
    destruct (skip_ws r1) as [ | c r2]; [discriminate | ].
    destruct (Ascii.eqb c ":"); [ | discriminate].
    destruct (parse_value fuel r2) as [[v r3] | ] eqn:Ev; [ | discriminate].
    destruct (skip_ws r3) as [ | b r4]; [discriminate | ].
    destruct (Ascii.eqb b ",").
    + destruct (parse_members fuel r4) as [[m' r5] | ] eqn:E; [ | discriminate].
      injection H as <- _. simpl. now rewrite (IHv _ _ _ Ev), (IHm _ _ _ E).
    + destruct (Ascii.eqb b "}"); [ | discriminate].
      injection H as <- _. simpl. now rewrite (IHv _ _ _ Ev).
Qed.

Lemma JSON_parse_wf (text : string) (v : json) :
  JSON_parse text = Some v -> wf_json v = true.
Proof.
  unfold JSON_parse. intros H.
  destruct (parse_value _ text) as [[v' r] | ] eqn:E; [ | discriminate].
  destruct (skip_ws r); [ | discriminate]. injection H as <-.
  exact (proj1 (parse_wf _) _ _ _ E).
Qed.

(** *** The fuel of [JSON_parse] is enough *)

Lemma skip_ws_length (s : string) : (String.length (skip_ws s) <= String.length s)%nat.
Proof.
  induction s as [ | a s IH]; simpl; [lia | ].
  destruct (is_ws a); simpl; lia.
Qed.

Lemma skip_ws_cons (s : string) (b : ascii) (r : string) :
  skip_ws s = String b r -> (String.length r < String.length s)%nat.
Proof.
  intros H. pose proof (skip_ws_length s) as Hl. rewrite H in Hl. simpl in Hl. lia.
Qed.

Lemma push_char_length (a : ascii) (p : option (string * string)) (str r : string) (n : nat) :
  push_char a p = Some (str, r) ->
  (forall str' r', p = Some (str', r') -> (String.length r' < n)%nat) ->
  (String.length r < n)%nat.
Proof.
  destruct p as [[str' r'] | ]; simpl; [ | discriminate].
  intros H Hp. injection H as _ <-. now apply (Hp str').
Qed.

Lemma parse_string_body_length (s str r : string) :
  parse_string_body s = Some (str, r) -> (String.length r < String.length s)%nat.
Proof.
  remember (String.length s) as n eqn:Hn.
  revert s str r Hn. induction n as [n IH] using lt_wf_ind.
  intros s str r Hn H. destruct s as [ | a s]; [discriminate | ].
  simpl in Hn. cbn [parse_string_body] in H.
  destruct (Ascii.eqb a dquote); [injection H as _ <-; lia | ].
  destruct (Ascii.eqb a backslash).
  - destruct s as [ | e s1]; [discriminate | ].
    destruct (Ascii.eqb e "u").
    + destruct s1 as [ | h1 [ | h2 [ | h3 [ | h4 r2]]]]; try discriminate.
      destruct (hex4 h1 h2 h3 h4) as [c | ]; [ | discriminate].
      destruct (c <? 256)%N; [ | discriminate].
      simpl in Hn. eapply push_char_length in H; [exact H | ].
      intros str' r' Hp.
      pose proof (IH (String.length r2) ltac:(lia) r2 str' r' eq_refl Hp). lia.
    + destruct (unescape_simple e) as [c | ]; [ | discriminate].
      simpl in Hn. eapply push_char_length in H; [exact H | ].
      intros str' r' Hp.
      pose proof (IH (String.length s1) ltac:(lia) s1 str' r' eq_refl Hp). lia.
  - destruct (N_of_ascii a <? 32)%N; [discriminate | ].
    eapply push_char_length in H; [exact H | ].
    intros str' r' Hp.
    pose proof (IH (String.length s) ltac:(lia) s str' r' eq_refl Hp). lia.
Qed.

Lemma read_digits_length (s : string) :
  (String.length (snd (read_digits s)) <= String.length s)%nat /\
  (fst (read_digits s) <> Nil ->
   (String.length (snd (read_digits s)) < String.length s)%nat).
Proof.
  induction s as [ | a s [IH1 IH2]]; simpl; [split; [lia | congruence] | ].
  destruct (digit_of a) as [d | ]; [ | simpl; split; [lia | congruence]].
  destruct (read_digits s) as [u r]. simpl in *. split; lia.
Qed.

Lemma parse_number_length (s : string) (v : json) (r : string) :
  parse_number s = Some (v, r) -> (String.length r < String.length s)%nat.
Proof.
  assert (Hgen : forall s0 u r0, read_digits s0 = (u, r0) -> int_part_ok u = true ->
                   (String.length r0 < String.length s0)%nat).
  { intros s0 u r0 E Hok. destruct (read_digits_length s0) as [_ H].
    rewrite E in H. simpl in H. apply H. now destruct u. }
  unfold parse_number. intros H.
  destruct s as [ | a s']; [simpl in H; discriminate | ].
  destruct (Ascii.eqb a "-") eqn:Ea.
  - apply Ascii.eqb_eq in Ea. subst a.
    destruct (read_digits s') as [u r'] eqn:E.
    destruct (int_part_ok u) eqn:Hok; [ | discriminate].
    destruct (number_ends r'); [ | discriminate]. injection H as _ <-.
    pose proof (Hgen _ _ _ E Hok). simpl. lia.
  - assert (H' : (let '(u, r') := read_digits (String a s') in
                  if int_part_ok u && number_ends r'
                  then Some (JNum (Z.of_uint u), r') else None) = Some (v, r)).
    { destruct a as [[ | ] [ | ] [ | ] [ | ] [ | ] [ | ] [ | ] [ | ]];
        try exact H; discriminate Ea. }
    clear H. destruct (read_digits (String a s')) as [u r'] eqn:E.
    destruct (int_part_ok u) eqn:Hok; [ | discriminate].
    destruct (number_ends r'); [ | discriminate]. injection H' as _ <-.
    exact (Hgen _ _ _ E Hok).
Qed.

Lemma strip_prefix_length (p s r : string) :
  strip_prefix p s = Some r ->
  String.length s = (String.length p + String.length r)%nat.
Proof.
  revert s. induction p as [ | a p IH]; intros s H; simpl in H.
  - now injection H as <-.
  - destruct s as [ | b s]; [discriminate | ].
    destruct (Ascii.eqb a b); [ | discriminate]. simpl. now rewrite (IH _ H).
Qed.

Lemma literal_length (word : string) (c v : json) (s r : string) :
  nonempty word = true ->
  literal word c s = Some (v, r) -> (String.length r < String.length s)%nat.
Proof.
  unfold literal. intros Hw H.
  destruct (strip_prefix word s) as [r' | ] eqn:E; [ | discriminate].
  injection H as _ <-. apply strip_prefix_length in E.
  destruct word; [discriminate | ]. simpl in E. lia.
Qed.

(** A parse that succeeds with some fuel succeeds with any fuel above
    twice the number of characters it consumes. *)
Lemma parse_fuel (fuel : nat) :
  (forall s v r, parse_value fuel s = Some (v, r) ->
     (String.length r < String.length s)%nat /\
     forall f, (2 * (String.length s - String.length r) - 1 <= f)%nat ->
               parse_value f s = Some (v, r)) /\
  (forall s l r, parse_elements fuel s = Some (l, r) ->
     (String.length r + 2 <= String.length s)%nat /\
     forall f, (2 * (String.length s - String.length r) - 2 <= f)%nat ->
               parse_elements f s = Some (l, r)) /\
  (forall s m r, parse_members fuel s = Some (m, r) ->
     (String.length r + 2 <= String.length s)%nat /\
     forall f, (2 * (String.length s - String.length r) - 2 <= f)%nat ->
               parse_members f s = Some (m, r)).
Proof.
  induction fuel as [ | fuel (IHv & IHe & IHm)]; [repeat split; discriminate | ].
  split; [ | split].
  - intros s v r H. cbn [parse_value] in H.
    destruct (skip_ws s) as [ | a s'] eqn:Es; [discriminate | ].
    pose proof (skip_ws_length s) as Hs. rewrite Es in Hs. simpl in Hs.
    destruct (Ascii.eqb a "n") eqn:En.
    { pose proof (literal_length "null" _ _ _ _ eq_refl H) as Hl. simpl in Hl.
      split; [lia | ]. intros [ | f] Hf; [lia | ].
      cbn [parse_value]. now rewrite Es, En. }
    destruct (Ascii.eqb a "t") eqn:Et.
    { pose proof (literal_length "true" _ _ _ _ eq_refl H) as Hl. simpl in Hl.
      split; [lia | ]. intros [ | f] Hf; [lia | ].
      cbn [parse_value]. now rewrite Es, En, Et. }
    destruct (Ascii.eqb a "f") eqn:Ef.
    { pose proof (literal_length "false" _ _ _ _ eq_refl H) as Hl. simpl in Hl.
      split; [lia | ]. intros [ | f] Hf; [lia | ].
      cbn [parse_value]. now rewrite Es, En, Et, Ef. }
    destruct (Ascii.eqb a dquote) eqn:Eq.
    { destruct (parse_string_body s') as [[str r'] | ] eqn:Eb; [ | discriminate].
      injection H as <- <-. pose proof (parse_string_body_length _ _ _ Eb) as Hl.
      split; [lia | ]. intros [ | f] Hf; [lia | ].
      cbn [parse_value]. now rewrite Es, En, Et, Ef, Eq, Eb. }
    destruct (Ascii.eqb a "[") eqn:El.
    { destruct (skip_ws s') as [ | b r'] eqn:Es'; [discriminate | ].
      pose proof (skip_ws_cons _ _ _ Es') as Hl.
      destruct (Ascii.eqb b "]") eqn:Eb.
      - injection H as <- <-. split; [lia | ]. intros [ | f] Hf; [lia | ].
        cbn [parse_value]. now rewrite Es, En, Et, Ef, Eq, El, Es', Eb.
      - destruct (parse_elements fuel s') as [[l r''] | ] eqn:Ee; [ | discriminate].
        injection H as <- <-. destruct (IHe _ _ _ Ee) as [Hc Hf'].
        split; [lia | ]. intros [ | f] Hf; [lia | ].
        cbn [parse_value]. rewrite Es, En, Et, Ef, Eq, El, Es', Eb.
        now rewrite (Hf' f ltac:(lia)). }
    destruct (Ascii.eqb a "{") eqn:Em.
    { destruct (skip_ws s') as [ | b r'] eqn:Es'; [discriminate | ].
      pose proof (skip_ws_cons _ _ _ Es') as Hl.
      destruct (Ascii.eqb b "}") eqn:Eb.
      - injection H as <- <-. split; [lia | ]. intros [ | f] Hf; [lia | ].
        cbn [parse_value]. now rewrite Es, En, Et, Ef, Eq, El, Em, Es', Eb.
      - destruct (parse_members fuel s') as [[m r''] | ] eqn:Ee; [ | discriminate].
        injection H as <- <-. destruct (IHm _ _ _ Ee) as [Hc Hf'].
        split; [lia | ]. intros [ | f] Hf; [lia | ].
        cbn [parse_value]. rewrite Es, En, Et, Ef, Eq, El, Em, Es', Eb.
        now rewrite (Hf' f ltac:(lia)). }
    pose proof (parse_number_length _ _ _ H) as Hl. simpl in Hl.
    split; [lia | ]. intros [ | f] Hf; [lia | ].
    cbn [parse_value]. now rewrite Es, En, Et, Ef, Eq, El, Em.
  - intros s l r H. rewrite parse_elements_eq in H.
    destruct (parse_value fuel s) as [[v r1] | ] eqn:Ev; [ | discriminate].
    destruct (IHv _ _ _ Ev) as [Hc1 Hf1].
    destruct (skip_ws r1) as [ | b r'] eqn:Es; [discriminate | ].
    pose proof (skip_ws_cons _ _ _ Es) as Hl.
    destruct (Ascii.eqb b ",") eqn:Eb.
    + destruct (parse_elements fuel r') as [[l' r''] | ] eqn:Ee; [ | discriminate].
      injection H as <- <-. destruct (IHe _ _ _ Ee) as [Hc2 Hf2].
      split; [lia | ]. intros [ | f] Hf; [lia | ].
      rewrite parse_elements_eq, (Hf1 f ltac:(lia)), Es, Eb.
      now rewrite (Hf2 f ltac:(lia)).
    + destruct (Ascii.eqb b "]") eqn:Eb'; [ | discriminate].
      injection H as <- <-.
      split; [lia | ]. intros [ | f] Hf; [lia | ].
      now rewrite parse_elements_eq, (Hf1 f ltac:(lia)), Es, Eb, Eb'.
  - intros s m r H. cbn [parse_members] in H.
    destruct (skip_ws s) as [ | q s'] eqn:Es; [discriminate | ].
    pose proof (skip_ws_length s) as Hs. rewrite Es in Hs. simpl in Hs.
    destruct (Ascii.eqb q dquote) eqn:Eq; [ | discriminate].
    destruct (parse_string_body s') as [[k r1] | ] eqn:Ek; [ | discriminate].
    pose proof (parse_string_body_length _ _ _ Ek) as Hk.
    destruct (skip_ws r1) as [ | c r2] eqn:Es1; [discriminate | ].
    pose proof (skip_ws_cons _ _ _ Es1) as Hl1.
    destruct (Ascii.eqb c ":") eqn:Ec; [ | discriminate].
    destruct (parse_value fuel r2) as [[v r3] | ] eqn:Ev; [ | discriminate].
    destruct (IHv _ _ _ Ev) as [Hc1 Hf1].
    destruct (skip_ws r3) as [ | b r4] eqn:Es3; [discriminate | ].
    pose proof (skip_ws_cons _ _ _ Es3) as Hl3.
    destruct (Ascii.eqb b ",") eqn:Eb.
    + destruct (parse_members fuel r4) as [[m' r5] | ] eqn:Ee; [ | discriminate].
      injection H as <- <-. destruct (IHm _ _ _ Ee) as [Hc2 Hf2].
      split; [lia | ]. intros [ | f] Hf; [lia | ].
      cbn [parse_members]. rewrite Es, Eq, Ek, Es1, Ec, (Hf1 f ltac:(lia)), Es3, Eb.
      now rewrite (Hf2 f ltac:(lia)).
    + destruct (Ascii.eqb b "}") eqn:Eb'; [ | discriminate].
      injection H as <- <-.
      split; [lia | ]. intros [ | f] Hf; [lia | ].
      cbn [parse_members].
      now rewrite Es, Eq, Ek, Es1, Ec, (Hf1 f ltac:(lia)), Es3, Eb, Eb'.
Qed.

(** So [JSON_parse] fails only on a text that no amount of fuel parses:
    its [None] is the SyntaxError, never an exhausted budget. *)
Lemma JSON_parse_fuel (fuel : nat) (text : string) (v : json) (r : string) :
  parse_value fuel text = Some (v, r) ->
  skip_ws r = EmptyString ->
  JSON_parse text = Some v.
Proof.
  intros H Hr. destruct (proj1 (parse_fuel fuel) _ _ _ H) as [_ Hf].
  assert (Hfuel : (2 * (String.length text - String.length r) - 1
                   <= 2 * String.length text + 2)%nat) by lia.
  unfold JSON_parse. rewrite (Hf _ Hfuel), Hr. reflexivity.
Qed.

(** *** The recogniser of JSON texts *)

Lemma push_char_some (a : ascii) (p : option (string * string)) (str r : string) :
  push_char a p = Some (str, r) -> exists str', p = Some (str', r).
Proof.
  destruct p as [[str' r'] | ]; simpl; [ | discriminate].
  intros H. injection H as _ <-. now exists str'.
Qed.

(** What [JSON_parse] reads as a string literal is one. *)
Lemma parse_string_body_scan (s str r : string) :
  parse_string_body s = Some (str, r) -> scan_string_body s = Some r.
Proof.
  remember (String.length s) as n eqn:Hn.
  revert s str r Hn. induction n as [n IH] using lt_wf_ind.
  intros s str r Hn H. destruct s as [ | a s]; [discriminate | ].
  simpl in Hn. cbn [parse_string_body] in H. cbn [scan_string_body].
  destruct (Ascii.eqb a dquote); [now injection H as _ <- | ].
  destruct (Ascii.eqb a backslash).
  - destruct s as [ | e s1]; [discriminate | ].
    destruct (Ascii.eqb e "u").
    + destruct s1 as [ | h1 [ | h2 [ | h3 [ | h4 r2]]]]; try discriminate.
      destruct (hex4 h1 h2 h3 h4) as [c | ]; [ | discriminate].
      destruct (c <? 256)%N; [ | discriminate].
      apply push_char_some in H as [str' H]. simpl in Hn.
      exact (IH (String.length r2) ltac:(lia) r2 str' r eq_refl H).
    + destruct (unescape_simple e) as [c | ]; [ | discriminate].
      apply push_char_some in H as [str' H]. simpl in Hn.
      exact (IH (String.length s1) ltac:(lia) s1 str' r eq_refl H).
  - destruct (N_of_ascii a <? 32)%N; [discriminate | ].
    apply push_char_some in H as [str' H].
    exact (IH (String.length s) ltac:(lia) s str' r eq_refl H).
Qed.

(** Where the model's number ends, no fraction and no exponent begin. *)
Lemma number_ends_scan (r : string) :
  number_ends r = true -> scan_fraction r = Some r /\ scan_exponent r = Some r.
Proof.
  destruct r as [ | a r]; [now split | ].
  destruct a as [[ | ] [ | ] [ | ] [ | ] [ | ] [ | ] [ | ] [ | ]];
    cbn; intros H; try discriminate H; now split.
Qed.

Lemma parse_number_scan (s : string) (v : json) (r : string) :
  parse_number s = Some (v, r) -> scan_number s = Some r.
Proof.
  assert (Hgen : forall s0, (let '(u, r') := read_digits s0 in
                             if int_part_ok u && number_ends r'
                             then Some r' else None) = Some r ->
                 match scan_int s0 with
                 | Some r0 =>
                     match scan_fraction r0 with
                     | Some r' => scan_exponent r'
                     | None => None
                     end
                 | None => None
                 end = Some r).
  { intros s0 H. unfold scan_int. destruct (read_digits s0) as [u r'].
    destruct (int_part_ok u); [ | discriminate].
    destruct (number_ends r') eqn:En; [ | discriminate]. injection H as <-.
    destruct (number_ends_scan _ En) as [-> ->]. reflexivity. }
  unfold parse_number, scan_number. intros H.
  destruct s as [ | a s']; [simpl in H; discriminate | ].
  destruct (Ascii.eqb a "-") eqn:Ea.
  - apply Ascii.eqb_eq in Ea. subst a. apply Hgen.
    destruct (read_digits s') as [u r']. destruct (_ && _); [ | discriminate].
    now injection H as _ <-.
  - apply Hgen.
    assert (H' : (let '(u, r') := read_digits (String a s') in
                  if int_part_ok u && number_ends r'
                  then Some (JNum (Z.of_uint u), r') else None) = Some (v, r)).
    { destruct a as [[ | ] [ | ] [ | ] [ | ] [ | ] [ | ] [ | ] [ | ]];
        try exact H; discriminate Ea. }
    clear H. destruct (read_digits (String a s')) as [u r'].
    destruct (_ && _); [ | discriminate]. now injection H' as _ <-.
Qed.

Lemma literal_scan (word : string) (c v : json) (s r : string) :
  literal word c s = Some (v, r) -> strip_prefix word s = Some r.
Proof.
  unfold literal. destruct (strip_prefix word s); [ | discriminate].
  intros H. now injection H as _ <-.
Qed.

(** Whatever [JSON_parse] reads, the recogniser accepts, with the same
    rest. *)
Lemma parse_scan (fuel : nat) :
  (forall s v r, parse_value fuel s = Some (v, r) -> scan_value fuel s = Some r) /\
  (forall s l r, parse_elements fuel s = Some (l, r) -> scan_elements fuel s = Some r) /\
  (forall s m r, parse_members fuel s = Some (m, r) -> scan_members fuel s = Some r).
Proof.
  induction fuel as [ | fuel (IHv & IHe & IHm)]; [repeat split; discriminate | ].
  repeat split.
  - intros s v r H. cbn [parse_value] in H. cbn [scan_value].
    destruct (skip_ws s) as [ | a s']; [discriminate | ].
    destruct (Ascii.eqb a "n"); [now apply literal_scan in H | ].
    destruct (Ascii.eqb a "t"); [now apply literal_scan in H | ].
    destruct (Ascii.eqb a "f"); [now apply literal_scan in H | ].
    destruct (Ascii.eqb a dquote).
    { destruct (parse_string_body s') as [[str r'] | ] eqn:E; [ | discriminate].
      injection H as _ <-. exact (parse_string_body_scan _ _ _ E). }
    destruct (Ascii.eqb a "[").
    { destruct (skip_ws s') as [ | b r']; [discriminate | ].
      destruct (Ascii.eqb b "]"); [now injection H as _ <- | ].
      destruct (parse_elements fuel s') as [[l r''] | ] eqn:E; [ | discriminate].
      injection H as _ <-. exact (IHe _ _ _ E). }
    destruct (Ascii.eqb a "{").
    { destruct (skip_ws s') as [ | b r']; [discriminate | ].
      destruct (Ascii.eqb b "}"); [now injection H as _ <- | ].
      destruct (parse_members fuel s') as [[m r''] | ] eqn:E; [ | discriminate].
      injection H as _ <-. exact (IHm _ _ _ E). }
    exact (parse_number_scan _ _ _ H).
  - intros s l r H. rewrite parse_elements_eq in H. cbn [scan_elements].
    destruct (parse_value fuel s) as [[v r0] | ] eqn:Ev; [ | discriminate].
    rewrite (IHv _ _ _ Ev).
    destruct (skip_ws r0) as [ | b r']; [discriminate | ].
    destruct (Ascii.eqb b ",").
    + destruct (parse_elements fuel r') as [[l' r''] | ] eqn:E; [ | discriminate].
      injection H as _ <-. exact (IHe _ _ _ E).
    + destruct (Ascii.eqb b "]"); [ | discriminate]. now injection H as _ <-.
  - intros s m r H. cbn [parse_members] in H. cbn [scan_members].
    destruct (skip_ws s) as [ | q s']; [discriminate | ].
    destruct (Ascii.eqb q dquote); [ | discriminate].
    destruct (parse_string_body s') as [[k r1] | ] eqn:Ek; [ | discriminate].
    rewrite (parse_string_body_scan _ _ _ Ek).
    destruct (skip_ws r1) as [ | c r2]; [discriminate | ].
    destruct (Ascii.eqb c ":"); [ | discriminate].
    destruct (parse_value fuel r2) as [[v r3] | ] eqn:Ev; [ | discriminate].
    rewrite (IHv _ _ _ Ev).
    destruct (skip_ws r3) as [ | b r4]; [discriminate | ].
    destruct (Ascii.eqb b ",").
    + destruct (parse_members fuel r4) as [[m' r5] | ] eqn:E; [ | discriminate].
      injection H as _ <-. exact (IHm _ _ _ E).
    + destruct (Ascii.eqb b "}"); [ | discriminate]. now injection H as _ <-.
Qed.

(** So a text that is not JSON is a text [JSON_parse] refuses. *)
Lemma JSON_parse_valid (text : string) (v : json) :
  JSON_parse text = Some v -> valid_json text = true.
Proof.
  unfold JSON_parse, valid_json. intros H.
  destruct (parse_value _ text) as [[v' r] | ] eqn:E; [ | discriminate].
  rewrite (proj1 (parse_scan _) _ _ _ E).
  now destruct (skip_ws r).
Qed.

Lemma not_json_parse (text : string) :
  valid_json text = false -> JSON_parse text = None.
Proof.
  intros H. destruct (JSON_parse text) as [v | ] eqn:E; [ | reflexivity].
  apply JSON_parse_valid in E. congruence.
Qed.

(** *** The fuel of [valid_json] is enough *)

Lemma skip_digits_length (s : string) :
  (String.length (skip_digits s) <= String.length s)%nat.
Proof.
  induction s as [ | a s IH]; simpl; [lia | ].
  destruct (is_digit a); simpl; lia.
Qed.

Lemma scan_digits1_length (s r : string) :
  scan_digits1 s = Some r -> (String.length r < String.length s)%nat.
Proof.
  destruct s as [ | a s]; simpl; [discriminate | ].
  destruct (is_digit a); [ | discriminate]. intros H. injection H as <-.
  pose proof (skip_digits_length s). lia.
Qed.

Lemma scan_fraction_length (s r : string) :
  scan_fraction s = Some r -> (String.length r <= String.length s)%nat.
Proof.
  destruct s as [ | a s]; simpl; [intros H; injection H as <-; simpl; lia | ].
  destruct (Ascii.eqb a ".").
  - intros H. apply scan_digits1_length in H. lia.
  - intros H. injection H as <-. simpl. lia.
Qed.

Lemma scan_exponent_length (s r : string) :
  scan_exponent s = Some r -> (String.length r <= String.length s)%nat.
Proof.
  destruct s as [ | a s]; simpl; [intros H; injection H as <-; simpl; lia | ].
  destruct (Ascii.eqb a "e" || Ascii.eqb a "E").
  - destruct s as [ | b s']; [discriminate | ].
    destruct (Ascii.eqb b "+" || Ascii.eqb b "-"); intros H;
      apply scan_digits1_length in H; simpl in *; lia.
  - intros H. injection H as <-. simpl. lia.
Qed.

Lemma scan_number_length (s r : string) :
  scan_number s = Some r -> (String.length r < String.length s)%nat.
Proof.
  unfold scan_number, scan_int.
  set (digits := match s with
                 | String a r0 => if Ascii.eqb a "-" then r0 else s
                 | EmptyString => s
                 end).
  assert (Hd : (String.length digits <= String.length s)%nat).
  { subst digits. destruct s as [ | a s']; [simpl; lia | ].
    destruct (Ascii.eqb a "-"); simpl; lia. }
  destruct (read_digits_length digits) as [_ Hlt].
  destruct (read_digits digits) as [u r0]. cbn [fst snd] in Hlt.
  destruct (int_part_ok u) eqn:Hok; [ | discriminate].
  assert (Hu : u <> Nil) by (now destruct u).
  specialize (Hlt Hu).
  destruct (scan_fraction r0) as [r1 | ] eqn:Ef; [ | discriminate].
  intros He. apply scan_fraction_length in Ef. apply scan_exponent_length in He. lia.
Qed.

Lemma scan_string_body_length (s r : string) :
  scan_string_body s = Some r -> (String.length r < String.length s)%nat.
Proof.
  remember (String.length s) as n eqn:Hn.
  revert s r Hn. induction n as [n IH] using lt_wf_ind.
  intros s r Hn H. destruct s as [ | a s]; [discriminate | ].
  simpl in Hn. cbn [scan_string_body] in H.
  destruct (Ascii.eqb a dquote); [injection H as <-; lia | ].
  destruct (Ascii.eqb a backslash).
  - destruct s as [ | e s1]; [discriminate | ].
    destruct (Ascii.eqb e "u").
    + destruct s1 as [ | h1 [ | h2 [ | h3 [ | h4 r2]]]]; try discriminate.
      destruct (hex4 h1 h2 h3 h4) as [c | ]; [ | discriminate].
      simpl in Hn.
      pose proof (IH (String.length r2) ltac:(lia) r2 r eq_refl H). lia.
    + destruct (unescape_simple e) as [c | ]; [ | discriminate].
      simpl in Hn.
      pose proof (IH (String.length s1) ltac:(lia) s1 r eq_refl H). lia.
  - destruct (N_of_ascii a <? 32)%N; [discriminate | ].
    pose proof (IH (String.length s) ltac:(lia) s r eq_refl H). lia.
Qed.

Lemma strip_prefix_shorter (word s r : string) :
  nonempty word = true ->
  strip_prefix word s = Some r -> (String.length r < String.length s)%nat.
Proof.
  intros Hw H. apply strip_prefix_length in H.
  destruct word; [discriminate | ]. simpl in H. lia.
Qed.

(** A scan that succeeds with some fuel succeeds with any fuel above twice
    the number of characters it consumes. *)
Lemma scan_fuel (fuel : nat) :
  (forall s r, scan_value fuel s = Some r ->
     (String.length r < String.length s)%nat /\
     forall f, (2 * (String.length s - String.length r) - 1 <= f)%nat ->
               scan_value f s = Some r) /\
  (forall s r, scan_elements fuel s = Some r ->
     (String.length r + 2 <= String.length s)%nat /\
     forall f, (2 * (String.length s - String.length r) - 2 <= f)%nat ->
               scan_elements f s = Some r) /\
  (forall s r, scan_members fuel s = Some r ->
     (String.length r + 2 <= String.length s)%nat /\
     forall f, (2 * (String.length s - String.length r) - 2 <= f)%nat ->
               scan_members f s = Some r).
Proof.
  induction fuel as [ | fuel (IHv & IHe & IHm)]; [repeat split; discriminate | ].
  split; [ | split].
  - intros s r H. cbn [scan_value] in H.
    destruct (skip_ws s) as [ | a s'] eqn:Es; [discriminate | ].
    pose proof (skip_ws_length s) as Hs. rewrite Es in Hs. simpl in Hs.
    destruct (Ascii.eqb a "n") eqn:En.
    { pose proof (strip_prefix_shorter "null" _ _ eq_refl H) as Hl. simpl in Hl.
      split; [lia | ]. intros [ | f] Hf; [lia | ].
      cbn [scan_value]. now rewrite Es, En. }
    destruct (Ascii.eqb a "t") eqn:Et.
    { pose proof (strip_prefix_shorter "true" _ _ eq_refl H) as Hl. simpl in Hl.
      split; [lia | ]. intros [ | f] Hf; [lia | ].
      cbn [scan_value]. now rewrite Es, En, Et. }
    destruct (Ascii.eqb a "f") eqn:Ef.
    { pose proof (strip_prefix_shorter "false" _ _ eq_refl H) as Hl. simpl in Hl.
      split; [lia | ]. intros [ | f] Hf; [lia | ].
      cbn [scan_value]. now rewrite Es, En, Et, Ef. }
    destruct (Ascii.eqb a dquote) eqn:Eq.
    { pose proof (scan_string_body_length _ _ H) as Hl.
      split; [lia | ]. intros [ | f] Hf; [lia | ].
      cbn [scan_value]. now rewrite Es, En, Et, Ef, Eq. }
    destruct (Ascii.eqb a "[") eqn:El.
    { destruct (skip_ws s') as [ | b r'] eqn:Es'; [discriminate | ].
      pose proof (skip_ws_cons _ _ _ Es') as Hl.
      destruct (Ascii.eqb b "]") eqn:Eb.
      - injection H as <-. split; [lia | ]. intros [ | f] Hf; [lia | ].
        cbn [scan_value]. now rewrite Es, En, Et, Ef, Eq, El, Es', Eb.
      - destruct (IHe _ _ H) as [Hc Hf'].
        split; [lia | ]. intros [ | f] Hf; [lia | ].
        cbn [scan_value]. rewrite Es, En, Et, Ef, Eq, El, Es', Eb.
        now rewrite (Hf' f ltac:(lia)). }
    destruct (Ascii.eqb a "{") eqn:Em.
    { destruct (skip_ws s') as [ | b r'] eqn:Es'; [discriminate | ].
      pose proof (skip_ws_cons _ _ _ Es') as Hl.
      destruct (Ascii.eqb b "}") eqn:Eb.
      - injection H as <-. split; [lia | ]. intros [ | f] Hf; [lia | ].
        cbn [scan_value]. now rewrite Es, En, Et, Ef, Eq, El, Em, Es', Eb.
      - destruct (IHm _ _ H) as [Hc Hf'].
        split; [lia | ]. intros [ | f] Hf; [lia | ].
        cbn [scan_value]. rewrite Es, En, Et, Ef, Eq, El, Em, Es', Eb.
        now rewrite (Hf' f ltac:(lia)). }
    pose proof (scan_number_length _ _ H) as Hl. simpl in Hl.
    split; [lia | ]. intros [ | f] Hf; [lia | ].
    cbn [scan_value]. now rewrite Es, En, Et, Ef, Eq, El, Em.
  - intros s r H. cbn [scan_elements] in H.
    destruct (scan_value fuel s) as [r1 | ] eqn:Ev; [ | discriminate].
    destruct (IHv _ _ Ev) as [Hc1 Hf1].
    destruct (skip_ws r1) as [ | b r'] eqn:Es; [discriminate | ].
    pose proof (skip_ws_cons _ _ _ Es) as Hl.
    destruct (Ascii.eqb b ",") eqn:Eb.
    + destruct (IHe _ _ H) as [Hc2 Hf2].
      split; [lia | ]. intros [ | f] Hf; [lia | ].
      cbn [scan_elements]. rewrite (Hf1 f ltac:(lia)), Es, Eb.
      now rewrite (Hf2 f ltac:(lia)).
    + destruct (Ascii.eqb b "]") eqn:Eb'; [ | discriminate].
      injection H as <-.
      split; [lia | ]. intros [ | f] Hf; [lia | ].
      cbn [scan_elements]. now rewrite (Hf1 f ltac:(lia)), Es, Eb, Eb'.
  - intros s r H. cbn [scan_members] in H.
    destruct (skip_ws s) as [ | q s'] eqn:Es; [discriminate | ].
    pose proof (skip_ws_length s) as Hs. rewrite Es in Hs. simpl in Hs.
    destruct (Ascii.eqb q dquote) eqn:Eq; [ | discriminate].
    destruct (scan_string_body s') as [r1 | ] eqn:Ek; [ | discriminate].
    pose proof (scan_string_body_length _ _ Ek) as Hk.
    destruct (skip_ws r1) as [ | c r2] eqn:Es1; [discriminate | ].
    pose proof (skip_ws_cons _ _ _ Es1) as Hl1.
    destruct (Ascii.eqb c ":") eqn:Ec; [ | discriminate].
    destruct (scan_value fuel r2) as [r3 | ] eqn:Ev; [ | discriminate].
    destruct (IHv _ _ Ev) as [Hc1 Hf1].
    destruct (skip_ws r3) as [ | b r4] eqn:Es3; [discriminate | ].
    pose proof (skip_ws_cons _ _ _ Es3) as Hl3.
    destruct (Ascii.eqb b ",") eqn:Eb.
    + destruct (IHm _ _ H) as [Hc2 Hf2].
      split; [lia | ]. intros [ | f] Hf; [lia | ].
      cbn [scan_members]. rewrite Es, Eq, Ek, Es1, Ec, (Hf1 f ltac:(lia)), Es3, Eb.
      now rewrite (Hf2 f ltac:(lia)).
    + destruct (Ascii.eqb b "}") eqn:Eb'; [ | discriminate].
      injection H as <-.
      split; [lia | ]. intros [ | f] Hf; [lia | ].
      cbn [scan_members].
      now rewrite Es, Eq, Ek, Es1, Ec, (Hf1 f ltac:(lia)), Es3, Eb, Eb'.
Qed.

(** So [valid_json] refuses only a text that no amount of fuel scans. *)
Lemma valid_json_fuel (fuel : nat) (text r : string) :
  scan_value fuel text = Some r ->
  skip_ws r = EmptyString ->
  valid_json text = true.
Proof.
  intros H Hr. destruct (proj1 (scan_fuel fuel) _ _ H) as [_ Hf].
  assert (Hfuel : (2 * (String.length text - String.length r) - 1
                   <= 2 * String.length text + 2)%nat) by lia.
  unfold valid_json. rewrite (Hf _ Hfuel), Hr. reflexivity.
Qed.

(* ===================================================================== *)
(** ** Facts: the session coordinator *)
(* ===================================================================== *)

#[local] Arguments dispatchAuthChange : simpl never.
#[local] Arguments syncAuthState : simpl never.
#[local] Arguments JSON_parse : simpl never.
#[local] Arguments JSON_stringify : simpl never.

(** Unfolding the plumbing of [JS] programs. *)
Ltac js_simpl :=
  cbv beta delta
    [exec result when bind try_catch effect read ret throw
     getToken getItem setItem removeItem console_error alert
     set_location_href setTimeout setAuthState log_and_rethrow] in *;
  cbn beta iota zeta delta
    [fst snd localStorage isLoggingOut appState clock timers effects
     with_storage with_flag with_app with_timers emit] in *.

(** No token is left once both entries are removed. *)
Ltac store_cleared :=
  cbn; rewrite lookup_delete_ne by done; rewrite lookup_delete_eq; reflexivity.

Lemma clear_session_token (m : gmap string string) :
  clear_session m !! "token" = None.
Proof. unfold clear_session. rewrite lookup_delete_ne by done. apply lookup_delete_eq. Qed.

Lemma clear_session_user (m : gmap string string) :
  clear_session m !! "user" = None.
Proof. unfold clear_session. apply lookup_delete_eq. Qed.

(** The derivation never throws. *)
Lemma syncAuthState_normal (w : World) : result syncAuthState w = Normal tt.
Proof.
  unfold syncAuthState, JSON_parse_js. js_simpl.
  destruct (truthy_item (localStorage w !! "token") &&
            truthy_item (localStorage w !! "user")); [ | reflexivity].
  destruct (JSON_parse _); reflexivity.
Qed.

(** Without a usable token the derivation only sets the state. *)
Lemma syncAuthState_no_token (w : World) :
  truthy_item (localStorage w !! "token") = false ->
  syncAuthState w = (with_app (Some anonymousState) w, Normal tt).
Proof.
  intros H. unfold syncAuthState. js_simpl. now rewrite H.
Qed.

(** With a token and an identity that parses, it reports the identity and
    leaves the store alone. *)
Lemma syncAuthState_parsed (w : World) (u : string) (v : json) :
  truthy_item (localStorage w !! "token") = true ->
  localStorage w !! "user" = Some u -> JSON_parse u = Some v ->
  syncAuthState w = (with_app (Some (mkAuthState true v false)) w, Normal tt).
Proof.
  intros Ht Hu Hv. unfold syncAuthState, JSON_parse_js. js_simpl.
  rewrite Ht, Hu. simpl.
  assert (Hne : nonempty u = true) by (destruct u; [discriminate Hv | reflexivity]).
  rewrite Hne, Hv. reflexivity.
Qed.

Lemma dispatchAuthChange_no_token (w : World) :
  truthy_item (localStorage w !! "token") = false ->
  dispatchAuthChange w = (seen_anonymous (emit (Dispatched "authChange") w), Normal tt).
Proof.
  intros H. unfold dispatchAuthChange, seen_anonymous. js_simpl.
  destruct (appState w); [ | reflexivity].
  now rewrite syncAuthState_no_token.
Qed.

(** Either way the listener leaves the store untouched once the identity
    parses, or no usable token is stored. *)
Lemma dispatchAuthChange_parsed (w : World) (u : string) (v : json) :
  localStorage w !! "user" = Some u -> JSON_parse u = Some v ->
  exists a,
    dispatchAuthChange w =
      (with_app a (emit (Dispatched "authChange") w), Normal tt) /\
    (truthy_item (localStorage w !! "token") = true -> appState w <> None ->
     a = Some (mkAuthState true v false)).
Proof.
  intros Hu Hv. unfold dispatchAuthChange. js_simpl.
  destruct (appState w) as [a0 | ] eqn:Ea.
  - destruct (truthy_item (localStorage w !! "token")) eqn:Et.
    + eexists. rewrite (syncAuthState_parsed _ u v); [ | exact Et | exact Hu | exact Hv].
      split; [reflexivity | ]. intros _ _. reflexivity.
    + eexists. rewrite syncAuthState_no_token by exact Et.
      split; [reflexivity | ]. intros Hc. discriminate Hc.
  - exists None. split; [ | intros _ Hc; now contradiction Hc].
    unfold with_app, emit. cbn. now rewrite Ea.
Qed.

Lemma seen_anonymous_flag (w : World) : isLoggingOut (seen_anonymous w) = isLoggingOut w.
Proof. unfold seen_anonymous. now destruct (appState w). Qed.

Lemma authFetch_resume_401 (res : Response) (w : World) :
  status res = 401 ->
  authFetch_resume (Responded res) w =
    (emit (ConsoleError "API request failed:" (Some AuthenticationFailed))
       (after_auth_failure msg_expired
          (emit (ConsoleError "Authentication failed - clearing session" None) w)),
     Throw AuthenticationFailed).
Proof.
  intros Hs. unfold authFetch_resume, authFetch_settled. rewrite Hs.
  change (401 =? 401) with true. cbv iota. js_simpl.
  rewrite dispatchAuthChange_no_token by store_cleared.
  unfold after_auth_failure. cbn [isLoggingOut emit]. rewrite seen_anonymous_flag.
  cbn [isLoggingOut emit with_storage].
  destruct (isLoggingOut w); reflexivity.
Qed.

Lemma authFetch_resume_403 (res : Response) (w : World) :
  status res = 403 ->
  authFetch_resume (Responded res) w =
    (emit (ConsoleError "API request failed:" (Some AuthorizationFailed))
       (after_auth_failure msg_outdated
          (emit (ConsoleError
                   "Access forbidden - your session may be outdated. Please log in again."
                   None) w)),
     Throw AuthorizationFailed).
Proof.
  intros Hs. unfold authFetch_resume, authFetch_settled. rewrite Hs.
  change (403 =? 401) with false. change (403 =? 403) with true. cbv iota. js_simpl.
  rewrite dispatchAuthChange_no_token by store_cleared.
  unfold after_auth_failure. cbn [isLoggingOut emit]. rewrite seen_anonymous_flag.
  cbn [isLoggingOut emit with_storage].
  destruct (isLoggingOut w); reflexivity.
Qed.

Lemma authFetchFormData_resume_401 (res : Response) (w : World) :
  status res = 401 ->
  authFetchFormData_resume (Responded res) w =
    (emit (ConsoleError "API request failed:" (Some AuthenticationFailed))
       (after_auth_failure msg_expired w),
     Throw AuthenticationFailed).
Proof.
  intros Hs. unfold authFetchFormData_resume, authFetchFormData_settled. rewrite Hs.
  change (401 =? 401) with true. cbv iota. js_simpl.
  rewrite dispatchAuthChange_no_token by store_cleared.
  unfold after_auth_failure. cbn [isLoggingOut emit]. rewrite seen_anonymous_flag.
  cbn [isLoggingOut emit with_storage].
  destruct (isLoggingOut w); reflexivity.
Qed.

(** Any other status comes back from the upload gateway as it is. *)
Lemma authFetchFormData_resume_other (res : Response) (w : World) :
  status res <> 401 ->
  authFetchFormData_resume (Responded res) w = (w, Normal res).
Proof.
  intros Hs. unfold authFetchFormData_resume, authFetchFormData_settled.
  apply Z.eqb_neq in Hs. rewrite Hs. reflexivity.
Qed.

Lemma authFetch_resume_other (res : Response) (w : World) :
  status res <> 401 -> status res <> 403 ->
  authFetch_resume (Responded res) w = (w, Normal res).
Proof.
  intros H1 H3. unfold authFetch_resume, authFetch_settled.
  apply Z.eqb_neq in H1, H3. rewrite H1, H3. reflexivity.
Qed.

(** A network failure is logged and rethrown unchanged. *)
Lemma authFetch_resume_network (e : JsError) (w : World) :
  authFetch_resume (NetworkFailure e) w =
    (emit (ConsoleError "API request failed:" (Some e)) w, Throw e).
Proof. reflexivity. Qed.

(** The world after the failure path, field by field. *)
Lemma after_auth_failure_spec (notice : string) (w : World) :
  let w' := after_auth_failure notice w in
  localStorage w' = clear_session (localStorage w) /\
  effects w' =
    effects w ++ [Dispatched "authChange"]
      ++ (if isLoggingOut w then [] else [Alert notice])
      ++ [LocationHref "/login"] /\
  isLoggingOut w' = isLoggingOut w /\
  timers w' = timers w /\ clock w' = clock w /\
  appState w' = match appState w with Some _ => Some anonymousState | None => None end.
Proof.
  destruct w as [st fl ap ck ts ef].
  unfold after_auth_failure, seen_anonymous. cbn.
  destruct ap, fl; cbn; rewrite <- ?app_assoc; repeat split; reflexivity.
Qed.

Lemma new_effects_app (w w' : World) (es : list Effect) :
  effects w' = effects w ++ es -> new_effects w w' = es.
Proof. intros H. unfold new_effects. rewrite H. apply drop_app_length. Qed.

(** The derivation, case by case. *)
Lemma syncAuthState_spec (w : World) :
  syncAuthState w =
  if truthy_item (localStorage w !! "token") && truthy_item (localStorage w !! "user")
  then
    match JSON_parse (interpolate_item (localStorage w !! "user")) with
    | Some v => (with_app (Some (mkAuthState true v false)) w, Normal tt)
    | None =>
        (with_app (Some anonymousState)
           (with_storage clear_session
              (emit (ConsoleError "Failed to parse user data:" (Some SyntaxError)) w)),
         Normal tt)
    end
  else (with_app (Some anonymousState) w, Normal tt).
Proof.
  unfold syncAuthState, JSON_parse_js. js_simpl.
  destruct (truthy_item (localStorage w !! "token") &&
            truthy_item (localStorage w !! "user")); [ | reflexivity].
  destruct (JSON_parse _); reflexivity.
Qed.

(** The sibling path: the derivation of [App] catches the same failure,
    purges both entries and reports an anonymous session. *)
Lemma syncAuthState_malformed (w : World) (t s : string) :
  localStorage w !! "token" = Some t -> nonempty t = true ->
  localStorage w !! "user" = Some s -> nonempty s = true ->
  JSON_parse s = None ->
  let w' := exec syncAuthState w in
  result syncAuthState w = Normal tt /\
  session_status w' = Anonymous /\
  localStorage w' = clear_session (localStorage w).
Proof.
  intros Ht Hnt Hu Hns Hp w'. subst w'. unfold exec, result.
  rewrite syncAuthState_spec, Ht, Hu. cbn. rewrite Hnt, Hns. cbn. rewrite Hp.
  repeat split.
Qed.

(** *** Logout and the reset timer *)

Lemma logout_spec (w : World) :
  result logout w = Normal tt /\
  let w' := exec logout w in
  isLoggingOut w' = true /\
  localStorage w' = clear_session (localStorage w) /\
  timers w' = timers w ++ [((clock w + 1000)%nat, ResetLoggingOut)] /\
  clock w' = clock w /\
  effects w' = effects w ++ [Dispatched "authChange"; LocationHref "/login"] /\
  appState w' = match appState w with Some _ => Some anonymousState | None => None end.
Proof.
  destruct w as [st fl ap ck ts ef].
  unfold logout. js_simpl.
  rewrite dispatchAuthChange_no_token by store_cleared.
  unfold seen_anonymous. destruct ap; cbn; rewrite <- ?app_assoc; repeat split; reflexivity.
Qed.

Lemma run_callbacks_spec (due : list (nat * TimerCallback)) (w : World) :
  let w' := fold_left (fun w' p => run_callback (snd p) w') due w in
  isLoggingOut w' = (match due with [] => isLoggingOut w | _ :: _ => false end) /\
  localStorage w' = localStorage w /\ effects w' = effects w /\
  appState w' = appState w /\ timers w' = timers w /\ clock w' = clock w.
Proof.
  revert w. induction due as [ | [d cb] due IH]; intros w; [repeat split | ].
  cbn [fold_left]. destruct (IH (run_callback (snd (d, cb)) w)) as (Hf & Hs & He & Ha & Ht & Hc).
  destruct cb. cbn in *.
  rewrite Hs, He, Ha, Ht, Hc. split; [ | repeat split].
  rewrite Hf. now destruct due.
Qed.

Lemma advance_spec (dt : nat) (w : World) :
  let w' := advance dt w in
  let due := List.filter (fun p => (fst p <=? clock w + dt)%nat) (timers w) in
  isLoggingOut w' = (match due with [] => isLoggingOut w | _ :: _ => false end) /\
  localStorage w' = localStorage w /\ effects w' = effects w /\
  appState w' = appState w /\ clock w' = (clock w + dt)%nat.
Proof.
  unfold advance.
  destruct (run_callbacks_spec
              (List.filter (fun p => (fst p <=? clock w + dt)%nat) (timers w))
              (with_timers (clock w + dt)
                 (List.filter (fun p => negb (fst p <=? clock w + dt)%nat) (timers w)) w))
    as (Hf & Hs & He & Ha & _ & Hc).
  cbn zeta. rewrite Hf, Hs, He, Ha, Hc. repeat split.
Qed.




(** From the timeout on, the reset of this logout is due. *)
Lemma own_reset_due (ts : list (nat * TimerCallback)) (d t : nat) (cb : TimerCallback) :
  (d <= t)%nat ->
  List.filter (fun p => (fst p <=? t)%nat) (ts ++ [(d, cb)]) <> [].
Proof.
  intros Hd H.
  assert (Hin : In (d, cb) (List.filter (fun p => (fst p <=? t)%nat) (ts ++ [(d, cb)]))).
  { apply filter_In. split; [apply in_or_app; right; now left | cbn; now apply Nat.leb_le]. }
  rewrite H in Hin. destruct Hin.
Qed.


(** What a 401 does on either gateway function, by the flag. *)
Lemma gateway_401 (res : Response) (w : World) :
  status res = 401 ->
  let w' := exec (authFetch_resume (Responded res)) w in
  let u' := exec (authFetchFormData_resume (Responded res)) w in
  alerts (new_effects w w') = (if isLoggingOut w then [] else [msg_expired]) /\
  alerts (new_effects w u') = (if isLoggingOut w then [] else [msg_expired]) /\
  localStorage w' = clear_session (localStorage w) /\
  localStorage u' = clear_session (localStorage w) /\
  LocationHref "/login" ∈ new_effects w w' /\
  LocationHref "/login" ∈ new_effects w u' /\
  result (authFetch_resume (Responded res)) w = Throw AuthenticationFailed /\
  result (authFetchFormData_resume (Responded res)) w = Throw AuthenticationFailed.
Proof.
  intros Hs w' u'. subst w' u'. unfold exec, result.
  rewrite (authFetch_resume_401 res w Hs), (authFetchFormData_resume_401 res w Hs).
  cbn [fst snd].
  set (w0 := emit (ConsoleError "Authentication failed - clearing session" None) w).
  destruct (after_auth_failure_spec msg_expired w0) as (Hst & Hef & _).
  destruct (after_auth_failure_spec msg_expired w) as (Hst' & Hef' & _).
  assert (H1 : new_effects w
            (emit (ConsoleError "API request failed:" (Some AuthenticationFailed))
               (after_auth_failure msg_expired w0)) =
          [ConsoleError "Authentication failed - clearing session" None;
           Dispatched "authChange"]
          ++ (if isLoggingOut w then [] else [Alert msg_expired])
          ++ [LocationHref "/login";
              ConsoleError "API request failed:" (Some AuthenticationFailed)]).
  { apply new_effects_app. cbn [effects emit]. rewrite Hef. subst w0. cbn.
    destruct (isLoggingOut w); cbn; rewrite <- !app_assoc; reflexivity. }
  assert (H2 : new_effects w
            (emit (ConsoleError "API request failed:" (Some AuthenticationFailed))
               (after_auth_failure msg_expired w)) =
          [Dispatched "authChange"]
          ++ (if isLoggingOut w then [] else [Alert msg_expired])
          ++ [LocationHref "/login";
              ConsoleError "API request failed:" (Some AuthenticationFailed)]).
  { apply new_effects_app. cbn [effects emit]. rewrite Hef'.
    destruct (isLoggingOut w); cbn; rewrite <- !app_assoc; reflexivity. }
  rewrite H1, H2. cbn [localStorage emit]. rewrite Hst, Hst'. subst w0.
  cbn [localStorage emit].
  destruct (isLoggingOut w); cbn; repeat split;
    apply list_elem_of_In; cbn; auto 10.
Qed.

(** *** The requests the gateway sends *)

Lemma authFetch_request_spec (url : string) (options : Options) (w : World) :
  exists req,
    authFetch_request url options w = (emit (Fetch req) w, Normal req) /\
    req_url req = BASE +:+ url /\
    req_method req = opt_method options /\
    req_body req = opt_body options /\
    req_headers req =
      (let defaults : gmap string string :=
         default ∅ (opt_headers options) ∪ {[ "Content-Type" := "application/json" ]} in
       if truthy_item (localStorage w !! "token")
       then <[ "Authorization" :=
                 "Bearer " +:+ interpolate_item (localStorage w !! "token") ]> defaults
       else defaults).
Proof.
  unfold authFetch_request. js_simpl. eexists. split; [reflexivity | repeat split].
Qed.

Lemma authFetchFormData_request_spec (url : string)
  (formData : list (string * string)) (w : World) :
  exists req,
    authFetchFormData_request url formData w = (emit (Fetch req) w, Normal req) /\
    req_url req = BASE +:+ url /\
    req_method req = Some "POST" /\
    req_body req = Some (FormDataBody formData) /\
    req_headers req =
      (if truthy_item (localStorage w !! "token")
       then <[ "Authorization" :=
                 "Bearer " +:+ interpolate_item (localStorage w !! "token") ]> ∅
       else ∅).
Proof.
  unfold authFetchFormData_request. js_simpl. eexists.
  split; [reflexivity | repeat split].
Qed.

Lemma defaults_lookup_other (h : gmap string string) (k : string) :
  k <> "Content-Type" ->
  (h ∪ {[ "Content-Type" := "application/json" ]}) !! k = h !! k.
Proof.
  intros Hk. rewrite lookup_union, lookup_singleton_ne by done.
  now destruct (h !! k).
Qed.

Lemma defaults_lookup_content_type (h : gmap string string) :
  (h ∪ {[ "Content-Type" := "application/json" ]}) !! "Content-Type"
  = Some (default "application/json" (h !! "Content-Type")).
Proof.
  rewrite lookup_union, lookup_singleton_eq. now destruct (h !! "Content-Type").
Qed.

(** *** Writing and reading the session *)

Lemma obj_get_wf (k : string) (m : list (string * json)) (v : json) :
  wf_json (JObj m) = true -> obj_get k m = Some v -> wf_json v = true.
Proof.
  simpl. intros Hwf. apply andb_true_iff in Hwf as [_ Hvals]. revert Hvals.
  induction m as [ | [k' v'] m IH]; simpl; [discriminate | ].
  intros Hvals Hget. apply andb_true_iff in Hvals as [Hv Hvals].
  destruct (String.eqb k k'); [now injection Hget as <- | now apply IH].
Qed.

(** What the success branch of [login] leaves behind when the response
    carries a string token and a user. *)
Lemma login_resume_stores (res : Response) (m : list (string * json))
  (T : string) (I : json) (w : World) :
  ok res = true ->
  JSON_parse (body res) = Some (JObj m) ->
  obj_get "token" m = Some (JStr T) ->
  obj_get "user" m = Some I ->
  exists a,
    login_resume (Responded res) w =
      (with_app a
         (emit (Dispatched "authChange")
            (with_storage (fun st => <[ "user" := JSON_stringify I ]> (<[ "token" := T ]> st)) w)),
       Normal res) /\
    (nonempty T = true -> appState w <> None -> a = Some (mkAuthState true I false)).
Proof.
  intros Hok Hparse Htok Husr.
  assert (HwfI : wf_json I = true)
    by (eapply obj_get_wf; [exact (JSON_parse_wf _ _ Hparse) | exact Husr]).
  unfold login_resume. rewrite Hok. unfold JSON_parse_js. rewrite Hparse.
  unfold get_member. js_simpl. rewrite Htok, Husr. cbn [to_string_or_undefined js_to_string].
  match goal with
  | |- context [dispatchAuthChange ?w0] =>
      destruct (dispatchAuthChange_parsed w0 (JSON_stringify I) I) as (a & Hd & Ha);
        [cbn; apply lookup_insert_eq | now apply JSON_parse_stringify | ];
        rewrite Hd
  end.
  exists a. split; [reflexivity | ].
  intros HT Hm. apply Ha; [ | exact Hm].
  cbn. rewrite lookup_insert_ne by done. rewrite lookup_insert_eq. exact HT.
Qed.

Lemma getCurrentUser_stored (w : World) (v : json) :
  wf_json v = true ->
  localStorage w !! "user" = Some (JSON_stringify v) ->
  getCurrentUser w = (w, Normal v).
Proof.
  intros Hwf Hu. unfold getCurrentUser, JSON_parse_js. js_simpl.
  rewrite Hu. cbn. rewrite stringify_nonempty, (JSON_parse_stringify v Hwf). reflexivity.
Qed.

(** *** Merging into the stored identity *)

Lemma obj_get_set (k k' : string) (v : json) (m : list (string * json)) :
  obj_get k (obj_set k' v m) = if String.eqb k k' then Some v else obj_get k m.
Proof.
  induction m as [ | [k0 v0] m IH]; simpl.
  - reflexivity.
  - destruct (String.eqb k' k0) eqn:E0; simpl.
    + apply String.eqb_eq in E0. subst k0. now destruct (String.eqb k k').
    + rewrite IH. destruct (String.eqb k k') eqn:E; [ | reflexivity].
      apply String.eqb_eq in E. subst k'. now rewrite E0.
Qed.

Lemma obj_get_absent (k : string) (m : list (string * json)) :
  k ∉ map fst m -> obj_get k m = None.
Proof.
  induction m as [ | [k0 v0] m IH]; simpl; intros Hk; [reflexivity | ].
  apply not_elem_of_cons in Hk as [Hne Hk].
  destruct (String.eqb k k0) eqn:E; [ | now apply IH].
  apply String.eqb_eq in E. contradiction.
Qed.

(** A property of the result of an assignment comes from the source when
    the source has it, and from the target otherwise. *)
Lemma obj_get_assign (k : string) (acc props : list (string * json)) :
  NoDup (map fst props) ->
  obj_get k (obj_assign acc props) =
  match obj_get k props with
  | Some v => Some v
  | None => obj_get k acc
  end.
Proof.
  revert acc. induction props as [ | [k1 v1] props IH]; intros acc Hnd; [reflexivity | ].
  simpl in Hnd. apply NoDup_cons in Hnd as [Hk1 Hnd].
  unfold obj_assign. simpl fold_left. fold (obj_assign (obj_set k1 v1 acc) props).
  rewrite (IH _ Hnd), obj_get_set. simpl.
  destruct (String.eqb k k1) eqn:E.
  - apply String.eqb_eq in E. subst k1. now rewrite (obj_get_absent _ _ Hk1).
  - reflexivity.
Qed.

Lemma indexed_wf (l : list json) (i : nat) :
  forallb wf_json l = true ->
  forallb (fun kv => wf_json (snd kv)) (indexed i l) = true.
Proof.
  revert i. induction l as [ | x l IH]; intros i; simpl; [reflexivity | ].
  intros H. apply andb_true_iff in H as [Hx Hl]. now rewrite Hx, IH.
Qed.

Lemma own_props_wf (v : json) :
  wf_json v = true -> forallb (fun kv => wf_json (snd kv)) (own_props v) = true.
Proof.
  destruct v as [ | b | n | s | l | m]; simpl; try reflexivity.
  - intros _. apply indexed_wf. induction s; simpl; [reflexivity | assumption].
  - apply indexed_wf.
  - intros H. now apply andb_true_iff in H as [_ H].
Qed.

Lemma spread2_wf (a b : json) :
  wf_json a = true -> wf_json b = true -> wf_json (JObj (spread2 a b)) = true.
Proof.
  intros Ha Hb. unfold spread2.
  apply obj_assign_wf; [ | now apply own_props_wf].
  apply obj_assign_wf; [reflexivity | now apply own_props_wf].
Qed.

(** [getCurrentUser] only reads, and what it returns is well formed. *)
Lemma getCurrentUser_reads (w : World) :
  fst (getCurrentUser w) = w /\
  forall v, snd (getCurrentUser w) = Normal v -> wf_json v = true.
Proof.
  unfold getCurrentUser, JSON_parse_js. js_simpl.
  destruct (truthy_item (localStorage w !! "user")).
  - destruct (JSON_parse _) as [v | ] eqn:E; cbn; split; try reflexivity.
    + intros v' Hv. injection Hv as <-. exact (JSON_parse_wf _ _ E).
    + discriminate.
  - cbn. split; [reflexivity | ]. intros v Hv. now injection Hv as <-.
Qed.

Lemma updateStoredUser_spec (userData : json) (w : World) :
  wf_json userData = true ->
  match snd (getCurrentUser w) with
  | Throw e => updateStoredUser userData w = (w, Throw e)
  | Normal currentUser =>
      if truthy currentUser then
        exists a,
          updateStoredUser userData w =
            (with_app a
               (emit (Dispatched "authChange")
                  (with_storage
                     (insert "user" (JSON_stringify (JObj (spread2 currentUser userData))))
                     w)),
             Normal tt)
      else updateStoredUser userData w = (w, Normal tt)
  end.
Proof.
  intros Hud. destruct (getCurrentUser_reads w) as [Hw Hwf].
  unfold updateStoredUser.
  destruct (getCurrentUser w) as [w0 [cu | e]] eqn:E; cbn [fst snd] in *; subst w0.
  - assert (Hb : forall B (k : json -> JS B), bind getCurrentUser k w = k cu w)
      by (intros B k; unfold bind; now rewrite E).
    rewrite !Hb.
    destruct (truthy cu) eqn:Et; [ | reflexivity].
    js_simpl.
    match goal with
    | |- context [dispatchAuthChange ?w0] =>
        destruct (dispatchAuthChange_parsed w0
                    (JSON_stringify (JObj (spread2 cu userData)))
                    (JObj (spread2 cu userData))) as (a & Hd & _);
          [cbn; apply lookup_insert_eq
          | apply JSON_parse_stringify, spread2_wf; [now apply Hwf | exact Hud]
          | ];
          rewrite Hd
    end.
    exists a. reflexivity.
  - unfold bind. now rewrite E.
Qed.

(** *** Calls around the gateway *)

Lemma plain_fetch_bypasses (mk : option string -> Request) (o : FetchOutcome)
  (w : World) :
  (forall t, req_headers (mk t) !! "Authorization"
             = Some ("Bearer " +:+ interpolate_item t)) ->
  bypasses_gateway (let* token := getItem "token" in plain_fetch (mk token) o) o w.
Proof.
  intros Hh. exists (mk (localStorage w !! "token")).
  assert (E : (let* token := getItem "token" in plain_fetch (mk token) o) w
              = (emit (Fetch (mk (localStorage w !! "token"))) w, passthrough o)).
  { unfold plain_fetch. js_simpl. now destruct o. }
  unfold exec, result. rewrite E. cbn [fst snd].
  split; [reflexivity | ]. split; [apply Hh | ].
  split; [intros Hnone; now rewrite Hh, Hnone | ].
  split; [now intros res -> | ].
  split; [ | repeat split].
  apply new_effects_app. reflexivity.
Qed.

Lemma bearer_headers_authorization (t : option string) :
  bearer_headers t !! "Authorization" = Some ("Bearer " +:+ interpolate_item t).
Proof. unfold bearer_headers. apply lookup_insert_eq. Qed.

(** *** The model at work *)

Example parse_malformed : JSON_parse "{not json" = None.
Proof. vm_compute. reflexivity. Qed.

Example parse_sample_identity :
  JSON_parse (JSON_stringify sample_identity) = Some sample_identity.
Proof. vm_compute. reflexivity. Qed.

Example parse_keeps_last_duplicate :
  JSON_parse
    (JSON_stringify (JObj [("a", JNum 1); ("b", JArr [JNull; JBool true]); ("a", JNum 2)]))
  = Some (JObj [("a", JNum 2); ("b", JArr [JNull; JBool true])]).
Proof. vm_compute. reflexivity. Qed.

Example parse_rejects_leading_zero :
  JSON_parse "01" = None /\ JSON_parse "-7" = Some (JNum (-7)) /\
  JSON_parse " [ 1 , 2 ] " = Some (JArr [JNum 1; JNum 2]).
Proof. vm_compute. repeat split. Qed.

(** Mounting [App] over a malformed identity: the entries are purged and
    the session is anonymous. *)
Example mount_over_malformed :
  session_status (exec App_mount malformed_world) = Anonymous /\
  localStorage (exec App_mount malformed_world) = ∅ /\
  effects (exec App_mount malformed_world)
    = [ConsoleError "Failed to parse user data:" (Some SyntaxError)].
Proof. vm_compute. repeat split. Qed.

(** A logout in a signed-in tab, and the reset 1000 ms later. *)
Example logout_then_reset :
  isLoggingOut (exec logout signed_in_world) = true /\
  timers (exec logout signed_in_world) = [(1000%nat, ResetLoggingOut)] /\
  session_status (exec logout signed_in_world) = Anonymous /\
  isLoggingOut (advance 999 (exec logout signed_in_world)) = true /\
  isLoggingOut (advance 1000 (exec logout signed_in_world)) = false /\
  timers (advance 1000 (exec logout signed_in_world)) = [].
Proof. vm_compute. repeat split. Qed.

(* ===================================================================== *)
(** ** The claims *)
(* ===================================================================== *)

Lemma authFetch_unfold (url : string) (options : Options) (o : FetchOutcome)
  (w : World) :
  authFetch url options o w
  = authFetch_resume o (exec (authFetch_request url options) w).
Proof.
  destruct (authFetch_request_spec url options w) as (req & Hreq & _).
  unfold authFetch, bind, exec. now rewrite Hreq.
Qed.

Lemma authFetchFormData_unfold (url : string) (formData : list (string * string))
  (o : FetchOutcome) (w : World) :
  authFetchFormData url formData o w
  = authFetchFormData_resume o (exec (authFetchFormData_request url formData) w).
Proof.
  destruct (authFetchFormData_request_spec url formData w) as (req & Hreq & _).
  unfold authFetchFormData, bind, exec. now rewrite Hreq.
Qed.

(** Sending a request only adds the request to the effects. *)
Lemma request_frame (url : string) (options : Options)
  (formData : list (string * string)) (w : World) :
  (exists req, exec (authFetch_request url options) w = emit (Fetch req) w) /\
  (exists req, exec (authFetchFormData_request url formData) w = emit (Fetch req) w).
Proof.
  destruct (authFetch_request_spec url options w) as (req & Hreq & _).
  destruct (authFetchFormData_request_spec url formData w) as (req' & Hreq' & _).
  split; [exists req | exists req']; unfold exec; [now rewrite Hreq | now rewrite Hreq'].
Qed.

(** The status decides how [authFetch] goes on. *)
Lemma authFetch_resume_cases (res : Response) (w : World) :
  (status res = 401 /\
   authFetch_resume (Responded res) w =
     (emit (ConsoleError "API request failed:" (Some AuthenticationFailed))
        (after_auth_failure msg_expired
           (emit (ConsoleError "Authentication failed - clearing session" None) w)),
      Throw AuthenticationFailed)) \/
  (status res = 403 /\
   authFetch_resume (Responded res) w =
     (emit (ConsoleError "API request failed:" (Some AuthorizationFailed))
        (after_auth_failure msg_outdated
           (emit (ConsoleError
                    "Access forbidden - your session may be outdated. Please log in again."
                    None) w)),
      Throw AuthorizationFailed)) \/
  (status res <> 401 /\ status res <> 403 /\
   authFetch_resume (Responded res) w = (w, Normal res)).
Proof.
  destruct (Z.eq_dec (status res) 401) as [H1 | H1];
    [left; split; [exact H1 | now apply authFetch_resume_401] | ].
  destruct (Z.eq_dec (status res) 403) as [H3 | H3];
    [right; left; split; [exact H3 | now apply authFetch_resume_403] | ].
  right; right. repeat split; try assumption. now apply authFetch_resume_other.
Qed.

Lemma authFetchFormData_resume_cases (res : Response) (w : World) :
  (status res = 401 /\
   authFetchFormData_resume (Responded res) w =
     (emit (ConsoleError "API request failed:" (Some AuthenticationFailed))
        (after_auth_failure msg_expired w),
      Throw AuthenticationFailed)) \/
  (status res <> 401 /\
   authFetchFormData_resume (Responded res) w = (w, Normal res)).
Proof.
  destruct (Z.eq_dec (status res) 401) as [H1 | H1];
    [left; split; [exact H1 | now apply authFetchFormData_resume_401] | ].
  right. split; [exact H1 | now apply authFetchFormData_resume_other].
Qed.

Lemma resume_effects (o : FetchOutcome) (w : World) :
  (exists more, effects (exec (authFetch_resume o) w) = effects w ++ more) /\
  (exists more, effects (exec (authFetchFormData_resume o) w) = effects w ++ more).
Proof.
  assert (Hfail : forall notice e w0 pre, effects w0 = effects w ++ pre ->
            exists more,
              effects (emit (ConsoleError "API request failed:" (Some e))
                         (after_auth_failure notice w0)) = effects w ++ more).
  { intros notice e w0 pre Hpre.
    destruct (after_auth_failure_spec notice w0) as (_ & Hef & _).
    eexists. cbn [effects emit]. rewrite Hef, Hpre, <- !app_assoc. reflexivity. }
  split; destruct o as [res | e]; unfold exec.
  - destruct (authFetch_resume_cases res w) as [[_ ->] | [[_ ->] | (_ & _ & ->)]]; cbn [fst].
    + eapply Hfail. reflexivity.
    + eapply Hfail. reflexivity.
    + exists []. now rewrite app_nil_r.
  - rewrite authFetch_resume_network. eexists. reflexivity.
  - destruct (authFetchFormData_resume_cases res w) as [[_ ->] | [_ ->]]; cbn [fst].
    + apply (Hfail _ _ w []). now rewrite app_nil_r.
    + exists []. now rewrite app_nil_r.
  - eexists. reflexivity.
Qed.

Lemma login_unfold (email password : string) (o : FetchOutcome) (w : World) :
  exists req,
    login email password o w = login_resume o (emit (Fetch req) w) /\
    req_headers req = json_headers /\
    req_body req = Some (TextBody (JSON_stringify
                     (JObj [("email", JStr email); ("password", JStr password)]))).
Proof. eexists. split; [reflexivity | split; reflexivity]. Qed.

Lemma with_app_same (w : World) : with_app (appState w) w = w.
Proof. now destruct w. Qed.

Lemma syncAuthState_pair (w : World) :
  syncAuthState w = (exec syncAuthState w, Normal tt).
Proof.
  pose proof (syncAuthState_normal w) as H. unfold exec, result in *.
  destruct (syncAuthState w) as [w' c]. cbn in *. now subst c.
Qed.

(** [login] leaves the world as it is or ends with a dispatch after its
    writes. *)
Lemma login_resume_world (o : FetchOutcome) (w : World) :
  exec (login_resume o) w = w \/
  exists m, exec (login_resume o) w = exec dispatchAuthChange (with_storage m w).
Proof.
  unfold exec, login_resume. destruct o as [res | e]; [ | now left].
  destruct (ok res); [ | now left].
  unfold JSON_parse_js. destruct (JSON_parse (body res)) as [data | ]; [ | now left].
  destruct data; unfold get_member; js_simpl; try (now left); right;
    match goal with
    | |- context [dispatchAuthChange (with_storage ?f (with_storage ?g w))] =>
        exists (fun st => f (g st));
        change (with_storage f (with_storage g w))
          with (with_storage (fun st => f (g st)) w);
        destruct (dispatchAuthChange (with_storage (fun st => f (g st)) w))
          as [w1 [[] | err]]; reflexivity
    end.
Qed.

Lemma updateStoredUser_world (userData : json) (w : World) :
  exec (updateStoredUser userData) w = w \/
  exists m, exec (updateStoredUser userData) w
            = exec dispatchAuthChange (with_storage m w).
Proof.
  destruct (getCurrentUser_reads w) as [Hw _].
  unfold exec, updateStoredUser, bind.
  destruct (getCurrentUser w) as [w0 [cu | e]]; cbn [fst] in Hw; subst w0; [ | now left].
  destruct (truthy cu); [ | now left]. right.
  exists (insert "user" (JSON_stringify (JObj (spread2 cu userData)))).
  unfold setItem, effect. cbn [fst]. reflexivity.
Qed.

(** C1. Whenever [authFetch] receives a response with status 401, in
    whatever state [w] the tab then is: both the token and the identity are
    removed from the store, authChange is dispatched, the expired-session
    notice is shown exactly once unless [isLoggingOut] is set (then no notice
    at all), the location is set to /login, and the call is rejected with the
    error [Authentication failed], which differs from the one of a 403.  A
    call that is answered before anything else happens in the tab is the
    case where [w] is the state right after the request went out. *)
Theorem C1_authFetch_401 (res : Response) (w : World) :
  status res = 401 ->
  let w' := exec (authFetch_resume (Responded res)) w in
  result (authFetch_resume (Responded res)) w = Throw AuthenticationFailed /\
  AuthenticationFailed <> AuthorizationFailed /\
  localStorage w' = clear_session (localStorage w) /\
  localStorage w' !! "token" = None /\
  localStorage w' !! "user" = None /\
  new_effects w w' =
    [ConsoleError "Authentication failed - clearing session" None;
     Dispatched "authChange"]
    ++ (if isLoggingOut w then [] else [Alert msg_expired])
    ++ [LocationHref "/login";
        ConsoleError "API request failed:" (Some AuthenticationFailed)] /\
  alerts (new_effects w w') = (if isLoggingOut w then [] else [msg_expired]) /\
  (appState w <> None -> session_status w' = Anonymous) /\
  (forall url options,
     let sent := exec (authFetch_request url options) w in
     authFetch url options (Responded res) w = authFetch_resume (Responded res) sent /\
     result (authFetch url options (Responded res)) w = Throw AuthenticationFailed /\
     localStorage (exec (authFetch url options (Responded res)) w)
       = clear_session (localStorage w) /\
     isLoggingOut sent = isLoggingOut w).
Proof.
  intros Hs w'. subst w'.
  assert (Hcall : forall url options,
     let sent := exec (authFetch_request url options) w in
     authFetch url options (Responded res) w = authFetch_resume (Responded res) sent /\
     result (authFetch url options (Responded res)) w = Throw AuthenticationFailed /\
     localStorage (exec (authFetch url options (Responded res)) w)
       = clear_session (localStorage w) /\
     isLoggingOut sent = isLoggingOut w).
  { intros url options sent. subst sent.
    destruct (authFetch_request_spec url options w) as (req & Hreq & _).
    assert (E : authFetch url options (Responded res) w
                = authFetch_resume (Responded res) (emit (Fetch req) w)).
    { unfold authFetch, bind. now rewrite Hreq. }
    unfold exec, result. rewrite E, Hreq. cbn [fst].
    rewrite (authFetch_resume_401 res _ Hs). cbn [fst snd].
    destruct (after_auth_failure_spec msg_expired
                (emit (ConsoleError "Authentication failed - clearing session" None)
                   (emit (Fetch req) w))) as (Hst & _).
    cbn [localStorage emit]. rewrite Hst. repeat split. }
  unfold exec, result.
  rewrite (authFetch_resume_401 res w Hs). cbn [fst snd].
  set (w0 := emit (ConsoleError "Authentication failed - clearing session" None) w).
  destruct (after_auth_failure_spec msg_expired w0) as (Hst & Hef & Hfl & _ & _ & Hap).
  assert (Hnew : new_effects w
            (emit (ConsoleError "API request failed:" (Some AuthenticationFailed))
               (after_auth_failure msg_expired w0)) =
          [ConsoleError "Authentication failed - clearing session" None;
           Dispatched "authChange"]
          ++ (if isLoggingOut w then [] else [Alert msg_expired])
          ++ [LocationHref "/login";
              ConsoleError "API request failed:" (Some AuthenticationFailed)]).
  { apply new_effects_app. cbn [effects emit]. rewrite Hef. subst w0. cbn.
    destruct (isLoggingOut w); cbn; rewrite <- !app_assoc; reflexivity. }
  split; [reflexivity | ]. split; [discriminate | ].
  cbn [localStorage emit]. rewrite Hst. subst w0. cbn [localStorage emit].
  split; [reflexivity | ].
  split; [apply clear_session_token | ].
  split; [apply clear_session_user | ].
  split; [exact Hnew | ].
  split; [rewrite Hnew; now destruct (isLoggingOut w) | ].
  split; [ | exact Hcall].
  intros Hm. unfold session_status. cbn [appState emit]. rewrite Hap. cbn.
  destruct (appState w); [reflexivity | contradiction].
Qed.

(** C1, at a concrete input: a signed-in tab whose request is answered
    with 401. *)
Lemma C1_authFetch_401_witness :
  status unauthorized = 401 /\
  result (authFetch_resume (Responded unauthorized)) signed_in_world
    = Throw AuthenticationFailed.
Proof.
  split; [reflexivity | ].
  exact (proj1 (C1_authFetch_401 unauthorized signed_in_world eq_refl)).
Defined.

(** C2. A 403 on [authFetch] is handled like a 401, with the outdated-session
    notice and the error [Access forbidden]; the upload variant
    [authFetchFormData] has no branch for 403 and hands the response back
    with the tab untouched: nothing removed, nothing dispatched, no notice,
    no redirect, no rejection. *)
Theorem C2_upload_ignores_403 (w : World) (b : string) :
  let res := mkResponse 403 b in
  let w' := exec (authFetch_resume (Responded res)) w in
  (result (authFetch_resume (Responded res)) w = Throw AuthorizationFailed /\
   localStorage w' = clear_session (localStorage w) /\
   new_effects w w' =
     [ConsoleError
        "Access forbidden - your session may be outdated. Please log in again."
        None;
      Dispatched "authChange"]
     ++ (if isLoggingOut w then [] else [Alert msg_outdated])
     ++ [LocationHref "/login";
         ConsoleError "API request failed:" (Some AuthorizationFailed)]) /\
  authFetchFormData_resume (Responded res) w = (w, Normal res).
Proof.
  intros res w'. subst w'. split.
  - unfold exec, result. rewrite (authFetch_resume_403 res w eq_refl). cbn [fst snd].
    set (w0 := emit (ConsoleError
      "Access forbidden - your session may be outdated. Please log in again." None) w).
    destruct (after_auth_failure_spec msg_outdated w0) as (Hst & Hef & _).
    split; [reflexivity | ]. cbn [localStorage emit]. rewrite Hst.
    split; [reflexivity | ].
    apply new_effects_app. cbn [effects emit]. rewrite Hef. subst w0. cbn.
    destruct (isLoggingOut w); cbn; rewrite <- !app_assoc; reflexivity.
  - apply authFetchFormData_resume_other. discriminate.
Qed.

(** C3. [getCurrentUser] has no guard around [JSON.parse]: on a stored
    identity that is not empty and does not parse it throws the SyntaxError
    and leaves the entry where it is. *)
Theorem C3_getCurrentUser_throws (w : World) (s : string) :
  localStorage w !! "user" = Some s ->
  nonempty s = true ->
  JSON_parse s = None ->
  getCurrentUser w = (w, Throw SyntaxError).
Proof.
  intros Hu Hne Hp. unfold getCurrentUser, JSON_parse_js. js_simpl.
  rewrite Hu. cbn. rewrite Hne, Hp. reflexivity.
Qed.

(** C3, at the input of the scenario: the stored identity is the text
    [{not json]. *)
Lemma C3_getCurrentUser_throws_witness :
  localStorage malformed_world !! "user" = Some "{not json" /\
  getCurrentUser malformed_world = (malformed_world, Throw SyntaxError) /\
  localStorage (exec getCurrentUser malformed_world) !! "user" = Some "{not json".
Proof.
  assert (H : getCurrentUser malformed_world = (malformed_world, Throw SyntaxError)).
  { apply (C3_getCurrentUser_throws malformed_world "{not json");
      [vm_compute; reflexivity | reflexivity | vm_compute; reflexivity]. }
  split; [vm_compute; reflexivity | ]. split; [exact H | ].
  unfold exec. rewrite H. vm_compute. reflexivity.
Defined.






(** C6, as worded, fails twice: with no token stored a caller's own
    Authorization header goes out, and a stored empty token is not
    attached. *)
Lemma C6_bearer_rule_fails :
  ~ bearer_rule_as_specified "/api/v1/cases" options_with_headers fresh_world /\
  ~ bearer_rule_as_specified "/api/v1/cases" no_options empty_token_world.
Proof.
  split; intros (req & Hreq & Hh).
  - destruct (authFetch_request_spec "/api/v1/cases" options_with_headers fresh_world)
      as (req' & Hreq' & _ & _ & _ & Hh').
    rewrite Hreq' in Hreq. injection Hreq as <-.
    rewrite Hh' in Hh. vm_compute in Hh. discriminate Hh.
  - destruct (authFetch_request_spec "/api/v1/cases" no_options empty_token_world)
      as (req' & Hreq' & _ & _ & _ & Hh').
    rewrite Hreq' in Hreq. injection Hreq as <-.
    rewrite Hh' in Hh. vm_compute in Hh. discriminate Hh.
Qed.

(** C6, amended. Both gateway functions send their request without
    throwing.  When a token that is not empty is stored, the request carries
    [Authorization: Bearer] followed by that token, over anything the caller
    supplied, and so for every call until the token is removed.  When no
    token, or an empty one, is stored, the gateway adds no Authorization
    header: an upload carries none, and an [authFetch] request carries one
    only if the caller put it in [options.headers]. *)
Theorem C6_bearer_header (url : string) (options : Options)
  (formData : list (string * string)) (w : World) :
  let stored := localStorage w !! "token" in
  (exists req,
     authFetch_request url options w = (emit (Fetch req) w, Normal req) /\
     req_headers req !! "Authorization" =
       match stored with
       | Some T =>
           if nonempty T then Some ("Bearer " +:+ T)
           else default ∅ (opt_headers options) !! "Authorization"
       | None => default ∅ (opt_headers options) !! "Authorization"
       end) /\
  (exists req,
     authFetchFormData_request url formData w = (emit (Fetch req) w, Normal req) /\
     req_headers req !! "Authorization" =
       match stored with
       | Some T => if nonempty T then Some ("Bearer " +:+ T) else None
       | None => None
       end).
Proof.
  intros stored. subst stored. split.
  - destruct (authFetch_request_spec url options w) as (req & Hreq & _ & _ & _ & Hh).
    exists req. split; [exact Hreq | ]. rewrite Hh. cbn zeta.
    destruct (localStorage w !! "token") as [T | ]; cbn.
    + destruct (nonempty T); [apply lookup_insert_eq | now apply defaults_lookup_other].
    + now apply defaults_lookup_other.
  - destruct (authFetchFormData_request_spec url formData w)
      as (req & Hreq & _ & _ & _ & Hh).
    exists req. split; [exact Hreq | ]. rewrite Hh.
    destruct (localStorage w !! "token") as [T | ]; cbn.
    + destruct (nonempty T); [apply lookup_insert_eq | apply lookup_empty].
    + apply lookup_empty.
Qed.

(** C7, as worded, fails for a caller that supplies its own content type:
    the request goes out with the caller's, not with JSON. *)
Lemma C7_content_type_overridden :
  ~ content_type_rule_as_specified "/api/v1/cases" options_with_headers fresh_world.
Proof.
  intros (req & Hreq & Hh).
  destruct (authFetch_request_spec "/api/v1/cases" options_with_headers fresh_world)
    as (req' & Hreq' & _ & _ & _ & Hh').
  rewrite Hreq' in Hreq. injection Hreq as <-.
  rewrite Hh' in Hh. vm_compute in Hh. discriminate Hh.
Qed.

(** C7, amended. [authFetch] sends the content type the caller supplied in
    [options.headers], and [application/json] when the caller supplied none;
    [authFetchFormData] never sends a content-type header. *)
Theorem C7_content_type (url : string) (options : Options)
  (formData : list (string * string)) (w : World) :
  (exists req,
     authFetch_request url options w = (emit (Fetch req) w, Normal req) /\
     req_headers req !! "Content-Type" =
       Some (default "application/json"
               (default ∅ (opt_headers options) !! "Content-Type"))) /\
  (exists req,
     authFetchFormData_request url formData w = (emit (Fetch req) w, Normal req) /\
     req_headers req !! "Content-Type" = None).
Proof.
  split.
  - destruct (authFetch_request_spec url options w) as (req & Hreq & _ & _ & _ & Hh).
    exists req. split; [exact Hreq | ]. rewrite Hh. cbn zeta.
    destruct (truthy_item _).
    + rewrite lookup_insert_ne by done. apply defaults_lookup_content_type.
    + apply defaults_lookup_content_type.
  - destruct (authFetchFormData_request_spec url formData w)
      as (req & Hreq & _ & _ & _ & Hh).
    exists req. split; [exact Hreq | ]. rewrite Hh.
    destruct (truthy_item _).
    + rewrite lookup_insert_ne by done. apply lookup_empty.
    + apply lookup_empty.
Qed.



(** C9. [updateStoredUser] with a partial record: the stored token is the
    same afterwards in every case; when no identity is stored nothing is
    written and nothing dispatched; when the stored identity parses to a
    record, the entry becomes the text of the shallow merge, in which every
    property of the partial record overrides the stored one and every other
    stored property stays, authChange is dispatched, and [getCurrentUser]
    then returns the merged record. *)
Theorem C9_updateStoredUser (p : list (string * json)) (w : World) :
  wf_json (JObj p) = true ->
  let w' := exec (updateStoredUser (JObj p)) w in
  localStorage w' !! "token" = localStorage w !! "token" /\
  (localStorage w !! "user" = None ->
     updateStoredUser (JObj p) w = (w, Normal tt)) /\
  (forall s cur,
     localStorage w !! "user" = Some s ->
     JSON_parse s = Some (JObj cur) ->
     exists merged,
       result (updateStoredUser (JObj p)) w = Normal tt /\
       localStorage w' !! "user" = Some (JSON_stringify (JObj merged)) /\
       getCurrentUser w' = (w', Normal (JObj merged)) /\
       (forall k, obj_get k merged =
                  match obj_get k p with
                  | Some v => Some v
                  | None => obj_get k cur
                  end) /\
       new_effects w w' = [Dispatched "authChange"]).
Proof.
  intros Hp w'. subst w'.
  pose proof (updateStoredUser_spec (JObj p) w Hp) as Hspec.
  split; [ | split].
  - unfold exec. destruct (snd (getCurrentUser w)) as [cu | e].
    + destruct (truthy cu).
      * destruct Hspec as (a & ->). cbn. now rewrite lookup_insert_ne.
      * now rewrite Hspec.
    + now rewrite Hspec.
  - intros Hnone.
    assert (E : getCurrentUser w = (w, Normal JNull)).
    { unfold getCurrentUser. js_simpl. now rewrite Hnone. }
    rewrite E in Hspec. exact Hspec.
  - intros s cur Hs Hparse.
    assert (Hne : nonempty s = true) by (destruct s; [discriminate Hparse | reflexivity]).
    assert (E : getCurrentUser w = (w, Normal (JObj cur))).
    { unfold getCurrentUser, JSON_parse_js. js_simpl. rewrite Hs. cbn.
      now rewrite Hne, Hparse. }
    rewrite E in Hspec. cbn in Hspec. destruct Hspec as (a & Hupd).
    pose proof (JSON_parse_wf _ _ Hparse) as Hcur.
    assert (Hkeys : NoDup (map fst cur)).
    { simpl in Hcur. apply andb_true_iff in Hcur as [Hk _]. now apply keys_unique_NoDup. }
    assert (Hpkeys : NoDup (map fst p)).
    { simpl in Hp. apply andb_true_iff in Hp as [Hk _]. now apply keys_unique_NoDup. }
    exists (spread2 (JObj cur) (JObj p)).
    unfold exec, result. rewrite Hupd. cbn [fst snd].
    split; [reflexivity | ]. split; [cbn; apply lookup_insert_eq | ].
    split; [ | split].
    + apply getCurrentUser_stored; [now apply spread2_wf | cbn; apply lookup_insert_eq].
    + intros k. unfold spread2. cbn [own_props].
      rewrite (obj_get_assign k _ p Hpkeys).
      rewrite (obj_assign_app [] cur) by exact Hkeys. reflexivity.
    + apply new_effects_app. reflexivity.
Qed.

(** C9, at a concrete input: in a signed-in tab the role is updated; the
    token stays, the role is the new one and the id the stored one. *)
Lemma C9_updateStoredUser_witness :
  wf_json (JObj [("role", JStr "admin")]) = true /\
  localStorage (exec (updateStoredUser (JObj [("role", JStr "admin")])) signed_in_world)
    !! "token" = Some "tok123" /\
  exists merged,
    getCurrentUser (exec (updateStoredUser (JObj [("role", JStr "admin")])) signed_in_world)
    = (exec (updateStoredUser (JObj [("role", JStr "admin")])) signed_in_world,
       Normal (JObj merged)) /\
    obj_get "role" merged = Some (JStr "admin") /\
    obj_get "id" merged = Some (JNum 7).
Proof.
  split; [reflexivity | ].
  destruct (C9_updateStoredUser [("role", JStr "admin")] signed_in_world eq_refl)
    as (Htoken & _ & Hmerge).
  split; [exact Htoken | ].
  destruct (Hmerge (JSON_stringify sample_identity)
              [("id", JNum 7); ("email", JStr "ada@lab.org");
               ("role", JStr "investigator"); ("is_approved", JBool true)])
    as (merged & _ & _ & Hget & Hprops & _).
  - vm_compute. reflexivity.
  - vm_compute. reflexivity.
  - exists merged. split; [exact Hget | ].
    split; [exact (Hprops "role") | exact (Hprops "id")].
Defined.

(** C10. The four investigator functions call [fetch] themselves.  Each
    sends an Authorization header made of [Bearer] and the stored token as
    interpolated, which is the word null when no token is stored, and hands
    the caller whatever [fetch] yields: a response of status 401 or 403 comes
    back as it is, and the store, the flag and the state of [App] are as
    before, with no effect but the request itself: no notice, no authChange,
    no redirect. *)
Theorem C10_investigator_calls (o : FetchOutcome)
  (investigatorId data isAvailable : json) (w : World) :
  bypasses_gateway (getInvestigators o) o w /\
  bypasses_gateway (getInvestigatorDetails investigatorId o) o w /\
  bypasses_gateway (updateInvestigator investigatorId data o) o w /\
  bypasses_gateway (updateInvestigatorAvailability isAvailable o) o w.
Proof.
  repeat split.
  - apply (plain_fetch_bypasses
             (fun t => mkRequest (BASE +:+ "/api/v1/admin/investigators") None
                         (bearer_headers t) None)).
    intros t. apply bearer_headers_authorization.
  - apply (plain_fetch_bypasses
             (fun t => mkRequest
                         (BASE +:+ "/api//v1/admin/investigators/"
                            +:+ js_to_string investigatorId)
                         None (bearer_headers t) None)).
    intros t. apply bearer_headers_authorization.
  - apply (plain_fetch_bypasses
             (fun t => mkRequest
                         (BASE +:+ "/api//v1/admin/investigators/"
                            +:+ js_to_string investigatorId)
                         (Some "PUT") (bearer_headers t)
                         (Some (TextBody (JSON_stringify data))))).
    intros t. apply bearer_headers_authorization.
  - apply (plain_fetch_bypasses
             (fun t => mkRequest (BASE +:+ "/api/v1/investigator/availability")
                         (Some "PUT") (bearer_headers t)
                         (Some (TextBody
                            (JSON_stringify (JObj [("is_available", isAvailable)])))))).
    intros t. apply bearer_headers_authorization.
Qed.

(* ===================================================================== *)
(** ** More facts: the whole of the gateway *)
(* ===================================================================== *)

Lemma resume_frame (o : FetchOutcome) (w : World) :
  gateway_frame w (exec (authFetch_resume o) w) /\
  gateway_frame w (exec (authFetchFormData_resume o) w).
Proof.
  assert (Hfail : forall notice w0,
            isLoggingOut w0 = isLoggingOut w -> timers w0 = timers w ->
            clock w0 = clock w -> localStorage w0 = localStorage w ->
            appState w0 = appState w ->
            gateway_frame w
              (emit (ConsoleError "API request failed:" (Some notice.2))
                 (after_auth_failure notice.1 w0))).
  { intros notice w0 Hf Ht Hc Hs Ha.
    destruct (after_auth_failure_spec notice.1 w0) as (Hst & _ & Hfl & Hti & Hcl & Hap).
    unfold gateway_frame. cbn [isLoggingOut timers clock localStorage appState emit].
    rewrite Hst, Hfl, Hti, Hcl, Hap, Hf, Ht, Hc, Hs, Ha.
    repeat split; [now right | ]. now intros ->. }
  assert (Hsame : gateway_frame w w) by (repeat split; [now left | auto]).
  assert (Hlog : forall e, gateway_frame w (emit (ConsoleError "API request failed:" (Some e)) w))
    by (intros e; repeat split; [now left | auto]).
  split; destruct o as [res | e]; unfold exec.
  - destruct (authFetch_resume_cases res w) as [[_ ->] | [[_ ->] | (_ & _ & ->)]]; cbn [fst].
    + apply (Hfail (msg_expired, AuthenticationFailed)); reflexivity.
    + apply (Hfail (msg_outdated, AuthorizationFailed)); reflexivity.
    + exact Hsame.
  - rewrite authFetch_resume_network. apply Hlog.
  - destruct (authFetchFormData_resume_cases res w) as [[_ ->] | [_ ->]]; cbn [fst].
    + apply (Hfail (msg_expired, AuthenticationFailed)); reflexivity.
    + exact Hsame.
  - apply Hlog.
Qed.

(* ===================================================================== *)
(** ** More properties of the code *)
(* ===================================================================== *)

(** X1. [authFetch] resolves exactly when the network answers with a
    response whose status is neither 401 nor 403; it then hands back that
    very response, whatever its status (a 404, a 422 or a 500 as well), and
    the tab is as the request left it.  So a caller never sees a 401 or a
    403 response. *)
Theorem X1_authFetch_resolves (url : string) (options : Options)
  (o : FetchOutcome) (res : Response) (w : World) :
  (result (authFetch url options o) w = Normal res <->
   o = Responded res /\ status res <> 401 /\ status res <> 403) /\
  (result (authFetch url options o) w = Normal res ->
   exec (authFetch url options o) w = exec (authFetch_request url options) w).
Proof.
  unfold result, exec at 1. rewrite authFetch_unfold.
  set (w1 := exec (authFetch_request url options) w).
  destruct o as [r | e].
  - destruct (authFetch_resume_cases r w1) as [[H1 ->] | [[H3 ->] | (H1 & H3 & ->)]];
      cbn [fst snd].
    + split; [split; [discriminate | ] | discriminate].
      intros (E & Hn & _). injection E as ->. contradiction.
    + split; [split; [discriminate | ] | discriminate].
      intros (E & _ & Hn). injection E as ->. contradiction.
    + split; [ | reflexivity]. split.
      * intros E. injection E as ->. now repeat split.
      * intros (E & _). now injection E as ->.
  - rewrite authFetch_resume_network. cbn [fst snd].
    split; [split; [discriminate | intros (E & _); discriminate E] | discriminate].
Qed.

(** X2. [authFetchFormData] resolves exactly when the network answers with
    a response whose status is not 401, a 403 included; the tab is then as
    the request left it. *)
Theorem X2_upload_resolves (url : string) (formData : list (string * string))
  (o : FetchOutcome) (res : Response) (w : World) :
  (result (authFetchFormData url formData o) w = Normal res <->
   o = Responded res /\ status res <> 401) /\
  (result (authFetchFormData url formData o) w = Normal res ->
   exec (authFetchFormData url formData o) w
   = exec (authFetchFormData_request url formData) w).
Proof.
  unfold result, exec at 1. rewrite authFetchFormData_unfold.
  set (w1 := exec (authFetchFormData_request url formData) w).
  destruct o as [r | e].
  - destruct (authFetchFormData_resume_cases r w1) as [[H1 ->] | [H1 ->]]; cbn [fst snd].
    + split; [split; [discriminate | ] | discriminate].
      intros (E & Hn). injection E as ->. contradiction.
    + split; [ | reflexivity]. split.
      * intros E. injection E as ->. now split.
      * intros (E & _). now injection E as ->.
  - cbn. split; [split; [discriminate | intros (E & _); discriminate E] | discriminate].
Qed.

(** X3. Whatever the network answers, a gateway call never sets or resets
    [isLoggingOut], never touches the timers, never mounts [App], and leaves
    the store either as it was or with token and user removed; every other
    entry of the store stays.  A network failure is rethrown as it came,
    after one console error, with the store as it was and no notice. *)
Theorem X3_gateway_frame (url : string) (options : Options)
  (formData : list (string * string)) (o : FetchOutcome) (w : World) :
  let w' := exec (authFetch url options o) w in
  let u' := exec (authFetchFormData url formData o) w in
  gateway_frame w w' /\ gateway_frame w u' /\
  (forall k, k <> "token" -> k <> "user" ->
     localStorage w' !! k = localStorage w !! k /\
     localStorage u' !! k = localStorage w !! k) /\
  (forall e, o = NetworkFailure e ->
     result (authFetch url options o) w = Throw e /\
     result (authFetchFormData url formData o) w = Throw e /\
     localStorage w' = localStorage w /\ localStorage u' = localStorage w /\
     alerts (new_effects w w') = [] /\ alerts (new_effects w u') = []).
Proof.
  intros w' u'. subst w' u'. unfold exec, result.
  rewrite authFetch_unfold, authFetchFormData_unfold.
  destruct (request_frame url options formData w) as [[req Hreq] [req' Hreq']].
  rewrite Hreq, Hreq'.
  destruct (resume_frame o (emit (Fetch req) w)) as [Hw _].
  destruct (resume_frame o (emit (Fetch req') w)) as [_ Hu].
  unfold exec in Hw, Hu.
  assert (Hkeys : forall w0 : World, gateway_frame w w0 -> forall k,
            k <> "token" -> k <> "user" -> localStorage w0 !! k = localStorage w !! k).
  { intros w0 (_ & _ & _ & [-> | ->] & _) k Ht Hu'; [reflexivity | ].
    unfold clear_session. now rewrite !lookup_delete_ne. }
  split; [exact Hw | ]. split; [exact Hu | ]. split.
  - intros k Ht Hk. split; now apply Hkeys.
  - intros e ->. rewrite authFetch_resume_network.
    change (authFetchFormData_resume (NetworkFailure e) (emit (Fetch req') w))
      with (emit (ConsoleError "API request failed:" (Some e)) (emit (Fetch req') w),
            @Throw Response e).
    cbn [fst snd localStorage emit].
    assert (Hn : forall r, new_effects w
              (emit (ConsoleError "API request failed:" (Some e)) (emit (Fetch r) w))
              = [Fetch r; ConsoleError "API request failed:" (Some e)]).
    { intros r. apply new_effects_app. cbn. now rewrite <- app_assoc. }
    rewrite !Hn. repeat split.
Qed.

(** *** Reading a response *)

Lemma handleApiResponse_error (statusText : Response -> string)
  (response : Response) (w : World) :
  ok response = false ->
  handleApiResponse statusText response w =
  (w, Throw (Error (js_to_string
     match JSON_parse (body response) with
     | Some (JObj m) =>
         if truthy_opt (obj_get "detail" m) then default JNull (obj_get "detail" m)
         else if truthy_opt (obj_get "message" m) then default JNull (obj_get "message" m)
         else JStr "An error occurred"
     | Some JNull | None => JStr (http_line statusText response)
     | Some _ => JStr "An error occurred"
     end))).
Proof.
  intros Hok. unfold handleApiResponse, JSON_parse_js, get_member, http_line.
  rewrite Hok. cbn [negb]. js_simpl.
  destruct (JSON_parse (body response)) as [[ | b | n | s | l | m] | ]; try reflexivity.
  destruct (truthy_opt (obj_get "detail" m)); reflexivity.
Qed.

Lemma handleApiResponse_ok (statusText : Response -> string)
  (response : Response) (w : World) :
  ok response = true ->
  handleApiResponse statusText response w =
  (w, match JSON_parse (body response) with
      | Some v => Normal v
      | None => Throw SyntaxError
      end).
Proof.
  intros Hok. unfold handleApiResponse, JSON_parse_js. rewrite Hok. cbn [negb].
  now destruct (JSON_parse (body response)).
Qed.

Lemma ok_status (res : Response) : ok res = true -> status res <> 401 /\ status res <> 403.
Proof.
  unfold ok. intros H. apply andb_true_iff in H as [_ H]. apply Z.leb_le in H. lia.
Qed.

(** X4. On a response that is not ok, [handleApiResponse] never returns:
    it throws an Error and leaves the tab alone.  When the body is a JSON
    object, the message is its [detail] when that is a string that is not
    empty, else (the [detail] being falsy or absent) its [message] when that
    is such a string, else (both falsy or absent) the text
    [An error occurred]; a body that is not JSON, or is [null], gives
    [HTTP status: reason], the status in decimal. *)
Theorem X4_handleApiResponse_error (statusText : Response -> string)
  (response : Response) (w : World) :
  ok response = false ->
  exists msg,
    handleApiResponse statusText response w = (w, Throw (Error msg)) /\
    (forall m d, JSON_parse (body response) = Some (JObj m) ->
       obj_get "detail" m = Some (JStr d) -> nonempty d = true -> msg = d) /\
    (forall m x, JSON_parse (body response) = Some (JObj m) ->
       truthy_opt (obj_get "detail" m) = false ->
       obj_get "message" m = Some (JStr x) -> nonempty x = true -> msg = x) /\
    (forall m, JSON_parse (body response) = Some (JObj m) ->
       truthy_opt (obj_get "detail" m) = false ->
       truthy_opt (obj_get "message" m) = false -> msg = "An error occurred") /\
    (0 <= status response <= 999 ->
     valid_json (body response) = false \/ JSON_parse (body response) = Some JNull ->
     msg = http_line statusText response).
Proof.
  intros Hok. eexists. split; [apply (handleApiResponse_error _ _ _ Hok) | ].
  repeat split.
  - intros m d -> Hd Ht. rewrite Hd. cbn. now rewrite Ht.
  - intros m x -> Hd Hx Ht. rewrite Hd, Hx. cbn. now rewrite Ht.
  - intros m -> Hd Hm. now rewrite Hd, Hm.
  - intros _ [Hv | ->]; [ | reflexivity].
    now rewrite (not_json_parse _ Hv).
Qed.

(** X4, at concrete inputs: a validation error with a detail, and an HTML
    error page. *)
Lemma X4_handleApiResponse_error_witness :
  ok validation_error = false /\
  handleApiResponse no_reason validation_error fresh_world
    = (fresh_world, Throw (Error "Title is required")) /\
  handleApiResponse no_reason gateway_html_error fresh_world
    = (fresh_world, Throw (Error "HTTP 502: ")).
Proof.
  split; [reflexivity | ].
  destruct (X4_handleApiResponse_error no_reason validation_error fresh_world eq_refl)
    as (msg & E & Hd & _).
  destruct (X4_handleApiResponse_error no_reason gateway_html_error fresh_world eq_refl)
    as (msg' & E' & _ & _ & _ & Hh).
  rewrite E, E'. split.
  - rewrite (Hd [("detail", JStr "Title is required"); ("message", JStr "Bad request")]
               "Title is required");
      [reflexivity | vm_compute; reflexivity | reflexivity | reflexivity].
  - rewrite Hh; [reflexivity | cbn; lia | left; vm_compute; reflexivity].
Defined.

(** X5. On an ok response [handleApiResponse] leaves the tab alone: it
    returns the parsed body, and a body that is not JSON makes it throw the
    SyntaxError; it returns a value only for a body that is JSON. *)
Theorem X5_handleApiResponse_ok (statusText : Response -> string)
  (response : Response) (w : World) :
  ok response = true ->
  exec (handleApiResponse statusText response) w = w /\
  (forall v, JSON_parse (body response) = Some v ->
     result (handleApiResponse statusText response) w = Normal v) /\
  (valid_json (body response) = false ->
     result (handleApiResponse statusText response) w = Throw SyntaxError) /\
  (forall v, result (handleApiResponse statusText response) w = Normal v ->
     valid_json (body response) = true).
Proof.
  intros Hok. unfold exec, result. rewrite (handleApiResponse_ok _ _ _ Hok).
  cbn [fst snd]. split; [reflexivity | ]. repeat split.
  - now intros v ->.
  - intros Hv. now rewrite (not_json_parse _ Hv).
  - intros v. destruct (JSON_parse (body response)) as [v' | ] eqn:E; [ | discriminate].
    intros _. exact (JSON_parse_valid _ _ E).
Qed.

(** X5, at a concrete input: a list of two cases. *)
Lemma X5_handleApiResponse_ok_witness :
  ok case_list = true /\
  result (handleApiResponse no_reason case_list) fresh_world
    = Normal (JArr [JObj [("id", JNum 1)]; JObj [("id", JNum 2)]]).
Proof.
  split; [reflexivity | ].
  exact (proj1 (proj2 (X5_handleApiResponse_ok no_reason case_list fresh_world eq_refl))
           (JArr [JObj [("id", JNum 1)]; JObj [("id", JNum 2)]])
           ltac:(vm_compute; reflexivity)).
Defined.

(** [apiCall] by what [authFetch] did. *)
Lemma apiCall_cases (statusText : Response -> string) (url : string)
  (options : Options) (o : FetchOutcome) (w : World) :
  apiCall statusText url options o w =
  match authFetch url options o w with
  | (w1, Throw e) => (emit (ConsoleError "API call failed:" (Some e)) w1, Throw e)
  | (w1, Normal res) =>
      match handleApiResponse statusText res w1 with
      | (w2, Normal v) => (w2, Normal v)
      | (w2, Throw e) => (emit (ConsoleError "API call failed:" (Some e)) w2, Throw e)
      end
  end.
Proof.
  unfold apiCall, try_catch, bind at 1.
  destruct (authFetch url options o w) as [w1 [res | e]]; [ | reflexivity].
  destruct (handleApiResponse statusText res w1) as [w2 [v | e]]; reflexivity.
Qed.

(** X6. [apiCall] returns the parsed body when the network answers with
    an ok response whose body parses, and returns a value only on an ok
    response (so neither a 401 nor a 403) whose body is JSON.  It throws on
    a network failure, on a response that is not ok, and on an ok response
    whose body is not JSON; whatever it throws it has logged, last, in a
    console error naming that very error.  On a 401 the session is cleared
    and the error of the gateway, [Authentication failed], reaches the
    caller, with at most the one notice of the gateway. *)
Theorem X6_apiCall (statusText : Response -> string) (url : string)
  (options : Options) (o : FetchOutcome) (w : World) :
  let w' := exec (apiCall statusText url options o) w in
  let r := result (apiCall statusText url options o) w in
  (forall res v, o = Responded res -> ok res = true ->
     JSON_parse (body res) = Some v -> r = Normal v) /\
  (forall v, r = Normal v ->
     exists res, o = Responded res /\ ok res = true /\
                 valid_json (body res) = true) /\
  (forall e, o = NetworkFailure e -> r = Throw e) /\
  (forall res, o = Responded res -> ok res = false -> exists e, r = Throw e) /\
  (forall res, o = Responded res -> ok res = true ->
     valid_json (body res) = false -> r = Throw SyntaxError) /\
  (forall e, r = Throw e ->
     exists before,
       effects w' = before ++ [ConsoleError "API call failed:" (Some e)]) /\
  (forall res, o = Responded res -> status res = 401 ->
     r = Throw AuthenticationFailed /\
     localStorage w' = clear_session (localStorage w) /\
     alerts (new_effects w w') = (if isLoggingOut w then [] else [msg_expired])).
Proof.
  intros w' r. subst w' r. unfold exec, result. rewrite apiCall_cases.
  rewrite authFetch_unfold.
  destruct (request_frame url options nil w) as [[req Hreq] _]. rewrite Hreq.
  set (w1 := emit (Fetch req) w).
  assert (Hokres : forall res, ok res = true ->
            authFetch_resume (Responded res) w1 = (w1, Normal res)).
  { intros res Hok. destruct (ok_status _ Hok) as [H1 H3].
    now apply authFetch_resume_other. }
  split; [ | split; [ | split; [ | split; [ | split; [ | split]]]]].
  - intros res v -> Hok Hp. rewrite (Hokres res Hok).
    rewrite (handleApiResponse_ok _ _ _ Hok), Hp. reflexivity.
  - intros v. destruct o as [res | e].
    + destruct (authFetch_resume_cases res w1) as [[H1 ->] | [[H3 ->] | (H1 & H3 & ->)]];
        cbn [fst snd]; try discriminate.
      destruct (ok res) eqn:Hok.
      * rewrite (handleApiResponse_ok _ _ _ Hok).
        destruct (JSON_parse (body res)) as [v' | ] eqn:Ep; cbn [fst snd];
          [ | discriminate].
        intros _. exists res. repeat split; try assumption.
        exact (JSON_parse_valid _ _ Ep).
      * rewrite (handleApiResponse_error _ _ _ Hok). cbn [fst snd]. discriminate.
    + rewrite authFetch_resume_network. cbn [fst snd]. discriminate.
  - intros e ->. rewrite authFetch_resume_network. reflexivity.
  - intros res -> Hok.
    destruct (authFetch_resume_cases res w1) as [[H1 ->] | [[H3 ->] | (H1 & H3 & ->)]];
      cbn [fst snd]; [now eexists | now eexists | ].
    rewrite (handleApiResponse_error _ _ _ Hok). cbn [fst snd]. now eexists.
  - intros res -> Hok Hv. rewrite (Hokres res Hok).
    rewrite (handleApiResponse_ok _ _ _ Hok), (not_json_parse _ Hv). reflexivity.
  - intros e. destruct (authFetch_resume o w1) as [w2 [res | e']].
    + destruct (handleApiResponse statusText res w2) as [w3 [v | e'']]; cbn [fst snd].
      * discriminate.
      * intros E. injection E as ->. now exists (effects w3).
    + cbn [fst snd]. intros E. injection E as ->. now exists (effects w2).
  - intros res -> Hs. rewrite (authFetch_resume_401 res w1 Hs). cbn [fst snd].
    set (w0 := emit (ConsoleError "Authentication failed - clearing session" None) w1).
    destruct (after_auth_failure_spec msg_expired w0) as (Hst & Hef & _).
    split; [reflexivity | ]. cbn [localStorage emit]. rewrite Hst.
    split; [reflexivity | ].
    rewrite (new_effects_app w _
               ([Fetch req; ConsoleError "Authentication failed - clearing session" None;
                 Dispatched "authChange"]
                ++ (if isLoggingOut w then [] else [Alert msg_expired])
                ++ [LocationHref "/login";
                    ConsoleError "API request failed:" (Some AuthenticationFailed);
                    ConsoleError "API call failed:" (Some AuthenticationFailed)])).
    + now destruct (isLoggingOut w).
    + cbn [effects emit]. rewrite Hef. subst w0 w1. cbn.
      destruct (isLoggingOut w); cbn; rewrite <- !app_assoc; reflexivity.
Qed.

(** *** After a logout *)

Lemma getCurrentUser_absent (w : World) :
  localStorage w !! "user" = None -> getCurrentUser w = (w, Normal JNull).
Proof. intros H. unfold getCurrentUser. js_simpl. now rewrite H. Qed.

(** X7. After [logout], from any state of the tab: no token and no identity
    are stored, [isAuthenticated] is false, [getCurrentUser], [isAdmin] and
    [isInvestigator] return [null] without throwing (also when the stored
    identity was malformed), a mounted [App] is anonymous, and every other
    entry of the store is as before.  A gateway request sent next carries no
    bearer token. *)
Theorem X7_logout_clears (w : World) (formData : list (string * string)) :
  let w' := exec logout w in
  result logout w = Normal tt /\
  localStorage w' = clear_session (localStorage w) /\
  isAuthenticated w' = (w', Normal false) /\
  getCurrentUser w' = (w', Normal JNull) /\
  isAdmin w' = (w', Normal JNull) /\
  isInvestigator w' = (w', Normal JNull) /\
  (appState w <> None -> session_status w' = Anonymous) /\
  (forall k, k <> "token" -> k <> "user" ->
     localStorage w' !! k = localStorage w !! k) /\
  (exists req,
     authFetchFormData_request "/api/v1/settings/profile/picture" formData w'
       = (emit (Fetch req) w', Normal req) /\
     req_headers req !! "Authorization" = None).
Proof.
  intros w'. destruct (logout_spec w) as (Hres & _ & Hst & _ & _ & _ & Hap).
  fold w' in Hst, Hap.
  assert (Htok : localStorage w' !! "token" = None)
    by (rewrite Hst; apply clear_session_token).
  assert (Husr : localStorage w' !! "user" = None)
    by (rewrite Hst; apply clear_session_user).
  assert (Hcur := getCurrentUser_absent w' Husr).
  split; [exact Hres | ]. split; [exact Hst | ].
  split; [unfold isAuthenticated; js_simpl; now rewrite Htok | ].
  split; [exact Hcur | ].
  split; [unfold isAdmin, has_role, bind; now rewrite Hcur | ].
  split; [unfold isInvestigator, has_role, bind; now rewrite Hcur | ].
  split; [ | split].
  - intros Hm. unfold session_status. rewrite Hap.
    destruct (appState w); [reflexivity | contradiction].
  - intros k Hk Hk'. rewrite Hst. unfold clear_session. now rewrite !lookup_delete_ne.
  - destruct (authFetchFormData_request_spec "/api/v1/settings/profile/picture"
                formData w') as (req & Hreq & _ & _ & _ & Hh).
    exists req. split; [exact Hreq | ]. rewrite Hh, Htok. apply lookup_empty.
Qed.

(** *** Roles *)

Lemma has_role_spec (role : string) (w : World) :
  has_role role w =
  match getCurrentUser w with
  | (_, Throw e) => (w, Throw e)
  | (_, Normal user) =>
      (w, Normal (if truthy user
                  then JBool (is_string role (optional_member user "role"))
                  else user))
  end.
Proof.
  destruct (getCurrentUser_reads w) as [Hw _].
  unfold has_role, bind.
  destruct (getCurrentUser w) as [w0 [u | e]]; cbn [fst] in Hw; subst w0; [ | reflexivity].
  destruct u as [ | b | n | s | l | m]; cbn; try reflexivity.
  - now destruct b.
  - now destruct (n =? 0).
  - now destruct s.
Qed.

(** X8. [isAdmin] and [isInvestigator] only read.  With a stored identity
    that parses to a record, [isAdmin] is [true] exactly when its [role] is
    the string [admin], and [isInvestigator] exactly when it is
    [investigator], so they are never both true; with no identity stored
    both return [null]; on a stored identity that is not JSON both
    throw. *)
Theorem X8_roles (w : World) :
  exec isAdmin w = w /\ exec isInvestigator w = w /\
  ~ (result isAdmin w = Normal (JBool true) /\
     result isInvestigator w = Normal (JBool true)) /\
  (forall s m, localStorage w !! "user" = Some s ->
     JSON_parse s = Some (JObj m) ->
     result isAdmin w = Normal (JBool (is_string "admin" (obj_get "role" m))) /\
     result isInvestigator w
       = Normal (JBool (is_string "investigator" (obj_get "role" m)))) /\
  (localStorage w !! "user" = None ->
     result isAdmin w = Normal JNull /\ result isInvestigator w = Normal JNull) /\
  (forall s, localStorage w !! "user" = Some s -> nonempty s = true ->
     valid_json s = false ->
     result isAdmin w = Throw SyntaxError /\
     result isInvestigator w = Throw SyntaxError).
Proof.
  unfold exec, result, isAdmin, isInvestigator. rewrite !has_role_spec.
  split; [now destruct (getCurrentUser w) as [w0 [u | e]] | ].
  split; [now destruct (getCurrentUser w) as [w0 [u | e]] | ].
  split; [ | split; [ | split]].
  - destruct (getCurrentUser w) as [w0 [u | e]]; cbn [snd]; [ | intros [H _]; discriminate].
    destruct (truthy u) eqn:Et.
    + intros [H1 H2].
      assert (A : is_string "admin" (optional_member u "role") = true) by congruence.
      assert (B : is_string "investigator" (optional_member u "role") = true)
        by congruence.
      destruct (optional_member u "role") as [[ | | | r | | ] | ]; try discriminate.
      cbn in A, B. apply String.eqb_eq in A, B. congruence.
    + intros [H1 _]. injection H1 as ->. discriminate Et.
  - intros s m Hs Hp.
    assert (E : getCurrentUser w = (w, Normal (JObj m))).
    { unfold getCurrentUser, JSON_parse_js. js_simpl. rewrite Hs. cbn.
      assert (Hne : nonempty s = true) by (destruct s; [discriminate Hp | reflexivity]).
      now rewrite Hne, Hp. }
    rewrite E. split; reflexivity.
  - intros Hn. rewrite (getCurrentUser_absent w Hn). split; reflexivity.
  - intros s Hs Hne Hv.
    assert (E : getCurrentUser w = (w, Throw SyntaxError)).
    { unfold getCurrentUser, JSON_parse_js. js_simpl. rewrite Hs. cbn.
      now rewrite Hne, (not_json_parse _ Hv). }
    rewrite E. split; reflexivity.
Qed.

(** *** Logging in *)

(** [login] only adds to the effects. *)
Lemma resume_effects_login (o : FetchOutcome) (w : World) :
  exists more, effects (exec (login_resume o) w) = effects w ++ more.
Proof.
  assert (Hsync : forall u, exists more,
            effects (exec syncAuthState u) = effects u ++ more).
  { intros u. unfold exec. rewrite syncAuthState_spec.
    destruct (_ && _); [destruct (JSON_parse _) | ]; cbn;
      eexists; try reflexivity; now rewrite app_nil_r. }
  assert (Hdisp : forall u, exists more,
            effects (exec dispatchAuthChange u) = effects u ++ more).
  { intros u. unfold dispatchAuthChange. js_simpl.
    destruct (appState u) eqn:Ea; [ | now eexists].
    rewrite syncAuthState_pair. cbn [fst].
    destruct (Hsync (emit (Dispatched "authChange") u)) as [more Hm].
    unfold exec in *. rewrite Hm. cbn. rewrite <- app_assoc. now eexists. }
  destruct (login_resume_world o w) as [-> | [m ->]].
  - exists []. now rewrite app_nil_r.
  - destruct (Hdisp (with_storage m w)) as [more Hm]. now exists more.
Qed.

(** [login] on anything but an ok response with a JSON body that is not
    [null]. *)
Lemma login_resume_untouched (o : FetchOutcome) (w : World) :
  ~ (exists res data, o = Responded res /\ ok res = true /\
                      JSON_parse (body res) = Some data /\ data <> JNull) ->
  exec (login_resume o) w = w /\
  result (login_resume o) w =
    match o with
    | NetworkFailure e => Throw e
    | Responded res =>
        if ok res then
          match JSON_parse (body res) with
          | None => Throw SyntaxError
          | Some _ => Throw TypeError
          end
        else Normal res
    end.
Proof.
  intros Hn. unfold exec, result, login_resume. destruct o as [res | e]; [ | split; reflexivity].
  destruct (ok res) eqn:Hok; [ | split; reflexivity].
  unfold JSON_parse_js. js_simpl.
  destruct (JSON_parse (body res)) as [data | ] eqn:Ep; [ | split; reflexivity].
  destruct data; try (exfalso; apply Hn; eexists _, _; repeat split; eauto; discriminate).
  split; reflexivity.
Qed.

(** X9. [login] sends its request without an Authorization header,
    whatever is stored and whatever comes back.  On a rejected login (a
    response that is not ok), on a network failure, and on an ok response
    whose body is not JSON or is [null], nothing else happens: the store,
    the state of [App], the flag and the timers are as before and nothing is
    dispatched; the caller gets the response as it is when it is not ok, the
    error of the network, the SyntaxError of the parse, or the TypeError of
    reading [token] of [null].  The store changes only on an ok response
    whose body is JSON. *)
Theorem X9_login_failure (email password : string) (o : FetchOutcome) (w : World) :
  let w' := exec (login email password o) w in
  let r := result (login email password o) w in
  (exists req rest,
     new_effects w w' = Fetch req :: rest /\
     req_headers req !! "Authorization" = None) /\
  (forall e, o = NetworkFailure e ->
     (exists req, w' = emit (Fetch req) w) /\ r = Throw e) /\
  (forall res, o = Responded res -> ok res = false ->
     (exists req, w' = emit (Fetch req) w) /\ r = Normal res) /\
  (forall res, o = Responded res -> ok res = true ->
     valid_json (body res) = false ->
     (exists req, w' = emit (Fetch req) w) /\ r = Throw SyntaxError) /\
  (forall res, o = Responded res -> ok res = true ->
     JSON_parse (body res) = Some JNull ->
     (exists req, w' = emit (Fetch req) w) /\ r = Throw TypeError) /\
  (localStorage w' <> localStorage w ->
     exists res, o = Responded res /\ ok res = true /\
                 valid_json (body res) = true).
Proof.
  intros w' r. subst w' r.
  destruct (login_unfold email password o w) as (req & E & Hh & _).
  unfold exec, result. rewrite E.
  assert (Hun : ~ (exists res data, o = Responded res /\ ok res = true /\
                     JSON_parse (body res) = Some data /\ data <> JNull) ->
                login_resume o (emit (Fetch req) w)
                = (emit (Fetch req) w,
                   match o with
                   | NetworkFailure e => Throw e
                   | Responded res =>
                       if ok res then
                         match JSON_parse (body res) with
                         | None => Throw SyntaxError
                         | Some _ => Throw TypeError
                         end
                       else Normal res
                   end)).
  { intros Hn. destruct (login_resume_untouched o (emit (Fetch req) w) Hn) as [Hw Hr].
    unfold exec, result in Hw, Hr.
    destruct (login_resume o (emit (Fetch req) w)) as [w1 c]. cbn in Hw, Hr.
    now subst. }
  split; [ | split; [ | split; [ | split; [ | split]]]].
  - destruct (resume_effects_login o (emit (Fetch req) w)) as [more Hm].
    exists req, more. split; [ | now rewrite Hh].
    apply new_effects_app. unfold exec in Hm. rewrite Hm. cbn [effects emit].
    now rewrite <- app_assoc.
  - intros e ->. rewrite Hun; [split; [now exists req | reflexivity] | ].
    intros (res & data & Ho & _). discriminate Ho.
  - intros res -> Hok. rewrite Hun; [cbn [fst snd]; rewrite Hok;
                                     split; [now exists req | reflexivity] | ].
    intros (res' & data & Ho & Hok' & _). injection Ho as <-. congruence.
  - intros res -> Hok Hv. apply not_json_parse in Hv.
    rewrite Hun; [cbn [fst snd]; rewrite Hok, Hv;
                  split; [now exists req | reflexivity] | ].
    intros (res' & data & Ho & _ & Hp & _). injection Ho as <-. congruence.
  - intros res -> Hok Hp.
    rewrite Hun; [cbn [fst snd]; rewrite Hok, Hp;
                  split; [now exists req | reflexivity] | ].
    intros (res' & data & Ho & _ & Hp' & Hd). injection Ho as <-.
    rewrite Hp in Hp'. injection Hp' as <-. now apply Hd.
  - intros Hch.
    destruct o as [res | e];
      [ | exfalso; apply Hch; rewrite Hun; [reflexivity | ];
          intros (res & data & Ho & _); discriminate Ho].
    destruct (ok res) eqn:Hok;
      [ | exfalso; apply Hch; rewrite Hun; [reflexivity | ];
          intros (res' & data & Ho & Hok' & _); injection Ho as <-; congruence].
    destruct (JSON_parse (body res)) as [data | ] eqn:Ep;
      [ | exfalso; apply Hch; rewrite Hun; [reflexivity | ];
          intros (res' & data & Ho & _ & Hp & _); injection Ho as <-; congruence].
    exists res. repeat split; try assumption. exact (JSON_parse_valid _ _ Ep).
Qed.

(** X9, at a concrete input: a rejected login in a tab that still holds an
    old session. *)
Lemma X9_login_failure_witness :
  ok login_rejected = false /\
  localStorage (exec (login "ada@lab.org" "wrong" (Responded login_rejected))
                  signed_in_world)
  = localStorage signed_in_world /\
  result (login "ada@lab.org" "wrong" (Responded login_rejected)) signed_in_world
  = Normal login_rejected.
Proof.
  split; [reflexivity | ].
  destruct (X9_login_failure "ada@lab.org" "wrong" (Responded login_rejected)
              signed_in_world) as (_ & _ & H & _).
  destruct (H login_rejected eq_refl eq_refl) as [[req Hw] Hr].
  split; [now rewrite Hw | exact Hr].
Defined.

Lemma parse_undefined : JSON_parse "undefined" = None.
Proof. vm_compute. reflexivity. Qed.

(** X10. An ok login response whose body is a JSON object without [user]
    makes [login] store the text [undefined] as the identity, next to the
    token as a string.  In a tab where [App] is mounted and the stored token
    is not empty, the listener finds the identity unparsable before [login]
    returns and removes both entries: the tab ends anonymous with nothing
    stored.  Where [App] is not mounted the entries stay and
    [getCurrentUser] throws. *)
Theorem X10_login_without_user (res : Response) (m : list (string * json))
  (w : World) :
  ok res = true ->
  JSON_parse (body res) = Some (JObj m) ->
  obj_get "user" m = None ->
  let token := to_string_or_undefined (obj_get "token" m) in
  let w' := exec (login_resume (Responded res)) w in
  result (login_resume (Responded res)) w = Normal res /\
  (appState w = None ->
     localStorage w' !! "token" = Some token /\
     localStorage w' !! "user" = Some "undefined" /\
     result getCurrentUser w' = Throw SyntaxError) /\
  (appState w <> None -> nonempty token = true ->
     localStorage w' = clear_session (localStorage w) /\
     session_status w' = Anonymous).
Proof.
  intros Hok Hp Hu token w'. subst token w'.
  unfold exec, result, login_resume, JSON_parse_js, get_member.
  rewrite Hok, Hp. js_simpl. rewrite Hu.
  set (tok := to_string_or_undefined (obj_get "token" m)).
  unfold dispatchAuthChange. js_simpl.
  destruct (appState w) as [a | ] eqn:Ea.
  - rewrite syncAuthState_spec. js_simpl.
    rewrite lookup_insert_eq, lookup_insert_ne, lookup_insert_eq by done.
    cbn [truthy_item interpolate_item nonempty]. rewrite parse_undefined.
    destruct (nonempty tok) eqn:Et; cbn [andb fst snd].
    + split; [reflexivity | ]. split; [intros Hc; discriminate Hc | ].
      intros _ _. split; [ | reflexivity].
      cbn. unfold clear_session. apply map_eq. intros k.
      destruct (decide (k = "user")) as [-> | Hk];
        [now rewrite !lookup_delete_eq | ].
      rewrite !(lookup_delete_ne _ "user" k) by done.
      destruct (decide (k = "token")) as [-> | Hk'];
        [now rewrite !lookup_delete_eq | ].
      rewrite !(lookup_delete_ne _ "token" k) by done.
      now rewrite !lookup_insert_ne by done.
    + split; [reflexivity | ]. split; [intros Hc; discriminate Hc | ].
      intros _ Hc. discriminate Hc.
  - cbn [fst snd]. split; [reflexivity | ]. split; [ | intros Hc; now contradiction Hc].
    intros _. unfold getCurrentUser, JSON_parse_js. js_simpl.
    rewrite lookup_insert_eq, lookup_insert_ne, lookup_insert_eq by done.
    cbn. now rewrite parse_undefined.
Qed.

(** X10, at a concrete input: a response with a token and no user, in a tab
    with [App] mounted. *)
Lemma X10_login_without_user_witness :
  ok login_without_user = true /\
  localStorage (exec (login_resume (Responded login_without_user)) mounted_world) = ∅ /\
  session_status (exec (login_resume (Responded login_without_user)) mounted_world)
  = Anonymous.
Proof.
  split; [reflexivity | ].
  destruct (X10_login_without_user login_without_user [("token", JStr "tok123")]
              mounted_world eq_refl ltac:(vm_compute; reflexivity) eq_refl)
    as (_ & _ & H).
  destruct (H ltac:(discriminate) eq_refl) as [Hst Hss].
  split; [rewrite Hst; vm_compute; reflexivity | exact Hss].
Defined.

(** *** The endpoints *)

Lemma resume_session_end (res : Response) (w : World) :
  (status res = 401 ->
   result (authFetch_resume (Responded res)) w = Throw AuthenticationFailed /\
   localStorage (exec (authFetch_resume (Responded res)) w)
     = clear_session (localStorage w)) /\
  (status res = 403 ->
   result (authFetch_resume (Responded res)) w = Throw AuthorizationFailed /\
   localStorage (exec (authFetch_resume (Responded res)) w)
     = clear_session (localStorage w)).
Proof.
  split; intros Hs; unfold exec, result.
  - rewrite (authFetch_resume_401 res w Hs). cbn [fst snd localStorage emit].
    destruct (after_auth_failure_spec msg_expired
                (emit (ConsoleError "Authentication failed - clearing session" None) w))
      as (-> & _). split; reflexivity.
  - rewrite (authFetch_resume_403 res w Hs). cbn [fst snd localStorage emit].
    destruct (after_auth_failure_spec msg_outdated
                (emit (ConsoleError
                   "Access forbidden - your session may be outdated. Please log in again."
                   None) w)) as (-> & _). split; reflexivity.
Qed.

Lemma authFetch_contract (url : string) (options : Options) :
  opt_headers options = None ->
  json_endpoint_contract (authFetch url options).
Proof.
  intros Hh o w.
  destruct (authFetch_request_spec url options w) as (req & Hreq & _ & _ & _ & Hhd).
  assert (E : authFetch url options o w = authFetch_resume o (emit (Fetch req) w)).
  { unfold authFetch, bind. now rewrite Hreq. }
  unfold exec, result. rewrite E.
  split; [ | split].
  - destruct (resume_effects o (emit (Fetch req) w)) as [[more Hmore] _].
    exists req, more. unfold exec in Hmore. split; [ | split].
    + apply new_effects_app. rewrite Hmore. cbn. now rewrite <- app_assoc.
    + rewrite Hhd, Hh. cbn [default]. destruct (truthy_item _).
      * rewrite lookup_insert_ne by done. apply defaults_lookup_content_type.
      * apply defaults_lookup_content_type.
    + rewrite Hhd, Hh. cbn [default]. destruct (truthy_item _).
      * apply lookup_insert_eq.
      * rewrite defaults_lookup_other by done. apply lookup_empty.
  - intros res -> Hs.
    exact (proj1 (resume_session_end res (emit (Fetch req) w)) Hs).
  - intros res -> Hs.
    exact (proj2 (resume_session_end res (emit (Fetch req) w)) Hs).
Qed.

Lemma authFetchFormData_contract (url file : string) :
  upload_contract file (authFetchFormData url [("file", file)]).
Proof.
  intros o w.
  destruct (authFetchFormData_request_spec url [("file", file)] w)
    as (req & Hreq & _ & Hm & Hb & Hhd).
  assert (E : authFetchFormData url [("file", file)] o w
              = authFetchFormData_resume o (emit (Fetch req) w)).
  { unfold authFetchFormData, bind. now rewrite Hreq. }
  unfold exec, result. rewrite E.
  split; [ | split].
  - destruct (resume_effects o (emit (Fetch req) w)) as [_ [more Hmore]].
    exists req, more. unfold exec in Hmore.
    split; [apply new_effects_app; rewrite Hmore; cbn; now rewrite <- app_assoc | ].
    split; [exact Hm | ]. split; [exact Hb | ].
    rewrite Hhd. destruct (truthy_item _).
    + split; [rewrite lookup_insert_ne by done; apply lookup_empty | apply lookup_insert_eq].
    + split; apply lookup_empty.
  - intros res -> Hs. rewrite (authFetchFormData_resume_401 res _ Hs).
    cbn [fst snd localStorage emit].
    destruct (after_auth_failure_spec msg_expired (emit (Fetch req) w)) as (-> & _).
    split; reflexivity.
  - intros res -> Hs.
    rewrite authFetchFormData_resume_other by (rewrite Hs; discriminate).
    split; reflexivity.
Qed.

(** X11. The endpoints of api.js that carry a JSON payload or none, whatever
    their arguments: each sends one request with the JSON content type (none
    of them passes headers of its own), with the bearer token exactly when a
    token that is not empty is stored, and a 401 or a 403 answer clears the
    session and rejects the call before the caller sees a response. *)
Theorem X11_json_endpoints (id payload : json) :
  Forall json_endpoint_contract
    [createCase payload; updateCase id payload; getCase id; deleteCase id;
     acceptCase id payload; deleteEvidence id;
     getWitnessStatements id; addWitnessStatement id payload;
     updateWitnessStatement id payload; deleteWitnessStatement id;
     getDetectionResult id; deleteDetectionResult id; getModelsInfo; create3d id;
     getProfile; updateProfile payload; changePassword payload;
     setup2FA payload; verify2FA payload;
     getApplicationSettings; updateApplicationSettings payload;
     getCaseManagementSettings; updateCaseManagementSettings payload;
     getAllSettings; getNotificationPreferences;
     updateNotificationPreferences payload;
     getAdminDashboardStats; getContactRequest id;
     updateContactRequest id payload; convertContactRequestToCase id payload;
     deleteContactRequest id].
Proof.
  repeat (apply Forall_cons; split; [apply authFetch_contract; reflexivity | ]).
  constructor.
Qed.

(** X12. The two uploads, [uploadEvidence] and [uploadProfilePicture]: one
    POST whose body is the form with the file as its only field, without a
    content-type header, with the bearer token exactly when a token that is
    not empty is stored; a 401 clears the session and rejects the call, while
    a 403 is handed to the caller with the store as it was. *)
Theorem X12_uploads (caseId : json) (file : string) :
  upload_contract file (uploadEvidence caseId file) /\
  upload_contract file (uploadProfilePicture file).
Proof. split; apply authFetchFormData_contract. Qed.

(** X13. [signup] and [submitContactRequest] call [fetch] without reading
    the store: whatever token is stored, the request carries no Authorization
    header, the outcome of [fetch] is handed to the caller as it is, a 401
    included, and nothing in the tab changes but the request going out. *)
Theorem X13_anonymous_endpoints (userData : json)
  (formData : list (string * string)) :
  anonymous_call (signup userData) /\
  anonymous_call (submitContactRequest formData).
Proof.
  split; intros o w; eexists;
    (split; [unfold signup, submitContactRequest, plain_fetch; js_simpl;
             destruct o; reflexivity | ]);
    (split; [reflexivity | ]).
  - unfold json_headers. cbn. now rewrite lookup_singleton_ne.
  - apply lookup_empty.
Qed.

(** *** Route guards *)

Lemma includes_spec (roles : list string) (x : option json) :
  includes roles x = true <-> exists r, x = Some (JStr r) /\ In r roles.
Proof.
  unfold includes. rewrite existsb_exists. split.
  - intros (r & Hin & Hr). exists r. split; [ | exact Hin].
    destruct x as [[ | | | s | | ] | ]; try discriminate Hr.
    cbn in Hr. apply String.eqb_eq in Hr. now subst.
  - intros (r & -> & Hin). exists r. split; [exact Hin | ]. cbn. apply String.eqb_refl.
Qed.

(** X14. [ProtectedRoute] renders its children exactly for a signed-in user
    whose [role] is a string among the allowed ones (or for any signed-in
    user when no roles are given); it sends to /login exactly the users that
    are not signed in, and a signed-in user of another role to the home of
    its role. *)
Theorem X14_ProtectedRoute (authState : AuthState) (roles : list string) :
  (ProtectedRoute authState (Some roles) = Children <->
   isLoggedIn authState = true /\
   exists r, optional_member (user authState) "role" = Some (JStr r) /\ In r roles) /\
  (ProtectedRoute authState None = Children <-> isLoggedIn authState = true) /\
  (ProtectedRoute authState (Some roles) = NavigateTo "/login" <->
   isLoggedIn authState = false) /\
  (isLoggedIn authState = true ->
   ProtectedRoute authState (Some roles) <> Children ->
   ProtectedRoute authState (Some roles)
   = NavigateTo (if isAdmin_of authState then "/dashboard/admin" else "/dashboard/home")).
Proof.
  unfold ProtectedRoute, role_home.
  destruct (isLoggedIn authState); cbn [negb].
  - destruct (includes roles (optional_member (user authState) "role")) eqn:Ei; cbn [negb].
    + apply includes_spec in Ei.
      repeat split; try discriminate; try assumption; try reflexivity.
      intros _ H. now contradiction H.
    + assert (Hn : ~ exists r, optional_member (user authState) "role" = Some (JStr r)
                               /\ In r roles).
      { intros H. apply includes_spec in H. congruence. }
      destruct (isAdmin_of authState); repeat split; try discriminate;
        try (intros [_ H]; contradiction); try reflexivity.
  - repeat split; try discriminate; try reflexivity; intros [H _]; discriminate H.
Qed.

Lemma role_cases (authState : AuthState) :
  let role := optional_member (user authState) "role" in
  (role = Some (JStr "admin") /\ isAdmin_of authState = true /\
   includes ["admin"] role = true /\ includes ["investigator"] role = false) \/
  (role = Some (JStr "investigator") /\ isAdmin_of authState = false /\
   includes ["admin"] role = false /\ includes ["investigator"] role = true) \/
  (role <> Some (JStr "admin") /\ role <> Some (JStr "investigator") /\
   isAdmin_of authState = false /\
   includes ["admin"] role = false /\ includes ["investigator"] role = false).
Proof.
  unfold isAdmin_of, includes. cbn.
  destruct (optional_member (user authState) "role") as [[ | | | s | | ] | ];
    try (right; right; repeat split; discriminate).
  cbn. destruct (String.eqb s "admin") eqn:Ea.
  - apply String.eqb_eq in Ea. subst s. left. repeat split.
  - destruct (String.eqb s "investigator") eqn:Ei.
    + apply String.eqb_eq in Ei. subst s. right; left. repeat split.
    + right; right. apply String.eqb_neq in Ea, Ei.
      repeat split; congruence.
Qed.

(** X15. Where the guards of the first [App] send a user, the guard there
    lets the user in, with one exception.  An administrator is sent to
    /dashboard/admin and rendered there; an investigator is sent to
    /dashboard/home and rendered there; a user who is not signed in is sent
    to /login and sees the login page.  A signed-in user whose role is
    neither [admin] nor [investigator] is sent from both areas to
    /dashboard/home, whose guard sends it to /dashboard/home again, and the
    login page sends it there too: neither area nor the login page renders
    for it. *)
Theorem X15_redirects_land (authState : AuthState) :
  let role := optional_member (user authState) "role" in
  (isLoggedIn authState = false ->
   investigator_area authState = NavigateTo "/login" /\
   admin_area authState = NavigateTo "/login" /\
   guard_at "/login" authState = Children) /\
  (isLoggedIn authState = true -> role = Some (JStr "admin") ->
   investigator_area authState = NavigateTo "/dashboard/admin" /\
   public_entry authState = NavigateTo "/dashboard/admin" /\
   guard_at "/dashboard/admin" authState = Children) /\
  (isLoggedIn authState = true -> role = Some (JStr "investigator") ->
   admin_area authState = NavigateTo "/dashboard/home" /\
   public_entry authState = NavigateTo "/dashboard/home" /\
   guard_at "/dashboard/home" authState = Children) /\
  (isLoggedIn authState = true ->
   role <> Some (JStr "admin") -> role <> Some (JStr "investigator") ->
   investigator_area authState = NavigateTo "/dashboard/home" /\
   admin_area authState = NavigateTo "/dashboard/home" /\
   public_entry authState = NavigateTo "/dashboard/home" /\
   guard_at "/dashboard/home" authState = NavigateTo "/dashboard/home").
Proof.
  intros role. subst role.
  unfold guard_at, investigator_area, admin_area, public_entry, ProtectedRoute, role_home.
  cbn [String.eqb Ascii.eqb Bool.eqb andb].
  destruct (role_cases authState) as
    [(Hr & Ha & Hia & Hii) | [(Hr & Ha & Hia & Hii) | (Hn1 & Hn2 & Ha & Hia & Hii)]];
    cbn zeta in *; rewrite Ha, Hia, Hii;
    destruct (isLoggedIn authState); cbn [negb];
    repeat split; try reflexivity; try discriminate; try congruence;
    intros; try congruence; repeat split; reflexivity.
Qed.

Lemma ProtectedRouteWithApproval_spec (authState : AuthState)
  (allowedRoles : option (list string)) (w : World) :
  ProtectedRouteWithApproval authState allowedRoles w =
  match ProtectedRoute authState allowedRoles with
  | Children =>
      if unapproved authState
      then (with_storage clear_session w, Normal (NavigateTo "/login"))
      else (w, Normal Children)
  | NavigateTo p => (w, Normal (NavigateTo p))
  end.
Proof.
  unfold ProtectedRouteWithApproval, ProtectedRoute, unapproved, role_home.
  destruct (isLoggedIn authState); cbn [negb]; [ | reflexivity].
  destruct allowedRoles as [roles | ].
  - destruct (includes roles _); cbn [negb];
      [ | destruct (isAdmin_of authState); reflexivity].
    destruct (is_string "investigator" _); cbn [andb]; [ | reflexivity].
    destruct (optional_member (user authState) "is_approved")
      as [[ | [ | ] | | | | ] | ]; reflexivity.
  - destruct (is_string "investigator" _); cbn [andb]; [ | reflexivity].
    destruct (optional_member (user authState) "is_approved")
      as [[ | [ | ] | | | | ] | ]; reflexivity.
Qed.

(** X16. [ProtectedRouteWithApproval] renders its children exactly when
    [ProtectedRoute] would and the user is not an investigator whose
    [is_approved] is [false] or [null]; it then changes nothing.  For such an
    investigator it sends to /login and removes token and identity from the
    store while rendering, without dispatching authChange: the state of
    [App] stays signed-in, so the login page sends the user back to
    /dashboard/home, until the next derivation finds the store empty and
    reports an anonymous session. *)
Theorem X16_approval_guard (authState : AuthState)
  (allowedRoles : option (list string)) (w : World) :
  let r := result (ProtectedRouteWithApproval authState allowedRoles) w in
  let w' := exec (ProtectedRouteWithApproval authState allowedRoles) w in
  (r = Normal Children <->
   ProtectedRoute authState allowedRoles = Children /\ unapproved authState = false) /\
  (r = Normal Children -> w' = w) /\
  (ProtectedRoute authState allowedRoles = Children -> unapproved authState = true ->
   r = Normal (NavigateTo "/login") /\
   localStorage w' = clear_session (localStorage w) /\
   new_effects w w' = [] /\
   appState w' = appState w /\
   public_entry authState = NavigateTo "/dashboard/home" /\
   session_status (exec syncAuthState w') = Anonymous).
Proof.
  intros r w'. subst r w'. unfold exec, result.
  rewrite ProtectedRouteWithApproval_spec.
  destruct (ProtectedRoute authState allowedRoles) as [ | p] eqn:Ep.
  - destruct (unapproved authState) eqn:Eu; cbn [fst snd].
    + split; [split; [discriminate | intros [_ H]; discriminate H] | ].
      split; [discriminate | ]. intros _ _.
      split; [reflexivity | ]. split; [reflexivity | ].
      split; [apply new_effects_app; cbn; now rewrite app_nil_r | ].
      split; [reflexivity | ]. split.
      * unfold public_entry, role_home.
        assert (Hl : isLoggedIn authState = true).
        { unfold ProtectedRoute in Ep. now destruct (isLoggedIn authState). }
        rewrite Hl. unfold unapproved in Eu. apply andb_true_iff in Eu as [Hr _].
        destruct (role_cases authState) as
          [(Hr' & _) | [(_ & Ha & _) | (_ & _ & Ha & _)]]; cbn zeta in *.
        -- rewrite Hr' in Hr. discriminate Hr.
        -- now rewrite Ha.
        -- now rewrite Ha.
      * rewrite syncAuthState_no_token by (cbn; now rewrite clear_session_token).
        reflexivity.
    + split; [split; [now split | reflexivity] | ].
      split; [reflexivity | ]. intros _ H. discriminate H.
  - cbn [fst snd]. split; [split; [discriminate | intros [H _]; discriminate H] | ].
    split; [discriminate | ]. intros H. discriminate H.
Qed.

(** X16, at a concrete input: an investigator pending approval, signed in,
    at the investigator area. *)
Lemma X16_approval_guard_witness :
  ProtectedRoute pending_investigator (Some ["investigator"]) = Children /\
  unapproved pending_investigator = true /\
  result (ProtectedRouteWithApproval pending_investigator (Some ["investigator"]))
    signed_in_world = Normal (NavigateTo "/login") /\
  localStorage
    (exec (ProtectedRouteWithApproval pending_investigator (Some ["investigator"]))
       signed_in_world) = ∅.
Proof.
  split; [reflexivity | ]. split; [reflexivity | ].
  destruct (X16_approval_guard pending_investigator (Some ["investigator"])
              signed_in_world) as (_ & _ & H).
  destruct (H eq_refl eq_refl) as (Hr & Hst & _).
  split; [exact Hr | ]. rewrite Hst. vm_compute. reflexivity.
Defined.

(* ===================================================================== *)
(** ** The two layouts *)
(* ===================================================================== *)

Lemma AdminLayout_handleLogout_spec (w : World) :
  AdminLayout_handleLogout w =
    (seen_anonymous (emit (Dispatched "authChange") (with_storage clear_session w)),
     Normal "/login").
Proof.
  unfold AdminLayout_handleLogout. js_simpl.
  rewrite dispatchAuthChange_no_token by store_cleared. reflexivity.
Qed.

(** X17. The two layouts log out differently.  Both empty the session
    entries, dispatch authChange and hand /login to the router, and a mounted
    [App] is anonymous afterwards.  [handleLogout] of DashboardLayout goes
    through [logout], so the flag is set and a reset is scheduled;
    [handleLogout] of AdminLayout removes the entries itself and touches
    neither the flag nor the timers, and assigns no location.  So a 401 that
    arrives after a logout from the admin layout raises the expiry notice
    (unless a logout of the other kind is still in its window), while after
    a logout from the dashboard layout it raises none. *)
Theorem X17_two_logouts (w : World) :
  let a := exec AdminLayout_handleLogout w in
  let d := exec DashboardLayout_handleLogout w in
  result AdminLayout_handleLogout w = Normal "/login" /\
  result DashboardLayout_handleLogout w = Normal "/login" /\
  localStorage a = clear_session (localStorage w) /\
  localStorage d = localStorage a /\ appState d = appState a /\
  (appState w <> None -> session_status a = Anonymous) /\
  new_effects w a = [Dispatched "authChange"] /\
  new_effects w d = [Dispatched "authChange"; LocationHref "/login"] /\
  isLoggingOut a = isLoggingOut w /\ timers a = timers w /\
  isLoggingOut d = true /\
  timers d = timers w ++ [((clock w + 1000)%nat, ResetLoggingOut)] /\
  forall res, status res = 401 ->
    alerts (new_effects a (exec (authFetch_resume (Responded res)) a))
      = (if isLoggingOut w then [] else [msg_expired]) /\
    alerts (new_effects d (exec (authFetch_resume (Responded res)) d)) = [].
Proof.
  intros a d.
  destruct (logout_spec w) as (Hr & Hfl & Hst & Hti & _ & Hef & Hap).
  assert (Ed : d = exec logout w).
  { subst d. unfold DashboardLayout_handleLogout, exec, result in *. unfold bind.
    destruct (logout w) as [w1 [[] | e]]; [reflexivity | discriminate Hr]. }
  assert (Ea : a = seen_anonymous
                     (emit (Dispatched "authChange") (with_storage clear_session w))).
  { subst a. unfold exec. now rewrite AdminLayout_handleLogout_spec. }
  split; [unfold result; now rewrite AdminLayout_handleLogout_spec | ].
  split.
  { unfold DashboardLayout_handleLogout, result in *. unfold bind.
    destruct (logout w) as [w1 [[] | e]]; [reflexivity | discriminate Hr]. }
  clearbody a d. subst a d.
  assert (Hsa : forall u, localStorage (seen_anonymous u) = localStorage u /\
                          effects (seen_anonymous u) = effects u /\
                          timers (seen_anonymous u) = timers u /\
                          appState (seen_anonymous u)
                            = match appState u with
                              | Some _ => Some anonymousState
                              | None => None
                              end)
    by (intros u; unfold seen_anonymous; destruct (appState u) eqn:E;
        cbn; rewrite ?E; repeat split).
  destruct (Hsa (emit (Dispatched "authChange") (with_storage clear_session w)))
    as (Sst & Sef & Sti & Sap).
  split; [now rewrite Sst | ].
  split; [now rewrite Hst, Sst | ].
  split; [now rewrite Hap, Sap | ].
  split.
  { intros Hm. unfold session_status. rewrite Sap. cbn.
    destruct (appState w); [reflexivity | now contradiction Hm]. }
  split; [apply new_effects_app; now rewrite Sef | ].
  split; [now apply new_effects_app | ].
  split; [now rewrite seen_anonymous_flag | ].
  split; [now rewrite Sti | ].
  split; [exact Hfl | ].
  split; [exact Hti | ].
  intros res Hs. split.
  - destruct (gateway_401 res
                (seen_anonymous
                   (emit (Dispatched "authChange") (with_storage clear_session w))) Hs)
      as (H & _).
    rewrite H, seen_anonymous_flag. reflexivity.
  - destruct (gateway_401 res (exec logout w) Hs) as (H & _).
    rewrite H, Hfl. reflexivity.
Qed.

(** X17, at a concrete input: the signed-in tab and a 401. *)
Lemma X17_two_logouts_witness :
  status (mkResponse 401 "Unauthorized") = 401 /\
  alerts
    (new_effects (exec AdminLayout_handleLogout signed_in_world)
       (exec (authFetch_resume (Responded (mkResponse 401 "Unauthorized")))
          (exec AdminLayout_handleLogout signed_in_world))) = [msg_expired] /\
  alerts
    (new_effects (exec DashboardLayout_handleLogout signed_in_world)
       (exec (authFetch_resume (Responded (mkResponse 401 "Unauthorized")))
          (exec DashboardLayout_handleLogout signed_in_world))) = [].
Proof.
  split; [reflexivity | ].
  destruct (X17_two_logouts signed_in_world)
    as (_ & _ & _ & _ & _ & _ & _ & _ & _ & _ & _ & _ & H).
  exact (H (mkResponse 401 "Unauthorized") eq_refl).
Defined.

(* ===================================================================== *)
(** ** The state of [App] and the store *)
(* ===================================================================== *)

Lemma syncAuthState_idem (w : World) :
  exec syncAuthState (exec syncAuthState w) = exec syncAuthState w.
Proof.
  unfold exec. rewrite (syncAuthState_spec w).
  destruct (truthy_item (localStorage w !! "token") &&
            truthy_item (localStorage w !! "user")) eqn:Ec.
  - destruct (JSON_parse (interpolate_item (localStorage w !! "user"))) eqn:Ep;
      cbn [fst]; rewrite syncAuthState_spec; cbn [localStorage with_app with_storage emit].
    + rewrite Ec, Ep. reflexivity.
    + rewrite clear_session_token. reflexivity.
  - cbn [fst]. rewrite syncAuthState_spec. cbn [localStorage with_app].
    rewrite Ec. reflexivity.
Qed.

Lemma syncAuthState_mounted (w : World) : appState (exec syncAuthState w) <> None.
Proof.
  unfold exec. rewrite syncAuthState_spec.
  destruct (_ && _); [destruct (JSON_parse _) | ]; discriminate.
Qed.

(** The derivation touches neither the flag nor the timers nor the clock. *)
Lemma syncAuthState_timing (w : World) : same_timing w (exec syncAuthState w).
Proof.
  unfold exec. rewrite syncAuthState_spec.
  destruct (_ && _); [destruct (JSON_parse _) | ]; repeat split.
Qed.

(** A world the derivation leaves as it is shows what the store holds. *)
Lemma fixed_status (w : World) :
  exec syncAuthState w = w ->
  status_of_store (localStorage w) = Some (session_status w).
Proof.
  unfold exec. rewrite syncAuthState_spec. unfold status_of_store, session_status.
  destruct (localStorage w !! "token") as [t | ] eqn:Et;
    destruct (localStorage w !! "user") as [u | ] eqn:Eu;
    cbn [truthy_item interpolate_item andb];
    try (rewrite andb_false_r);
    try (cbn [fst]; intros H; apply (f_equal appState) in H; cbn in H;
         rewrite <- H; reflexivity).
  destruct (nonempty t && nonempty u) eqn:Ec.
  - destruct (JSON_parse u) as [v | ] eqn:Ep; cbn [fst]; intros H.
    + apply (f_equal appState) in H. cbn in H. rewrite <- H. reflexivity.
    + apply (f_equal (fun x => length (effects x))) in H. cbn in H.
      rewrite length_app in H. cbn in H. lia.
  - cbn [fst]; intros H; apply (f_equal appState) in H; cbn in H.
    rewrite <- H; reflexivity.
Qed.

(** Being left as it is by the derivation depends on the two entries and on
    the state of [App] only. *)
Lemma fixed_transfer (u w' : World) :
  same_session u w' -> exec syncAuthState u = u -> exec syncAuthState w' = w'.
Proof.
  intros (Ht & Hu & Ha). unfold exec. rewrite !syncAuthState_spec, Ht, Hu.
  destruct (_ && _).
  - destruct (JSON_parse _); cbn [fst]; intros H.
    + apply (f_equal appState) in H. cbn in H. rewrite H, <- Ha. apply with_app_same.
    + apply (f_equal (fun x => length (effects x))) in H. cbn in H.
      rewrite length_app in H. cbn in H. lia.
  - cbn [fst]; intros H. apply (f_equal appState) in H. cbn in H.
    rewrite H, <- Ha. apply with_app_same.
Qed.

Lemma fixed_anonymous (w : World) :
  truthy_item (localStorage w !! "token") = false ->
  appState w = Some anonymousState ->
  exec syncAuthState w = w.
Proof.
  intros Ht Ha. unfold exec. rewrite syncAuthState_no_token by exact Ht.
  cbn [fst]. rewrite <- Ha. apply with_app_same.
Qed.

(** With [App] mounted, dispatching authChange runs the derivation. *)
Lemma dispatchAuthChange_mounted (w : World) :
  appState w <> None ->
  dispatchAuthChange w =
    (exec syncAuthState (emit (Dispatched "authChange") w), Normal tt).
Proof.
  intros Hm. unfold dispatchAuthChange. js_simpl.
  destruct (appState w) eqn:E; [ | now contradiction Hm].
  apply syncAuthState_pair.
Qed.

Lemma dispatchAuthChange_timing (w : World) :
  same_timing w (exec dispatchAuthChange w).
Proof.
  unfold dispatchAuthChange. js_simpl.
  destruct (appState w) eqn:E; [ | repeat split].
  rewrite syncAuthState_pair. cbn [fst].
  exact (syncAuthState_timing (emit (Dispatched "authChange") w)).
Qed.

Lemma same_session_refl (w : World) : same_session w w.
Proof. repeat split. Qed.

Lemma same_timing_refl (w : World) : same_timing w w.
Proof. repeat split. Qed.

Lemma same_timing_trans (w1 w2 w3 : World) :
  same_timing w1 w2 -> same_timing w2 w3 -> same_timing w1 w3.
Proof.
  intros (A1 & A2 & A3) (B1 & B2 & B3). unfold same_timing.
  rewrite B1, B2, B3. now repeat split.
Qed.

Lemma new_effects_same (w : World) : new_effects w w = [].
Proof. apply new_effects_app. now rewrite app_nil_r. Qed.

Lemma dispatches_same (w : World) : dispatches w w = false.
Proof. unfold dispatches. now rewrite new_effects_same. Qed.

Lemma dispatches_emit (e : Effect) (w : World) :
  (forall event, e <> Dispatched event) -> dispatches w (emit e w) = false.
Proof.
  intros He. unfold dispatches. rewrite (new_effects_app w (emit e w) [e] eq_refl).
  cbn. destruct e; try reflexivity. now contradiction (He event).
Qed.

(** The four ways a step of api.js leaves the tab. *)
Lemma call_settles (w w' : World) :
  ((exists m, w' = exec dispatchAuthChange (with_storage m w)) \/
   (exists req, w' = emit (Fetch req) w) \/
   (exists msg e, w' = emit (ConsoleError msg e) w) \/
   w' = w) ->
  settles w w'.
Proof.
  intros [[m ->] | [[req ->] | [(msg & e & ->) | ->]]].
  - split.
    + eapply same_timing_trans; [ | apply dispatchAuthChange_timing]. repeat split.
    + intros Hm. right. unfold exec at 2 3.
      rewrite dispatchAuthChange_mounted by exact Hm.
      cbn [fst]. apply syncAuthState_idem.
  - split; [repeat split | ]. intros _. left. split; [repeat split | ].
    now apply dispatches_emit.
  - split; [repeat split | ]. intros _. left. split; [repeat split | ].
    now apply dispatches_emit.
  - split; [apply same_timing_refl | ]. intros _. left.
    split; [apply same_session_refl | apply dispatches_same].
Qed.

(** The failure path of the gateway, after whatever was logged before it
    and before what is logged after it. *)
Lemma failure_settles (notice : string) (e : Effect) (w w0 : World) :
  same_timing w w0 -> localStorage w0 = localStorage w ->
  appState w0 = appState w ->
  settles w (emit e (after_auth_failure notice w0)).
Proof.
  intros (T1 & T2 & T3) Hs Ha.
  destruct (after_auth_failure_spec notice w0) as (Hst & _ & Hfl & Hti & Hcl & Hap).
  split.
  - unfold same_timing. cbn [isLoggingOut timers clock emit].
    rewrite Hfl, Hti, Hcl. now repeat split.
  - intros Hm. right. apply fixed_anonymous.
    + cbn [localStorage emit]. now rewrite Hst, clear_session_token.
    + cbn [appState emit]. rewrite Hap, Ha.
      destruct (appState w); [reflexivity | now contradiction Hm].
Qed.

Lemma resume_settles (o : FetchOutcome) (w : World) :
  settles w (exec (authFetch_resume o) w) /\
  settles w (exec (authFetchFormData_resume o) w).
Proof.
  split; destruct o as [res | e]; unfold exec.
  - destruct (authFetch_resume_cases res w) as [[_ ->] | [[_ ->] | (_ & _ & ->)]];
      cbn [fst].
    + apply failure_settles; repeat split.
    + apply failure_settles; repeat split.
    + apply call_settles. now right; right; right.
  - rewrite authFetch_resume_network. apply call_settles.
    right; right; left. now eexists _, _.
  - destruct (authFetchFormData_resume_cases res w) as [[_ ->] | [_ ->]]; cbn [fst].
    + apply failure_settles; repeat split.
    + apply call_settles. now right; right; right.
  - apply call_settles. right; right; left. now eexists _, _.
Qed.

Lemma login_request_emits (email password : string) (w : World) :
  exists req, exec (login_request email password) w = emit (Fetch req) w.
Proof. eexists. reflexivity. Qed.

Lemma plain_emits (mk : option string -> Request) (o : FetchOutcome) (w : World) :
  exec (let* token := getItem "token" in plain_fetch (mk token) o) w
  = emit (Fetch (mk (localStorage w !! "token"))) w.
Proof. unfold plain_fetch. js_simpl. now destruct o. Qed.

Lemma deliver_cases (key : option string) (w : World) :
  appState w <> None ->
  exec (deliver key) w = if relevant key then exec syncAuthState w else w.
Proof.
  intros Hm. unfold deliver, handleStorageChange, relevant. js_simpl.
  destruct (appState w); [ | now contradiction Hm].
  destruct key as [k | ]; [ | reflexivity].
  now destruct (String.eqb k "token" || String.eqb k "user").
Qed.

(** A write to a key that is neither of the two entries. *)
Lemma apply_op_other (op : StorageOp) (m : gmap string string) :
  relevant (event_key op) = false ->
  apply_op op m !! "token" = m !! "token" /\ apply_op op m !! "user" = m !! "user".
Proof.
  destruct op as [k v | k | ]; cbn; [ | | discriminate]; intros H;
    apply orb_false_iff in H as [Ht Hu];
    apply String.eqb_neq in Ht, Hu.
  - now rewrite !lookup_insert_ne by congruence.
  - now rewrite !lookup_delete_ne by congruence.
Qed.

(** The steps of api.js other than a logout through [logout]. *)
Lemma step_settles (a : Action) (w : World) (pending : list (option string)) :
  a <> ActLogout -> (forall dt, a <> ActWait dt) ->
  (forall op, a <> ActRemote op) -> a <> ActStorageEvent ->
  (forall op, a <> ActWrite op) ->
  (step a (w, pending)).2 = pending /\ settles w (step a (w, pending)).1.
Proof.
  intros Hl Hw Hr He Hx.
  destruct a; cbn [step fst snd]; try (split; [reflexivity | ]);
    try congruence.
  - destruct (login_request_emits email password w) as (req & ->).
    apply call_settles. right; left. now eexists.
  - destruct (login_resume_world o w) as [-> | [m ->]]; apply call_settles.
    + now right; right; right.
    + left. now exists m.
  - destruct (request_frame url options [] w) as [(req & ->) _].
    apply call_settles. right; left. now eexists.
  - apply resume_settles.
  - destruct (request_frame url no_options formData w) as [_ (req & ->)].
    apply call_settles. right; left. now eexists.
  - apply resume_settles.
  - unfold getInvestigators.
    rewrite (plain_emits
               (fun token => mkRequest (BASE +:+ "/api/v1/admin/investigators") None
                               (bearer_headers token) None)).
    apply call_settles. right; left. now eexists.
  - unfold updateInvestigatorAvailability, getToken.
    rewrite (plain_emits
               (fun token =>
                  mkRequest (BASE +:+ "/api/v1/investigator/availability") (Some "PUT")
                    (bearer_headers token)
                    (Some (TextBody
                             (JSON_stringify (JObj [("is_available", isAvailable)])))))).
    apply call_settles. right; left. now eexists.
  - destruct (updateStoredUser_world userData w) as [-> | [m ->]]; apply call_settles.
    + now right; right; right.
    + left. now exists m.
  - destruct (getCurrentUser_reads w) as [Hfst _]. unfold exec. rewrite Hfst.
    apply call_settles. now right; right; right.
  - unfold exec. rewrite AdminLayout_handleLogout_spec. cbn [fst].
    apply call_settles. left. exists clear_session.
    unfold exec. rewrite dispatchAuthChange_no_token; [reflexivity | ].
    cbn [localStorage with_storage]. now rewrite clear_session_token.
Qed.

(** X18. The derivation of [App] is idempotent: run on its own outcome it
    changes nothing, effects included.  It touches neither the flag nor the
    timers nor the clock; it leaves the store as it is or removes token and
    identity, and it leaves the store as it is whenever the token or the
    identity is absent or empty, or the identity parses.  When the stored
    identity is not JSON or parses, its outcome shows what the store then
    holds.  The storage listener of a mounted [App] runs it exactly for the
    keys token and user and for the [null] key of a cleared store, and does
    nothing for any other key. *)
Theorem X18_derivation_idempotent (w : World) (key : option string) :
  let w' := exec syncAuthState w in
  exec syncAuthState w' = w' /\
  same_timing w w' /\
  (localStorage w' = localStorage w \/
   localStorage w' = clear_session (localStorage w)) /\
  (truthy_item (localStorage w !! "token") = false \/
   truthy_item (localStorage w !! "user") = false \/
   (exists u v, localStorage w !! "user" = Some u /\ JSON_parse u = Some v) ->
   localStorage w' = localStorage w) /\
  (modelled_store (localStorage w) = true ->
   status_of_store (localStorage w') = Some (session_status w')) /\
  (appState w <> None ->
   exec (deliver key) w = if relevant key then w' else w) /\
  (appState w = None -> exec (deliver key) w = w).
Proof.
  intros w'. subst w'.
  split; [apply syncAuthState_idem | ].
  split; [apply syncAuthState_timing | ].
  split; [ | split; [ | split]].
  - unfold exec. rewrite syncAuthState_spec.
    destruct (_ && _); [destruct (JSON_parse _) | ]; cbn; auto.
  - unfold exec. rewrite syncAuthState_spec.
    intros [Ht | [Hu | (u & v & Hu & Hp)]].
    + now rewrite Ht.
    + rewrite Hu. now rewrite andb_false_r.
    + rewrite Hu. cbn [interpolate_item]. rewrite Hp.
      now destruct (_ && _).
  - intros _. apply fixed_status, syncAuthState_idem.
  - split; [apply deliver_cases | ].
    intros Hn. unfold deliver. js_simpl. now rewrite Hn.
Qed.

Lemma DashboardLayout_handleLogout_exec (w : World) :
  exec DashboardLayout_handleLogout w = exec logout w.
Proof.
  destruct (logout_spec w) as (Hr & _).
  unfold DashboardLayout_handleLogout, exec, result in *. unfold bind.
  destruct (logout w) as [w1 [[] | e]]; [reflexivity | discriminate Hr].
Qed.

(** *** The invariant of a mounted tab *)

(** A mounted [App] stays mounted, and shows what the store holds unless it
    may be behind. *)
Lemma step_mirror (a : Action) (t : Tab) (stale : bool) :
  appState t.1 <> None /\ (stale = false -> exec syncAuthState t.1 = t.1) ->
  appState (step a t).1 <> None /\
  (stale_step a t stale = false ->
   exec syncAuthState (step a t).1 = (step a t).1).
Proof.
  destruct t as [w pending]. cbn [fst]. intros [Hm Hc].
  assert (Hlocal : forall w',
            settles w w' ->
            appState w' <> None /\
            (stale && negb (dispatches w w') = false -> exec syncAuthState w' = w')).
  { intros w' [_ H]. destruct (H Hm) as [[(A1 & A2 & A3) Hd] | B].
    - split; [now rewrite A3 | ]. rewrite Hd, andb_true_r. intros Hs.
      apply (fixed_transfer w); [now repeat split | now apply Hc].
    - split; [rewrite <- B; apply syncAuthState_mounted | now intros _]. }
  assert (Hsame : forall w',
            same_session w w' ->
            appState w' <> None /\ (stale = false -> exec syncAuthState w' = w')).
  { intros w' (A1 & A2 & A3). split; [now rewrite A3 | ]. intros Hs.
    apply (fixed_transfer w); [now repeat split | now apply Hc]. }
  destruct a;
    try (match goal with
         | |- context [step ?a0 (w, pending)] =>
             destruct (step_settles a0 w pending) as [Hp Hs];
               try discriminate;
               cbn [stale_step fst snd];
               destruct (step a0 (w, pending)) as [w' p'] eqn:E;
               cbn [fst snd] in *; now apply Hlocal
         end).
  - cbn [step stale_step fst snd]. rewrite DashboardLayout_handleLogout_exec.
    destruct (logout_spec w) as (_ & _ & Hst & _ & _ & _ & Hap).
    assert (Hfix : exec syncAuthState (exec logout w) = exec logout w).
    { apply fixed_anonymous.
      - now rewrite Hst, clear_session_token.
      - rewrite Hap. destruct (appState w); [reflexivity | now contradiction Hm]. }
    split; [rewrite <- Hfix; apply syncAuthState_mounted | now intros _].
  - cbn [step stale_step fst snd].
    destruct (advance_spec dt w) as (_ & Hst & Hef & Hap & _).
    assert (Hd : dispatches w (advance dt w) = false).
    { unfold dispatches, new_effects. rewrite Hef.
      now rewrite drop_all. }
    rewrite Hd, andb_true_r. apply Hsame. repeat split; now rewrite ?Hst, ?Hap.
  - cbn [step stale_step fst snd]. split; [exact Hm | ]. intros Hs.
    apply orb_false_iff in Hs as [Hs Hk].
    destruct (apply_op_other op (localStorage w) Hk) as [Ht Hu].
    apply (fixed_transfer w); [now repeat split | now apply Hc].
  - cbn [step stale_step snd]. destruct pending as [ | key rest]; cbn [fst]; [now split | ].
    rewrite deliver_cases by exact Hm.
    destruct (relevant key) eqn:Ek.
    + split; [apply syncAuthState_mounted | intros _; apply syncAuthState_idem].
    + cbn [negb]. rewrite andb_true_r. now split.
  - cbn [step stale_step fst snd]. split; [exact Hm | ]. intros Hs.
    apply orb_false_iff in Hs as [Hs Hk].
    destruct (apply_op_other op (localStorage w) Hk) as [Ht Hu].
    apply (fixed_transfer w); [now repeat split | now apply Hc].
Qed.

Lemma history_mirror (actions : list Action) (t : Tab) (stale : bool) :
  appState t.1 <> None /\ (stale = false -> exec syncAuthState t.1 = t.1) ->
  stale_after actions t stale = false ->
  exec syncAuthState (run_history actions t).1 = (run_history actions t).1.
Proof.
  revert t stale. induction actions as [ | a actions IH]; intros t stale H Hs.
  - cbn in *. now apply H.
  - cbn [run_history fold_left stale_after] in *.
    apply (IH (step a t) (stale_step a t stale)); [ | exact Hs].
    apply step_mirror, H.
Qed.

(** *** The identity in the store stays within the model *)

Lemma modelled_text_stringify (v : json) :
  wf_json v = true -> modelled_text (JSON_stringify v) = true.
Proof.
  intros H. unfold modelled_text. rewrite (JSON_parse_stringify v H).
  apply orb_true_r.
Qed.

Lemma modelled_undefined : modelled_text "undefined" = true.
Proof. vm_compute. reflexivity. Qed.

Lemma modelled_store_clear (m : gmap string string) :
  modelled_store (clear_session m) = true.
Proof. unfold modelled_store. now rewrite clear_session_user. Qed.

Lemma modelled_store_keep (m m' : gmap string string) :
  m' = m \/ m' = clear_session m ->
  modelled_store m = true -> modelled_store m' = true.
Proof. intros [-> | ->] H; [exact H | apply modelled_store_clear]. Qed.

Lemma modelled_store_user (m m' : gmap string string) :
  m' !! "user" = m !! "user" ->
  modelled_store m = true -> modelled_store m' = true.
Proof. unfold modelled_store. now intros ->. Qed.

Lemma syncAuthState_store (w : World) :
  localStorage (exec syncAuthState w) = localStorage w \/
  localStorage (exec syncAuthState w) = clear_session (localStorage w).
Proof.
  unfold exec. rewrite syncAuthState_spec.
  destruct (_ && _); [destruct (JSON_parse _) | ]; cbn; auto.
Qed.

Lemma dispatchAuthChange_store (w : World) :
  localStorage (exec dispatchAuthChange w) = localStorage w \/
  localStorage (exec dispatchAuthChange w) = clear_session (localStorage w).
Proof.
  unfold dispatchAuthChange. js_simpl.
  destruct (appState w) eqn:E; [ | now left].
  rewrite syncAuthState_pair. cbn [fst].
  exact (syncAuthState_store (emit (Dispatched "authChange") w)).
Qed.

(** After a write of the identity and a dispatch. *)
Lemma written_modelled (X Y : string) (w : World) :
  modelled_text X = true ->
  modelled_store
    (localStorage
       (exec dispatchAuthChange
          (with_storage (fun st => <[ "user" := X ]> (<[ "token" := Y ]> st)) w)))
  = true.
Proof.
  intros HX.
  apply (modelled_store_keep _ _ (dispatchAuthChange_store _)).
  unfold modelled_store. cbn [localStorage with_storage].
  now rewrite lookup_insert_eq.
Qed.

Lemma login_resume_modelled (o : FetchOutcome) (w : World) :
  modelled_action (ActLoginResponse o) = true ->
  modelled_store (localStorage w) = true ->
  modelled_store (localStorage (exec (login_resume o) w)) = true.
Proof.
  intros _ Hst. unfold exec, login_resume. destruct o as [res | e]; [ | exact Hst].
  destruct (ok res) eqn:Hok; [ | exact Hst].
  unfold JSON_parse_js. destruct (JSON_parse (body res)) as [data | ] eqn:Ep;
    [ | exact Hst].
  pose proof (JSON_parse_wf _ _ Ep) as Hwf.
  assert (Hgo : forall X Y, modelled_text X = true ->
            modelled_store
              (localStorage
                 (fst (bind (bind (setItem "token" Y)
                               (fun _ => bind (setItem "user" X)
                                           (fun _ => dispatchAuthChange)))
                         (fun _ => ret res) w))) = true).
  { intros X Y HX. pose proof (written_modelled X Y w HX) as H.
    unfold exec in H. unfold bind, setItem, effect, ret. cbn [fst snd].
    change (with_storage <[ "user" := X ]> (with_storage <[ "token" := Y ]> w))
      with (with_storage (fun st => <[ "user" := X ]> (<[ "token" := Y ]> st)) w).
    destruct (dispatchAuthChange _) as [w1 [[] | err]]; exact H. }
  destruct data as [ | b | n | s | l | m]; unfold get_member;
    try exact Hst;
    try (unfold bind at 1 2, ret at 1 2; cbn beta iota;
         apply Hgo; exact modelled_undefined).
  unfold bind at 1 2, ret at 1 2. cbn beta iota.
  destruct (obj_get "user" m) as [u | ] eqn:Eu.
  - apply Hgo, modelled_text_stringify.
    exact (obj_get_wf _ _ _ Hwf Eu).
  - apply Hgo, modelled_undefined.
Qed.

Lemma updateStoredUser_modelled (userData : json) (w : World) :
  wf_json userData = true ->
  modelled_store (localStorage w) = true ->
  modelled_store (localStorage (exec (updateStoredUser userData) w)) = true.
Proof.
  intros Hud Hst. destruct (getCurrentUser_reads w) as [Hw Hwf].
  unfold exec, updateStoredUser, bind.
  destruct (getCurrentUser w) as [w0 [cu | e]]; cbn [fst] in Hw; subst w0;
    [ | exact Hst].
  destruct (truthy cu); [ | exact Hst].
  unfold setItem, effect. cbn [fst snd].
  apply (modelled_store_keep _ _ (dispatchAuthChange_store _)).
  unfold modelled_store. cbn [localStorage with_storage].
  rewrite lookup_insert_eq.
  apply modelled_text_stringify, spread2_wf; [now apply Hwf | exact Hud].
Qed.

Lemma apply_op_modelled (op : StorageOp) (m : gmap string string) :
  match op with
  | RemoteSet k v => negb (String.eqb k "user") || modelled_text v = true
  | _ => True
  end ->
  modelled_store m = true -> modelled_store (apply_op op m) = true.
Proof.
  unfold modelled_store. destruct op as [k v | k | ]; cbn [apply_op]; intros Ha Hst.
  - destruct (String.eqb k "user") eqn:Ek.
    + apply String.eqb_eq in Ek. subst k. now rewrite lookup_insert_eq.
    + apply String.eqb_neq in Ek. now rewrite lookup_insert_ne.
  - destruct (String.eqb k "user") eqn:Ek.
    + apply String.eqb_eq in Ek. subst k. now rewrite lookup_delete_eq.
    + apply String.eqb_neq in Ek. now rewrite lookup_delete_ne.
  - now rewrite lookup_empty.
Qed.

Lemma step_modelled (a : Action) (t : Tab) :
  modelled_action a = true ->
  modelled_store (localStorage t.1) = true ->
  modelled_store (localStorage (step a t).1) = true.
Proof.
  destruct t as [w pending]. cbn [fst]. intros Ha Hst.
  destruct a; cbn [step fst snd].
  - destruct (login_request_emits email password w) as (req & ->). exact Hst.
  - now apply login_resume_modelled.
  - destruct (request_frame url options [] w) as [(req & ->) _]. exact Hst.
  - destruct (resume_frame o w) as [(_ & _ & _ & H & _) _].
    exact (modelled_store_keep _ _ H Hst).
  - destruct (request_frame url no_options formData w) as [_ (req & ->)]. exact Hst.
  - destruct (resume_frame o w) as [_ (_ & _ & _ & H & _)].
    exact (modelled_store_keep _ _ H Hst).
  - unfold getInvestigators. now rewrite plain_emits.
  - unfold updateInvestigatorAvailability, getToken. now rewrite plain_emits.
  - now apply updateStoredUser_modelled.
  - destruct (getCurrentUser_reads w) as [Hfst _]. unfold exec. now rewrite Hfst.
  - rewrite DashboardLayout_handleLogout_exec.
    destruct (logout_spec w) as (_ & _ & H & _). rewrite H. apply modelled_store_clear.
  - unfold exec. rewrite AdminLayout_handleLogout_spec. cbn [fst].
    unfold seen_anonymous. destruct (appState _); cbn; apply modelled_store_clear.
  - destruct (advance_spec dt w) as (_ & H & _). now rewrite H.
  - cbn [localStorage with_storage]. apply apply_op_modelled; [ | exact Hst].
    now destruct op.
  - destruct pending as [ | key rest]; cbn [fst]; [exact Hst | ].
    unfold deliver, handleStorageChange. js_simpl.
    destruct (appState w); [ | exact Hst].
    assert (Hs : modelled_store (localStorage (fst (syncAuthState w))) = true)
      by exact (modelled_store_keep _ _ (syncAuthState_store w) Hst).
    destruct key as [k | ]; [ | exact Hs].
    destruct (String.eqb k "token" || String.eqb k "user"); [exact Hs | exact Hst].
  - cbn [localStorage with_storage]. apply apply_op_modelled; [ | exact Hst].
    now destruct op.
Qed.

Lemma history_modelled (actions : list Action) (t : Tab) :
  forallb modelled_action actions = true ->
  modelled_store (localStorage t.1) = true ->
  modelled_store (localStorage (run_history actions t).1) = true.
Proof.
  revert t. induction actions as [ | a actions IH]; intros t Ha Hst; [exact Hst | ].
  cbn [forallb] in Ha. apply andb_true_iff in Ha as [Ha Hrest].
  cbn [run_history fold_left]. apply IH; [exact Hrest | ].
  now apply step_modelled.
Qed.

(** X19. From the mounting of [App] on, over every history of steps in any
    order (requests and their answers, with anything in between; logins;
    logouts from either layout; profile updates; reads; time passing; writes
    of other tabs and the delivery of their storage events; writes of this
    tab's own code that dispatch nothing), provided the stored identity, the
    bodies of ok login responses and the identities written by other code
    are texts the model settles, and the profile updates are well formed:
    whenever [App] cannot be behind the store
    (every write to the token or the identity it was not told about has been
    followed by a dispatch of authChange or by the delivery of a storage
    event for the token, the identity or a cleared store), the derivation
    would change nothing, so the state of [App] is exactly what the store
    holds.  The status is then never loading; it is authenticated with the
    stored identity when a token and an identity are stored, both not empty,
    and anonymous otherwise; and a token that is not empty is not stored
    beside an identity that is not empty and is not JSON. *)
Theorem X19_app_mirrors_store (actions : list Action) (w0 : World) :
  modelled_store (localStorage w0) = true ->
  forallb modelled_action actions = true ->
  stale_after actions (exec App_mount w0, []) false = false ->
  let w := (run_history actions (exec App_mount w0, [])).1 in
  exec syncAuthState w = w /\
  modelled_store (localStorage w) = true /\
  status_of_store (localStorage w) = Some (session_status w) /\
  session_status w <> Loading.
Proof.
  intros Hst0 Hact Hstale w.
  assert (Hmount : exec App_mount w0
                   = exec syncAuthState (with_app (Some initialAuthState) w0)).
  { unfold App_mount. js_simpl. reflexivity. }
  assert (Hc : exec syncAuthState w = w).
  { apply (history_mirror actions (exec App_mount w0, []) false); [ | exact Hstale].
    cbn [fst]. rewrite Hmount.
    split; [apply syncAuthState_mounted | intros _; apply syncAuthState_idem]. }
  assert (Hmod : modelled_store (localStorage w) = true).
  { apply history_modelled; [exact Hact | ]. cbn [fst]. rewrite Hmount.
    exact (modelled_store_keep _ _
             (syncAuthState_store (with_app (Some initialAuthState) w0)) Hst0). }
  pose proof (fixed_status _ Hc) as Hs.
  split; [exact Hc | ]. split; [exact Hmod | ]. split; [exact Hs | ].
  intros Hl. rewrite Hl in Hs. unfold status_of_store in Hs.
  destruct (localStorage w !! "token"); [ | discriminate].
  destruct (localStorage w !! "user"); [ | discriminate].
  destruct (_ && _); [ | discriminate].
  destruct (JSON_parse _); discriminate.
Qed.

(** X19, at a concrete history: a login, a profile update, a request whose
    401 arrives after two logouts, a token written by another tab, a token
    removed by this tab's own code, and a logout from the admin layout. *)
Lemma X19_app_mirrors_store_witness :
  modelled_store (localStorage fresh_world) = true /\
  forallb modelled_action silent_history = true /\
  stale_after silent_history (exec App_mount fresh_world, []) false = false /\
  status_of_store
    (localStorage (run_history silent_history (exec App_mount fresh_world, [])).1)
  = Some (session_status (run_history silent_history (exec App_mount fresh_world, [])).1).
Proof.
  assert (H1 : modelled_store (localStorage fresh_world) = true) by reflexivity.
  assert (H2 : forallb modelled_action silent_history = true)
    by (vm_compute; reflexivity).
  assert (H3 : stale_after silent_history (exec App_mount fresh_world, []) false = false)
    by (vm_compute; reflexivity).
  split; [exact H1 | ]. split; [exact H2 | ]. split; [exact H3 | ].
  exact (proj1 (proj2 (proj2 (X19_app_mirrors_store silent_history fresh_world H1 H2 H3)))).
Defined.

(* ===================================================================== *)
(** ** The flag never sticks *)
(* ===================================================================== *)

Lemma advance_timers (dt : nat) (w : World) :
  timers (advance dt w)
  = List.filter (fun p => negb (fst p <=? clock w + dt)%nat) (timers w).
Proof.
  unfold advance.
  destruct (run_callbacks_spec
              (List.filter (fun p => (fst p <=? clock w + dt)%nat) (timers w))
              (with_timers (clock w + dt)
                 (List.filter (fun p => negb (fst p <=? clock w + dt)%nat) (timers w)) w))
    as (_ & _ & _ & _ & Ht & _).
  cbn zeta. rewrite Ht. reflexivity.
Qed.

Lemma deliver_timing (key : option string) (w : World) :
  same_timing w (exec (deliver key) w).
Proof.
  unfold deliver, handleStorageChange. js_simpl.
  destruct (appState w); [ | apply same_timing_refl].
  destruct key as [k | ]; [ | apply syncAuthState_timing].
  destruct (String.eqb k "token" || String.eqb k "user");
    [apply syncAuthState_timing | apply same_timing_refl].
Qed.

Lemma reset_pending_timing (w w' : World) :
  same_timing w w' ->
  (isLoggingOut w = true -> reset_pending w) ->
  isLoggingOut w' = true -> reset_pending w'.
Proof.
  intros (Hf & Ht & Hc) H Hw'. unfold reset_pending in *.
  rewrite Ht, Hc. apply H. now rewrite <- Hf.
Qed.

(** While the flag is set, a reset is due within the timeout. *)
Lemma step_reset (a : Action) (t : Tab) :
  (isLoggingOut t.1 = true -> reset_pending t.1) ->
  isLoggingOut (step a t).1 = true -> reset_pending (step a t).1.
Proof.
  destruct t as [w pending]. cbn [fst]. intros H.
  destruct a;
    try (match goal with
         | |- context [step ?a0 (w, pending)] =>
             destruct (step_settles a0 w pending) as [_ [Hs _]];
               try discriminate;
               now apply (reset_pending_timing w)
         end).
  - cbn [step fst]. rewrite DashboardLayout_handleLogout_exec.
    destruct (logout_spec w) as (_ & _ & _ & Hti & Hcl & _).
    intros _. exists (clock w + 1000)%nat, ResetLoggingOut.
    rewrite Hti, Hcl. split; [apply in_or_app; right; now left | lia].
  - cbn [step fst]. intros Hfl.
    destruct (advance_spec dt w) as (Hf & _ & _ & _ & Hcl).
    rewrite Hfl in Hf.
    destruct (List.filter (fun p => (fst p <=? clock w + dt)%nat) (timers w))
      as [ | p due] eqn:Edue; [ | discriminate Hf].
    destruct (H (eq_sym Hf)) as (d & cb & Hin & Hd).
    exists d, cb. rewrite advance_timers, Hcl. split; [ | lia].
    apply filter_In. split; [exact Hin | ]. cbn [fst].
    destruct (d <=? clock w + dt)%nat eqn:El; [ | reflexivity].
    assert (Hin' : In (d, cb)
                     (List.filter (fun p => (fst p <=? clock w + dt)%nat) (timers w)))
      by (apply filter_In; now split).
    rewrite Edue in Hin'. destruct Hin'.
  - cbn [step fst]. apply (reset_pending_timing w); [repeat split | exact H].
  - cbn [step]. destruct pending as [ | key rest]; cbn [fst]; [exact H | ].
    apply (reset_pending_timing w); [apply deliver_timing | exact H].
  - cbn [step fst]. apply (reset_pending_timing w); [repeat split | exact H].
Qed.

Lemma history_reset (actions : list Action) (t : Tab) :
  (isLoggingOut t.1 = true -> reset_pending t.1) ->
  isLoggingOut (run_history actions t).1 = true ->
  reset_pending (run_history actions t).1.
Proof.
  revert t. induction actions as [ | a actions IH]; intros t H; [exact H | ].
  cbn [run_history fold_left]. apply IH, step_reset, H.
Qed.

(** X20. The logout flag never sticks.  In a tab that starts with the flag
    unset, after any history of steps (whether [App] is mounted or not),
    while the flag is set a reset timer is pending that is due at most
    1000 ms later; so one second without any step always finds the flag
    unset again, and a 401 that arrives then raises the expiry notice. *)
Theorem X20_flag_resets (actions : list Action) (t0 : Tab) :
  isLoggingOut t0.1 = false ->
  let w := (run_history actions t0).1 in
  (isLoggingOut w = true -> reset_pending w) /\
  isLoggingOut (advance 1000 w) = false /\
  forall res, status res = 401 ->
    alerts (new_effects (advance 1000 w)
              (exec (authFetch_resume (Responded res)) (advance 1000 w)))
    = [msg_expired].
Proof.
  intros H0 w.
  assert (HJ : isLoggingOut w = true -> reset_pending w).
  { apply history_reset. rewrite H0. discriminate. }
  assert (Hoff : isLoggingOut (advance 1000 w) = false).
  { destruct (advance_spec 1000 w) as (Hf & _). rewrite Hf.
    destruct (List.filter (fun p => (fst p <=? clock w + 1000)%nat) (timers w))
      as [ | p due] eqn:Edue; [ | reflexivity].
    destruct (isLoggingOut w) eqn:Efl; [ | reflexivity].
    destruct (HJ eq_refl) as (d & cb & Hin & Hd).
    assert (Hin' : In (d, cb)
                     (List.filter (fun p => (fst p <=? clock w + 1000)%nat) (timers w)))
      by (apply filter_In; split; [exact Hin | cbn; now apply Nat.leb_le]).
    rewrite Edue in Hin'. destruct Hin'. }
  split; [exact HJ | ]. split; [exact Hoff | ].
  intros res Hs. destruct (gateway_401 res (advance 1000 w) Hs) as (Ha & _).
  rewrite Ha, Hoff. reflexivity.
Qed.

(** X20, at a concrete history, from a fresh tab. *)
Lemma X20_flag_resets_witness :
  isLoggingOut (fresh_world, @nil (option string)).1 = false /\
  isLoggingOut (advance 1000 (run_history busy_history (fresh_world, [])).1) = false.
Proof.
  split; [reflexivity | ].
  exact (proj1 (proj2 (X20_flag_resets busy_history (fresh_world, []) eq_refl))).
Defined.

(* ===================================================================== *)
(** ** Across tabs *)
(* ===================================================================== *)

(** X21. A session reaches the other tabs of the origin.  When [login]
    succeeds in one tab, with a token that is not empty, any other tab with
    [App] mounted that sees the same store reports the very identity of the
    response as soon as one storage event for the token, the identity or a
    cleared store is delivered to it, and leaves the store as it is; when
    [logout] runs in one tab, such a tab reports an anonymous session after
    one such event. *)
Theorem X21_session_reaches_tabs (res : Response) (m : list (string * json))
  (T : string) (I : json) (wA wB : World) (key : option string) :
  ok res = true ->
  JSON_parse (body res) = Some (JObj m) ->
  obj_get "token" m = Some (JStr T) -> nonempty T = true ->
  obj_get "user" m = Some I ->
  appState wB <> None -> relevant key = true ->
  (localStorage wB = localStorage (exec (login_resume (Responded res)) wA) ->
   session_status (exec (deliver key) wB) = Authenticated I /\
   localStorage (exec (deliver key) wB) = localStorage wB) /\
  (localStorage wB = localStorage (exec logout wA) ->
   session_status (exec (deliver key) wB) = Anonymous /\
   localStorage (exec (deliver key) wB) = localStorage wB).
Proof.
  intros Hok Hparse Htok HT Husr Hm Hk.
  rewrite deliver_cases by exact Hm. rewrite Hk.
  split; intros Hst.
  - destruct (login_resume_stores res m T I wA Hok Hparse Htok Husr) as (a & E & _).
    unfold exec in Hst. rewrite E in Hst. cbn in Hst.
    assert (HwfI : wf_json I = true)
      by (eapply obj_get_wf; [exact (JSON_parse_wf _ _ Hparse) | exact Husr]).
    unfold exec.
    rewrite (syncAuthState_parsed wB (JSON_stringify I) I).
    + split; reflexivity.
    + rewrite Hst, lookup_insert_ne by done. rewrite lookup_insert_eq. exact HT.
    + rewrite Hst. apply lookup_insert_eq.
    + now apply JSON_parse_stringify.
  - destruct (logout_spec wA) as (_ & _ & Hcl & _).
    unfold exec at 1 2. rewrite syncAuthState_no_token; [split; reflexivity | ].
    now rewrite Hst, Hcl, clear_session_token.
Qed.

(** X21, at a concrete input: the login of the sample user in a fresh tab,
    seen from a tab that showed an anonymous session. *)
Lemma X21_session_reaches_tabs_witness :
  session_status
    (exec (deliver (Some "token"))
       (mkWorld
          (localStorage
             (exec (login_resume
                      (Responded (mkResponse 200 (login_body "tok123" sample_identity))))
                fresh_world))
          false (Some anonymousState) 0 [] []))
  = Authenticated sample_identity.
Proof.
  refine (proj1 (proj1
    (X21_session_reaches_tabs
       (mkResponse 200 (login_body "tok123" sample_identity))
       [("token", JStr "tok123"); ("user", sample_identity)]
       "tok123" sample_identity fresh_world
       (mkWorld
          (localStorage
             (exec (login_resume
                      (Responded (mkResponse 200 (login_body "tok123" sample_identity))))
                fresh_world))
          false (Some anonymousState) 0 [] [])
       (Some "token") _ _ _ _ _ _ _) _)).
  - reflexivity.
  - vm_compute. reflexivity.
  - reflexivity.
  - reflexivity.
  - reflexivity.
  - discriminate.
  - reflexivity.
  - reflexivity.
Defined.
